(** * Extraction pipeline of the financial-statement reader

    A shallow embedding of the extraction functions of [mined.py]
    ([extract_dates_from_text], [extract_table_or_text],
    [extract_financial_values], [extract_fin_data] and their helpers) and
    the properties of the written specification that concern them.

    Conventions of the embedding.
    - Python [str] is [string]: a sequence of 8-bit characters.  Case
      folding, white space, digits and word characters are the ASCII ones;
      characters above 127 are letters of no class.
    - [None] is [VNone] inside a dictionary and [option] elsewhere.
    - A raised exception is the [Raise] outcome of the [result] type.
    - The [float] builtin is an interface ([PyFloat]); the theorems hold
      for every implementation of it.
    - What the libraries return is data of the model: a page carries its
      text, its tables and its OCR output, and the decoded answer of
      [use_gemini_extraction] is a function of the text sent, any JSON
      object.  The session of [main], the chat and the parsing of the
      answer have sections of their own further down.
    - A property that rests on a character class or on case folding
      beyond what the code itself calls is stated for texts of ASCII
      characters. *)

From Stdlib Require Import ZArith String Ascii List Bool Lia DecimalString.
From Stdlib Require Import Sorting.Sorted.
From stdpp Require Import gmap strings list fin_maps.

Open Scope string_scope.
Open Scope list_scope.

(** ** Strings *)

Module Str.

Definition is_upper (c : ascii) : bool :=
  let n := nat_of_ascii c in (65 <=? n)%nat && (n <=? 90)%nat.

Definition is_lower (c : ascii) : bool :=
  let n := nat_of_ascii c in (97 <=? n)%nat && (n <=? 122)%nat.

Definition is_digit (c : ascii) : bool :=
  let n := nat_of_ascii c in (48 <=? n)%nat && (n <=? 57)%nat.

(** [\w] of the [re] module, on ASCII. *)
Definition is_word (c : ascii) : bool :=
  is_upper c || is_lower c || is_digit c || Ascii.eqb c "_".

(** [str.isspace] / [\s], on ASCII: tab, line feed, vertical tab, form
    feed, carriage return, the four separators 28..31 and the blank. *)
Definition is_space (c : ascii) : bool :=
  let n := nat_of_ascii c in
  ((9 <=? n)%nat && (n <=? 13)%nat) || ((28 <=? n)%nat && (n <=? 32)%nat).

Definition ascii_lower (c : ascii) : ascii :=
  if is_upper c then ascii_of_nat (nat_of_ascii c + 32) else c.

(** [s.lower()] *)
Fixpoint lower (s : string) : string :=
  match s with
  | EmptyString => EmptyString
  | String c r => String (ascii_lower c) (lower r)
  end.

(** [needle in hay] *)
Fixpoint contains (needle hay : string) : bool :=
  String.prefix needle hay ||
  match hay with
  | EmptyString => false
  | String _ r => contains needle r
  end.

(** [s.replace(",", "")] *)
Fixpoint remove_commas (s : string) : string :=
  match s with
  | EmptyString => EmptyString
  | String c r =>
      if Ascii.eqb c "," then remove_commas r else String c (remove_commas r)
  end.

Fixpoint lstrip (s : string) : string :=
  match s with
  | EmptyString => EmptyString
  | String c r => if is_space c then lstrip r else s
  end.

Fixpoint rstrip (s : string) : string :=
  match s with
  | EmptyString => EmptyString
  | String c r =>
      match rstrip r with
      | EmptyString => if is_space c then EmptyString else String c EmptyString
      | r' => String c r'
      end
  end.

(** [s.strip()] *)
Definition strip (s : string) : string := rstrip (lstrip s).

(** Truth value of a string: non-empty. *)
Definition nonempty (s : string) : bool :=
  match s with EmptyString => false | String _ _ => true end.

End Str.

(** ** Regular expressions

    The fragment of [re] the program uses: a pattern is a sequence of
    items matched left to right, greedy repetitions giving characters back
    one at a time when the rest of the pattern fails. *)

Module Re.

Inductive item :=
  | Alt (phrases : list string)
  | Rep (cls : ascii → bool) (lo : nat) (hi : option nat)
  | Bound
  | Open
  | Close.

(** A position in the subject: the character before it and the text from
    it on. *)
Definition word_before (prev : option ascii) : bool :=
  match prev with Some c => Str.is_word c | None => false end.

Definition word_after (rest : string) : bool :=
  match rest with String c _ => Str.is_word c | EmptyString => false end.

Definition last_char (prev : option ascii) (s : string) : option ascii :=
  fold_left (λ _ c, Some c) (list_ascii_of_string s) prev.

(** [phrase] read at the head of [s]: the text it matched and what
    follows.  With [ci] the comparison ignores the case of ASCII
    letters, as [(?i)] does on a text of ASCII characters; the other
    letters that [(?i)] equates with an ASCII letter (the long s, the
    dotless and the dotted "i", the Kelvin sign) are not characters of
    the strings of this development. *)
Fixpoint read_phrase (ci : bool) (phrase s : string) : option (string * string) :=
  match phrase, s with
  | EmptyString, _ => Some (EmptyString, s)
  | String p phrase', String c s' =>
      if (if ci then Ascii.eqb (Str.ascii_lower p) (Str.ascii_lower c)
          else Ascii.eqb p c)
      then '(m, rest) ← read_phrase ci phrase' s'; Some (String c m, rest)
      else None
  | String _ _, EmptyString => None
  end.

Section Matcher.
Context {R : Type}.

(** [cls{lo,hi}], greedy: [lo] characters are still owed, [hi] more are
    allowed; [k] is the rest of the pattern. *)
Fixpoint rep (cls : ascii → bool) (k : option ascii → string → string → option R)
    (lo : nat) (hi : option nat) (prev : option ascii) (s taken : string)
  : option R :=
  let stop := match lo with 0 => k prev s taken | S _ => None end in
  match s with
  | String c r =>
      if cls c && match hi with Some 0 => false | _ => true end then
        match rep cls k (pred lo) (pred <$> hi) (Some c) r
                (taken +:+ String c EmptyString) with
        | Some x => Some x
        | None => stop
        end
      else stop
  | EmptyString => stop
  end.

End Matcher.

(** What a successful match yields: the text of the group and the
    position after the match. *)
Definition found : Type := string * (option ascii * string).

Definition grow (grp : bool) (acc m : string) : string :=
  if grp then acc +:+ m else acc.

Fixpoint match_here (ci : bool) (items : list item) (prev : option ascii)
    (s : string) (grp : bool) (acc : string) : option found :=
  match items with
  | [] => Some (acc, (prev, s))
  | Alt phrases :: items' =>
      (fix alts (l : list string) : option found :=
         match l with
         | [] => None
         | p :: l' =>
             match
               '(m, rest) ← read_phrase ci p s;
               match_here ci items' (last_char prev m) rest grp (grow grp acc m)
             with
             | Some x => Some x
             | None => alts l'
             end
         end) phrases
  | Rep cls lo hi :: items' =>
      rep cls (λ prev' s' taken,
                 match_here ci items' prev' s' grp (grow grp acc taken))
          lo hi prev s EmptyString
  | Bound :: items' =>
      if xorb (word_before prev) (word_after s)
      then match_here ci items' prev s grp acc else None
  | Open :: items' => match_here ci items' prev s true EmptyString
  | Close :: items' => match_here ci items' prev s false acc
  end.

(** [re.search(pattern, s).group(1)], from the position after [prev]. *)
Fixpoint search_from (ci : bool) (items : list item) (prev : option ascii)
    (s : string) : option string :=
  match match_here ci items prev s false EmptyString with
  | Some (g, _) => Some g
  | None =>
      match s with
      | String c r => search_from ci items (Some c) r
      | EmptyString => None
      end
  end.

Definition search (ci : bool) (items : list item) (s : string) : option string :=
  search_from ci items None s.

(** [re.findall(pattern, s)] for a pattern with one group: successive
    matches, the scan resuming where the last match ended ([skip] counts
    the characters of that match still to pass). *)
Fixpoint findall_from (ci : bool) (items : list item) (prev : option ascii)
    (s : string) (skip : nat) : list string :=
  match skip with
  | S k =>
      match s with
      | String c r => findall_from ci items (Some c) r k
      | EmptyString => []
      end
  | 0 =>
      match match_here ci items prev s false EmptyString with
      | Some (g, (_, rest)) =>
          g :: match s with
               | String c r =>
                   findall_from ci items (Some c) r
                     (String.length s - String.length rest - 1)
               | EmptyString => []
               end
      | None =>
          match s with
          | String c r => findall_from ci items (Some c) r 0
          | EmptyString => []
          end
      end
  end.

Definition findall (ci : bool) (items : list item) (s : string) : list string :=
  findall_from ci items None s 0.

End Re.

Definition is_sep (c : ascii) : bool := Ascii.eqb c "/" || Ascii.eqb c "-".

(** [r"\b(\d{1,2}[/-]\d{1,2}[/-]\d{2,4})\b"] *)
Definition date_pattern : list Re.item :=
  [ Re.Bound; Re.Open;
    Re.Rep Str.is_digit 1 (Some 2); Re.Rep is_sep 1 (Some 1);
    Re.Rep Str.is_digit 1 (Some 2); Re.Rep is_sep 1 (Some 1);
    Re.Rep Str.is_digit 2 (Some 4);
    Re.Close; Re.Bound ].


(** ** Dates *)

Record datetime := { year : nat; month : nat; day : nat }.

Module Strptime.

Inductive directive := Day | Month | Year4 | Year2 | Lit (c : ascii).

Definition between (lo hi : ascii) (c : ascii) : bool :=
  (nat_of_ascii lo <=? nat_of_ascii c)%nat && (nat_of_ascii c <=? nat_of_ascii hi)%nat.

(** The alternatives of the regular expression of a directive, in the order
    the library tries them; an alternative is a sequence of character
    classes. *)
Definition alternatives (d : directive) : list (list (ascii → bool)) :=
  match d with
  | Day =>
      [ [Ascii.eqb "3"; between "0" "1"];
        [between "1" "2"; Str.is_digit];
        [Ascii.eqb "0"; between "1" "9"];
        [between "1" "9"];
        [Ascii.eqb " "; between "1" "9"] ]
  | Month =>
      [ [Ascii.eqb "1"; between "0" "2"];
        [Ascii.eqb "0"; between "1" "9"];
        [between "1" "9"] ]
  | Year4 => [ [Str.is_digit; Str.is_digit; Str.is_digit; Str.is_digit] ]
  | Year2 => [ [Str.is_digit; Str.is_digit] ]
  | Lit c => [ [Ascii.eqb c] ]
  end.

Fixpoint read_classes (cs : list (ascii → bool)) (s : string)
  : option (string * string) :=
  match cs, s with
  | [], _ => Some (EmptyString, s)
  | p :: cs', String c s' =>
      if p c then '(m, rest) ← read_classes cs' s'; Some (String c m, rest)
      else None
  | _ :: _, EmptyString => None
  end.

(** [int(text)]: the digits of [text], blanks skipped. *)
Definition int_of (text : string) : nat :=
  fold_left (λ n c, if Str.is_digit c then 10 * n + (nat_of_ascii c - 48) else n)
    (list_ascii_of_string text) 0.

(** The fields found so far: day, month, year. *)
Definition fields : Type := nat * nat * nat.

Definition set_field (d : directive) (text : string) (f : fields) : fields :=
  let '(dd, mm, yy) := f in
  match d with
  | Day => (int_of text, mm, yy)
  | Month => (dd, int_of text, yy)
  | Year4 => (dd, mm, int_of text)
  | Year2 =>
      let y := int_of text in
      (dd, mm, if (y <=? 68)%nat then y + 2000 else y + 1900)
  | Lit _ => f
  end.

(** The match of the compiled format at the head of [s]: the first choice
    of alternatives that fits, with the text left over. *)
Fixpoint match_format (fmt : list directive) (s : string) (f : fields)
  : option (fields * string) :=
  match fmt with
  | [] => Some (f, s)
  | d :: fmt' =>
      (fix alts (l : list (list (ascii → bool))) : option (fields * string) :=
         match l with
         | [] => None
         | a :: l' =>
             match
               '(m, rest) ← read_classes a s;
               match_format fmt' rest (set_field d m f)
             with
             | Some x => Some x
             | None => alts l'
             end
         end) (alternatives d)
  end.

Definition is_leap (y : nat) : bool :=
  ((y mod 4 =? 0) && negb (y mod 100 =? 0) || (y mod 400 =? 0))%nat.

Definition days_in_month (y m : nat) : nat :=
  match m with
  | 2 => if is_leap y then 29 else 28
  | 4 | 6 | 9 | 11 => 30
  | _ => 31
  end.

(** [datetime.strptime(s, fmt)]; [None] stands for [ValueError]. *)
Definition strptime (s : string) (fmt : list directive) : option datetime :=
  '(f, rest) ← match_format fmt s (1, 1, 1900);
  let '(d, m, y) := f in
  match rest with
  | EmptyString =>
      if ((1 <=? y) && (1 <=? m) && (m <=? 12) && (1 <=? d) &&
          (d <=? days_in_month y m))%nat
      then Some {| year := y; month := m; day := d |}
      else None
  | String _ _ => None
  end.

End Strptime.

Import Strptime.

(** ["%d-%m-%Y", "%d/%m/%Y", "%d-%m-%y", "%d/%m/%y"] *)
Definition date_formats : list (list directive) :=
  [ [Day; Lit "-"; Month; Lit "-"; Year4];
    [Day; Lit "/"; Month; Lit "/"; Year4];
    [Day; Lit "-"; Month; Lit "-"; Year2];
    [Day; Lit "/"; Month; Lit "/"; Year2] ].

(** The inner loop over the formats: the first that parses, if any. *)
Fixpoint parse_date (fmts : list (list directive)) (date_str : string)
  : option datetime :=
  match fmts with
  | [] => None
  | fmt :: fmts' =>
      match strptime date_str fmt with
      | Some d => Some d
      | None => parse_date fmts' date_str
      end
  end.

(** [a <= b] on [datetime] values (the time of day is midnight
    throughout). *)
Definition date_leb (a b : datetime) : bool :=
  (year a <? year b)%nat ||
  ((year a =? year b)%nat &&
   ((month a <? month b)%nat ||
    ((month a =? month b)%nat && (day a <=? day b)%nat))).

(** [sorted(l, reverse=True)]: the stable descending sort, by insertion. *)
Fixpoint insert_desc (d : datetime) (l : list datetime) : list datetime :=
  match l with
  | [] => [d]
  | e :: l' => if date_leb e d then d :: l else e :: insert_desc d l'
  end.

Definition sorted_desc (l : list datetime) : list datetime :=
  foldr insert_desc [] l.

Definition str_of_nat (n : nat) : string :=
  NilEmpty.string_of_uint (Nat.to_uint n).

(** [f"Q{(d.month - 1) // 3 + 1} {d.year}"] *)
Definition quarter (d : datetime) : nat := (month d - 1) / 3 + 1.

Definition period_label (d : datetime) : string :=
  "Q" +:+ str_of_nat (quarter d) +:+ " " +:+ str_of_nat (year d).

Definition extract_dates_from_text (text : string)
  : option string * option string :=
  let dates := Re.findall false date_pattern text in
  let formatted_dates := omap (parse_date date_formats) dates in
  match sorted_desc formatted_dates with
  | [] => (None, None)
  | latest_date :: rest =>
      (Some (period_label latest_date),
       match rest with
       | previous_date :: _ => Some (period_label previous_date)
       | [] => None
       end)
  end.


(** [r"\b\d{4}\b"], the whole match taken as the group. *)
Definition year_pattern : list Re.item :=
  [ Re.Bound; Re.Open; Re.Rep Str.is_digit 4 (Some 4); Re.Close; Re.Bound ].

Definition company_sep (c : ascii) : bool :=
  Ascii.eqb c ":" || Ascii.eqb c "-" || Str.is_space c.

Definition company_char (c : ascii) : bool :=
  Str.is_upper c || Str.is_lower c || Str.is_digit c ||
  Ascii.eqb c "&" || Ascii.eqb c "." || Ascii.eqb c "," || Str.is_space c.

(** [(?i)(?:Company Name|Statement of|Financial Report of)\s*[:\-\s]*([A-Za-z0-9&.,\s]+)],
    as it reads on a text of ASCII characters. *)
Definition company_pattern : list Re.item :=
  [ Re.Alt ["Company Name"; "Statement of"; "Financial Report of"];
    Re.Rep Str.is_space 0 None; Re.Rep company_sep 0 None;
    Re.Open; Re.Rep company_char 1 None; Re.Close ].

(** ** Financial term dictionaries

    A Python [dict] literal iterates in the order it is written, so a term
    dictionary is the list of its items. *)

Definition term_dict := list (string * Z).

Definition RT : term_dict :=
  [ ("revenue from operations", 1); ("Total Revenue", 2); ("Turnover", 3);
    ("Net Sales", 4); ("Gross Revenue", 5); ("Operating Revenue", 6);
    ("Revenues", 7); ("Receipts", 8); ("Income from Operations", 9);
    ("Business Income", 10); ("Gross Sales", 11) ]%Z.

Definition OPT : term_dict :=
  [ ("Operating Profit", 1); ("EBIT", 2);
    ("Earnings Before Interest and Tax", 3); ("Profit Before Tax", 4);
    ("PBIT", 5); ("Operating Income", 6); ("Operating Earnings", 7);
    ("Core Earnings", 8); ("NOP", 9); ("NOPAT", 10);
    ("Operating Margin", 11); ("Pre-Tax Operating Profit", 12) ]%Z.

Definition NPT : term_dict :=
  [ ("Net Profit", 1); ("Net Income", 2); ("Profit After Tax", 3);
    ("PAT", 4); ("Earnings After Tax", 5); ("Final Profit", 6);
    ("Net Earnings", 7); ("Total Comprehensive Income", 8);
    ("Post-Tax Profit", 9) ]%Z.

(** ** [select_highest_priority] *)

(** [term.lower() in row_text.lower()] *)
Definition term_matches (row_text : string) (item : string * Z) : bool :=
  Str.contains (Str.lower item.1) (Str.lower row_text).

(** [min(matches, key=lambda x: x[1])]: the first item of least key. *)
Definition min_step (best item : string * Z) : string * Z :=
  if (item.2 <? best.2)%Z then item else best.

Definition min_by_priority (matches : list (string * Z)) : option (string * Z) :=
  match matches with
  | [] => None
  | x :: rest => Some (fold_left min_step rest x)
  end.

Definition select_highest_priority (d : term_dict) (row_text : option string)
  : option string :=
  match row_text with
  | None => None
  | Some text =>
      let matches := List.filter (term_matches text) d in
      match min_by_priority matches with
      | Some best => Some best.1
      | None => None
      end
  end.

(** ** Values, exceptions *)

(** The [float] builtin applied to a string: [None] stands for the
    [ValueError] it raises; [float_truth] is the truth value of a float
    (false exactly for zero). *)
Class PyFloat (float : Type) := {
  py_float : string → option float;
  float_truth : float → bool
}.

Inductive exn := ValueError | IndexError | TypeError.

Inductive result (A : Type) : Type :=
  | Ok (a : A)
  | Raise (e : exn).
Arguments Ok {A} a.
Arguments Raise {A} e.

Global Instance result_ret : MRet result := λ A a, Ok a.
Global Instance result_bind : MBind result := λ A B f m,
  match m with
  | Ok a => f a
  | Raise e => Raise e
  end.

(** A table cell of pdfplumber is a string or [None]; a row is a list of
    cells and a table a list of rows. *)
Definition cell := option string.
Definition row := list cell.
Definition table := list row.

(** Truth value of a cell: neither [None] nor empty. *)
Definition cell_truth (c : cell) : bool :=
  match c with
  | Some s => Str.nonempty s
  | None => false
  end.

(** [str(cell)] of a cell known to be true. *)
Definition cell_str (c : cell) : string := default "None" c.

(** A page of the opened PDF, by what the libraries return for it:
    [page.extract_text()], [page.extract_tables()] and the text
    [pytesseract.image_to_string] reads from each image rendered from the
    page. *)
Record page := {
  extract_text : option string;
  extract_tables : list table;
  ocr_images : list string
}.

Definition newline : string := String (ascii_of_nat 10) EmptyString.

Section Extraction.
Context `{PyFloat float}.

(** Values held by the result dictionaries: what the table parse stores
    ([None], a float) and what a decoded JSON answer may hold. *)
#[warnings="-register-all"]
Inductive pyval :=
  | VNone
  | VBool (b : bool)
  | VInt (n : Z)
  | VFloat (x : float)
  | VStr (s : string)
  | VList (l : list pyval)
  | VDict (d : list (string * pyval)).

(** [bool(v)] *)
Definition truth (v : pyval) : bool :=
  match v with
  | VNone => false
  | VBool b => b
  | VInt n => negb (n =? 0)%Z
  | VFloat x => float_truth x
  | VStr s => Str.nonempty s
  | VList l => match l with [] => false | _ => true end
  | VDict d => match d with [] => false | _ => true end
  end.

(** [any(d.values())] *)
Definition any_values (d : gmap string pyval) : bool :=
  existsb truth (map_to_list d).*2.

(** The value of [extracted_data]: its two sections. *)
Record fin_data := {
  current_quarter : gmap string pyval;
  annual_data : gmap string pyval
}.

Definition unset_section : gmap string pyval :=
  {[ "Revenue" := VNone; "Operating Profit" := VNone; "Net Profit" := VNone ]}.

Definition unset_data : fin_data :=
  {| current_quarter := unset_section; annual_data := unset_section |}.

(** ** [extract_financial_values] *)

(** What [extract_table_or_text] hands over: a table, the OCR text or
    [None]. *)
Inductive table_or_text :=
  | IsTable (t : table)
  | IsText (s : string)
  | IsNone.

(** The header scan: [for i, cell in enumerate(header)], started at [i]
    with the two indices found so far. *)
Fixpoint scan_header (header : row) (i : nat) (cq ann : option nat)
  : option nat * option nat :=
  match header with
  | [] => (cq, ann)
  | c :: rest =>
      let cq' :=
        if cell_truth c && Str.contains "Particular" (cell_str c)
        then Some (i + 1) else cq in
      let ann' :=
        if cell_truth c && Str.contains "year ended" (Str.lower (cell_str c))
        then Some i else ann in
      scan_header rest (S i) cq' ann'
  end.

(** [float(row[i].replace(",", "")) if i < len(row) and row[i] else None] *)
Definition cell_value (i : nat) (r : row) : result pyval :=
  match r !! i with
  | Some (Some s) =>
      if Str.nonempty s then
        match py_float (Str.remove_commas s) with
        | Some x => Ok (VFloat x)
        | None => Raise ValueError
        end
      else Ok VNone
  | _ => Ok VNone
  end.

(** [if select_highest_priority(d, row[0]):] - the truth value of the
    selected term. *)
Definition matched (d : term_dict) (label : string) : bool :=
  match select_highest_priority d (Some label) with
  | Some term => Str.nonempty term
  | None => false
  end.

(** The two assignments made for a matched dictionary. *)
Definition assign (key : string) (cq ann : nat) (r : row) (fd : fin_data)
  : result fin_data :=
  c ← cell_value cq r;
  a ← cell_value ann r;
  mret {| current_quarter := <[key := c]> (current_quarter fd);
          annual_data := <[key := a]> (annual_data fd) |}.

Definition assign_if (d : term_dict) (key : string) (cq ann : nat)
    (label : string) (r : row) (fd : fin_data) : result fin_data :=
  if matched d label then assign key cq ann r fd else Ok fd.

(** The body of [for row in table]. *)
Definition process_row (cq ann : nat) (fd : fin_data) (r : row)
  : result fin_data :=
  match r with
  | [] => Ok fd
  | None :: _ => Ok fd
  | Some label :: _ =>
      fd1 ← assign_if RT "Revenue" cq ann label r fd;
      fd2 ← assign_if OPT "Operating Profit" cq ann label r fd1;
      assign_if NPT "Net Profit" cq ann label r fd2
  end.

Fixpoint process_rows (cq ann : nat) (fd : fin_data) (t : table)
  : result fin_data :=
  match t with
  | [] => Ok fd
  | r :: rest => fd' ← process_row cq ann fd r; process_rows cq ann fd' rest
  end.

(** A string indexed and iterated as the code would a table: its
    characters, each a one-character string whose only item is itself. *)
Definition text_as_table (s : string) : table :=
  (λ c, [Some (String c EmptyString)]) <$> list_ascii_of_string s.

Definition extract_from_rows (t : table) : result fin_data :=
  match t with
  | [] => Ok unset_data
  | header :: _ =>
      match scan_header header 0 None None with
      | (Some cq, Some ann) => process_rows cq ann unset_data t
      | _ => Ok unset_data
      end
  end.

Definition extract_financial_values (arg : table_or_text) : result fin_data :=
  match arg with
  | IsNone => Ok unset_data
  | IsText s => extract_from_rows (text_as_table s)
  | IsTable t => extract_from_rows t
  end.

(** ** [extract_table_or_text] *)

Definition extract_text_from_image (p : page) : string :=
  Str.strip (fold_left (λ extracted_text text, extracted_text +:+ text +:+ newline)
               (ocr_images p) EmptyString).

(** [any("Particulars" in str(cell) for cell in table[0] if cell)] *)
Definition has_marker (t : table) : result bool :=
  match t with
  | [] => Raise IndexError
  | header :: _ =>
      Ok (existsb (λ c, cell_truth c && Str.contains "Particulars" (cell_str c))
            header)
  end.

(** [for table in tables: if ...: return table] *)
Fixpoint find_marked (tables : list table) : result (option table) :=
  match tables with
  | [] => Ok None
  | t :: rest =>
      b ← has_marker t;
      if b : bool then Ok (Some t) else find_marked rest
  end.

(** The body of [for page in pdf.pages] returns on every path, so only
    the first page is ever looked at. *)
Definition extract_table_or_text (pdf : list page) : result table_or_text :=
  match pdf with
  | [] => Ok IsNone
  | p :: _ =>
      found ← find_marked (extract_tables p);
      match found with
      | Some t => Ok (IsTable t)
      | None =>
          let text := extract_text_from_image p in
          Ok (if Str.nonempty (Str.strip text) then IsText text else IsNone)
      end
  end.

(** ** Unit and company *)

Definition detect_fin_unit (text : string) : string :=
  default "Unknown"
    (List.find (λ unit, Str.contains (Str.lower unit) (Str.lower text))
       ["Crores"; "Lakhs"; "Millions"; "Billions"]).

Definition extract_company_name (text : string) : string :=
  match Re.search true company_pattern text with
  | Some g => Str.strip g
  | None => "Unknown Company"
  end.

(** ** [extract_fin_data] *)

(** The decoded answer of [use_gemini_extraction]: a JSON object, of which
    the program reads three entries.  Each of them, when present, is
    whatever JSON value the model wrote there: the prompt asks for an
    object in the two sections, and nothing checks that it is one. *)
Record ai_data := {
  ai_company_name : option pyval;
  ai_current_quarter : option pyval;
  ai_annual_data : option pyval
}.

(** [{}] *)
Definition ai_empty : ai_data :=
  {| ai_company_name := None; ai_current_quarter := None;
     ai_annual_data := None |}.

(** [ai_data.get(key, {})] *)
Definition get_section (entry : option pyval) : pyval := default (VDict []) entry.

(** [d.update(e)] for a dictionary [e]: the entries of [e] replace those
    of [d]. *)
Definition update (d e : gmap string pyval) : gmap string pyval := e ∪ d.

(** The dictionary that a decoded JSON object is: of two items with one
    key the later counts. *)
Definition entries (items : list (string * pyval)) : gmap string pyval :=
  list_to_map (rev items).

(** The keys of a decoded JSON object as iteration yields them: each
    once, where it first stands. *)
Definition keys_of (items : list (string * pyval)) : list string :=
  fold_left (λ seen k, if bool_decide (k ∈ seen) then seen else seen ++ [k])
    items.*1 [].

(** One element of a sequence handed to [update].  The element is turned
    into a sequence - [TypeError] for [None], a boolean or a number; a
    string gives its characters, a dictionary its keys -, which must
    have two elements - [ValueError] otherwise -, the key and the value;
    a key that is a list or a dictionary is not hashable: [TypeError].
    The sections of this model hold the entries under string keys: an
    entry under [None], a boolean or a number is stored by the program
    and not recorded here ([Ok None]). *)
Definition update_item (element : pyval) : result (option (string * pyval)) :=
  match element with
  | VNone | VBool _ | VInt _ | VFloat _ => Raise TypeError
  | VStr (String a (String b EmptyString)) =>
      Ok (Some (String a EmptyString, VStr (String b EmptyString)))
  | VStr _ => Raise ValueError
  | VList [k; v] =>
      match k with
      | VStr s => Ok (Some (s, v))
      | VList _ | VDict _ => Raise TypeError
      | VNone | VBool _ | VInt _ | VFloat _ => Ok None
      end
  | VList _ => Raise ValueError
  | VDict items =>
      match keys_of items with
      | [k; v] => Ok (Some (k, VStr v))
      | _ => Raise ValueError
      end
  end.

Fixpoint update_items (d : gmap string pyval) (elements : list pyval)
  : result (gmap string pyval) :=
  match elements with
  | [] => Ok d
  | element :: rest =>
      item ← update_item element;
      update_items (match item with
                    | Some (k, v) => <[k := v]> d
                    | None => d
                    end) rest
  end.

(** [d.update(e)] for a decoded JSON value [e]: a dictionary gives its
    entries; a list is read element by element; a string is read
    character by character, so that only the empty one passes; [None], a
    boolean and a number cannot be iterated over. *)
Definition dict_update (d : gmap string pyval) (e : pyval)
  : result (gmap string pyval) :=
  match e with
  | VDict items => Ok (update d (entries items))
  | VList elements => update_items d elements
  | VStr EmptyString => Ok d
  | VStr _ => Raise ValueError
  | VNone | VBool _ | VInt _ | VFloat _ => Raise TypeError
  end.

Inductive output :=
  | ErrorObject (status : Z) (message : string)
  | Financials (company_name : pyval) (fd : fin_data).

Definition no_data_error : output :=
  ErrorObject 404 "No financial data found in the document.".

(** A run of [extract_fin_data]: the texts sent to the model, in order,
    and what the call returned or raised. *)
Record run := {
  llm_calls : list string;
  returned : result output
}.

(** The fallback block: [ai_data = use_gemini_extraction(text) or {}] and
    the three statements after it; the second [update] is not reached
    when the first raises. *)
Definition merge_ai (ai : ai_data) (fd : fin_data) (company_name : pyval)
  : result (fin_data * pyval) :=
  cq ← dict_update (current_quarter fd) (get_section (ai_current_quarter ai));
  ad ← dict_update (annual_data fd) (get_section (ai_annual_data ai));
  Ok ({| current_quarter := cq; annual_data := ad |},
      default company_name (ai_company_name ai)).

(** The last four assignments. *)
Definition finish (extracted_text fin_unit : string) (fd : fin_data)
    (company_name : pyval) : output :=
  let year := default "Unknown Year" (Re.search false year_pattern extracted_text) in
  Financials company_name
    {| current_quarter := <["Unit" := VStr fin_unit]> (current_quarter fd);
       annual_data :=
         <["Unit" := VStr fin_unit]>
           (<["Year" := VStr year]> (annual_data fd)) |}.

Definition document_text (pdf : list page) : string :=
  fold_left (λ extracted_text p, extracted_text +:+ default "" (extract_text p))
    pdf EmptyString.

Definition extract_fin_data (use_gemini_extraction : string → option ai_data)
    (pdf : list page) : run :=
  let extracted_text := document_text pdf in
  if negb (Str.nonempty (Str.strip extracted_text)) then
    {| llm_calls := []; returned := Ok no_data_error |}
  else
    let _ := extract_dates_from_text extracted_text in
    let fin_unit := detect_fin_unit extracted_text in
    match extract_table_or_text pdf ≫= extract_financial_values with
    | Raise e => {| llm_calls := []; returned := Raise e |}
    | Ok fin_data =>
        let company_name := VStr (extract_company_name extracted_text) in
        let fallback := negb (any_values (current_quarter fin_data)) in
        {| llm_calls := if fallback then [extracted_text] else [];
           returned :=
             '(fin_data, company_name) ←
               (if fallback then
                  merge_ai (default ai_empty (use_gemini_extraction extracted_text))
                    fin_data company_name
                else Ok (fin_data, company_name));
             if negb (any_values (current_quarter fin_data)) &&
                negb (any_values (annual_data fin_data))
             then Ok no_data_error
             else Ok (finish extracted_text fin_unit fin_data company_name) |}
    end.

End Extraction.

Arguments pyval float : clear implicits.
Arguments fin_data float : clear implicits.
Arguments ai_data float : clear implicits.
Arguments output float : clear implicits.
Arguments run float : clear implicits.

(** ** Vocabulary of the properties *)

(** The dates that [extract_dates_from_text] gets out of a text: every
    match of the date pattern that one of the formats parses, in the
    order of the text, repetitions included. *)
Definition parsed_dates (text : string) : list datetime :=
  omap (parse_date date_formats) (Re.findall false date_pattern text).

(** [a] is not earlier than [b]. *)
Definition not_earlier (a b : datetime) : Prop := date_leb b a = true.

(** [term] occurs in [text] when case is ignored. *)
Definition ci_contained (term text : string) : Prop :=
  ∃ a b, Str.lower text = a +:+ Str.lower term +:+ b.

(** The three canonical line items, with the dictionary that recognises
    each and the key it is stored under. *)
Inductive metric := Revenue | OperatingProfit | NetProfit.

Definition dict_of (m : metric) : term_dict :=
  match m with Revenue => RT | OperatingProfit => OPT | NetProfit => NPT end.

Definition key_of (m : metric) : string :=
  match m with
  | Revenue => "Revenue"
  | OperatingProfit => "Operating Profit"
  | NetProfit => "Net Profit"
  end.

(** Header cells that carry the two column markers. *)
Definition particular_cell (c : cell) : bool :=
  cell_truth c && Str.contains "Particular" (cell_str c).

Definition year_cell (c : cell) : bool :=
  cell_truth c && Str.contains "year ended" (Str.lower (cell_str c)).

(** [i] is the index of the last cell of [header] that satisfies [P]. *)
Definition last_at (P : cell → bool) (header : row) (i : nat) : Prop :=
  (∃ c, header !! i = Some c ∧ P c = true) ∧
  ∀ k c, i < k → header !! k = Some c → P c = false.

(** The text of the targeted cell of a row, when the cell is there and
    not empty. *)
Definition targeted (i : nat) (r : row) : option string :=
  match r !! i with
  | Some (Some s) => if Str.nonempty s then Some s else None
  | _ => None
  end.

(** Some dictionary matches the label of the row. *)
Definition row_matched (r : row) : bool :=
  match r with
  | Some label :: _ => matched RT label || matched OPT label || matched NPT label
  | _ => false
  end.

(** The index of the last cell that satisfies [P], if any. *)
Fixpoint last_true (P : cell → bool) (header : row) : option nat :=
  match header with
  | [] => None
  | c :: rest =>
      match last_true P rest with
      | Some k => Some (S k)
      | None => if P c then Some 0 else None
      end
  end.

(** A table with both column markers whose one data row, a net-profit
    row, carries [s] in the current-period column. *)
Definition placeholder_table (s : string) : table :=
  [ [Some "Particulars"; Some "Quarter ended"; Some "Year ended"];
    [Some "Net Profit"; Some s; Some "1"] ].

Section Vocabulary.
Context `{PyFloat float}.

(** The targeted cell, if there, reads as a float once its commas are
    removed. *)
Definition cell_parses (i : nat) (r : row) : Prop :=
  ∀ s, targeted i r = Some s → is_Some (py_float (Str.remove_commas s)).

(** [v] is what the targeted cell of [r] gives: the float read from it,
    or unset when the cell is absent, out of range or empty. *)
Definition field_from (r : row) (i : nat) (v : option (pyval float)) : Prop :=
  match targeted i r with
  | Some s => ∃ x, py_float (Str.remove_commas s) = Some x ∧ v = Some (VFloat x)
  | None => v = Some VNone
  end.

Definition row_parses (cq ann : nat) (r : row) : Prop :=
  row_matched r = true → cell_parses cq r ∧ cell_parses ann r.

(** The two stores of a matched dictionary. *)
Definition store (key : string) (vc va : pyval float)
    (fd : fin_data float) : fin_data float :=
  {| current_quarter := <[key := vc]> (current_quarter fd);
     annual_data := <[key := va]> (annual_data fd) |}.

Definition store_if (b : bool) (key : string) (vc va : pyval float)
    (fd : fin_data float) : fin_data float :=
  if b then store key vc va fd else fd.

(** What the local parse of a document yields. *)
Definition local_parse (pdf : list page) : result (fin_data float) :=
  extract_table_or_text pdf ≫= extract_financial_values.

(** Reading one field of an outcome. *)
Definition ok {A} (r : result A) : option A :=
  match r with Ok a => Some a | Raise _ => None end.

Definition financials (r : run float) : option (fin_data float) :=
  match returned r with
  | Ok (Financials _ fd) => Some fd
  | _ => None
  end.

Definition is_error (r : run float) : bool :=
  match returned r with
  | Ok (ErrorObject _ _) => true
  | _ => false
  end.

Definition current_at (k : string) (o : option (fin_data float))
  : option (pyval float) :=
  fd ← o; current_quarter fd !! k.

Definition annual_at (k : string) (o : option (fin_data float))
  : option (pyval float) :=
  fd ← o; annual_data fd !! k.

(** What stands under [k] once an object of the answer is merged into
    the section [local]: the value of the answer when the object has the
    key, the local value otherwise. *)
Definition merged_entry (items : list (string * pyval float))
    (local : gmap string (pyval float)) (k : string) : option (pyval float) :=
  match entries items !! k with
  | Some v => Some v
  | None => local !! k
  end.

(** The end of [extract_fin_data], once the sections are settled: the
    test for the 404 object, or the last four assignments. *)
Definition conclude (text : string) (merged : fin_data float * pyval float)
  : result (output float) :=
  if negb (any_values (current_quarter merged.1)) &&
     negb (any_values (annual_data merged.1))
  then Ok no_data_error
  else Ok (finish text (detect_fin_unit text) merged.1 merged.2).

(** JSON [null], a boolean or a number: nothing to iterate over. *)
Definition not_iterable (v : pyval float) : bool :=
  match v with
  | VNone | VBool _ | VInt _ | VFloat _ => true
  | _ => false
  end.

(** A value of the answer on which [update] raises [e]: [TypeError] on
    [null], a boolean or a number, [ValueError] on a string that is not
    empty. *)
Definition refused_by_update (v : pyval float) (e : exn) : Prop :=
  (not_iterable v = true ∧ e = TypeError) ∨
  (∃ s, v = VStr s ∧ Str.nonempty s = true ∧ e = ValueError).

End Vocabulary.

(** ** A [float] for the closed examples

    Plain decimal literals: an optional sign, digits, an optional point
    and more digits, white space around them.  The value of a literal is
    [mantissa / 10 ^ scale]; it is false exactly when it is zero.  On such
    literals, and on the non-numeric placeholders used below, this agrees
    with the builtin; the exponent, [inf], [nan] and digit-grouping
    spellings the builtin also reads are not needed and are rejected. *)

Module Decimal.

Record t := { mantissa : Z; scale : nat }.

Fixpoint span_digits (s : string) : string * string :=
  match s with
  | String c r =>
      if Str.is_digit c then
        let '(ds, rest) := span_digits r in (String c ds, rest)
      else (EmptyString, s)
  | EmptyString => (EmptyString, EmptyString)
  end.

Definition value_of (ds : string) : Z :=
  fold_left (λ n c, 10 * n + (Z.of_nat (nat_of_ascii c) - 48))%Z
    (list_ascii_of_string ds) 0%Z.

Definition parse (s : string) : option t :=
  let s := Str.strip s in
  let '(neg, s) :=
    match s with
    | String "-" r => (true, r)
    | String "+" r => (false, r)
    | _ => (false, s)
    end in
  let '(ip, r1) := span_digits s in
  let '(fp, r2) :=
    match r1 with
    | String "." r => span_digits r
    | _ => (EmptyString, r1)
    end in
  if negb (Str.nonempty r2) && (Str.nonempty ip || Str.nonempty fp) then
    Some {| mantissa := (if neg then - value_of (ip +:+ fp)
                         else value_of (ip +:+ fp))%Z;
            scale := String.length fp |}
  else None.

Definition of_Z (n : Z) : t := {| mantissa := n; scale := 0 |}.

End Decimal.

Definition decimal_float : PyFloat Decimal.t :=
  {| py_float := Decimal.parse;
     float_truth := λ x, negb (Decimal.mantissa x =? 0)%Z |}.

(** ** Sample documents *)

Section Samples.
#[local] Existing Instance decimal_float.

Definition page_of (text : string) (tables : list table) : page :=
  {| extract_text := Some text; extract_tables := tables; ocr_images := [] |}.

Definition text_page (text : string) : page :=
  {| extract_text := Some text; extract_tables := []; ocr_images := [text] |}.

Definition marker_header : row :=
  [ Some "Particulars"; Some "Quarter ended 31 Mar 2024";
    Some "Year ended 31 Mar 2024" ].

(** A statement whose revenue row has an empty current-period cell and
    500 in the annual column. *)
Definition annual_only_pdf : list page :=
  [ page_of "Statement of Acme Ltd"
      [ [ marker_header;
          [Some "Revenue from operations"; Some ""; Some "500"] ] ] ].

Definition annual_answer (text : string) : option (ai_data Decimal.t) :=
  Some {| ai_company_name := None;
          ai_current_quarter := None;
          ai_annual_data :=
            Some (VDict [ ("Revenue", VInt 999);
                          ("Operating Profit", VInt 50) ]) |}.

(** A statement that reports a revenue of zero. *)
Definition zero_revenue_pdf : list page :=
  [ page_of "Statement of Acme Ltd"
      [ [ marker_header;
          [Some "Revenue from operations"; Some "0.00"; Some "0.00"] ] ] ].

Definition no_answer (text : string) : option (ai_data Decimal.t) := None.

(** A cover page without tables, then the page with the statement. *)
Definition statement_table : table :=
  [ marker_header;
    [Some "Revenue from operations"; Some "1,234.50"; Some "5,678.90"] ].

Definition cover_then_statement_pdf : list page :=
  [ text_page "Annual report";
    page_of "Statement of Acme Ltd" [statement_table] ].

(** A document without financial figures, and an answer of the model
    that follows the prompt: every figure null, the unit and the year
    filled in. *)
Definition notice_pdf : list page := [ text_page "Notice of meeting" ].

Definition null_answer (text : string) : option (ai_data Decimal.t) :=
  Some {| ai_company_name := Some (VStr "Acme Ltd");
          ai_current_quarter :=
            Some (VDict [ ("Revenue", VNone); ("Operating Profit", VNone);
                          ("Net Profit", VNone); ("Unit", VStr "Crores") ]);
          ai_annual_data :=
            Some (VDict [ ("Year", VStr "2024"); ("Revenue", VNone);
                          ("Operating Profit", VNone); ("Net Profit", VNone);
                          ("Unit", VStr "Crores") ]) |}.

(** An answer whose current quarter is [null]. *)
Definition null_section_answer (text : string) : option (ai_data Decimal.t) :=
  Some {| ai_company_name := Some (VStr "Acme Ltd");
          ai_current_quarter := Some VNone;
          ai_annual_data :=
            Some (VDict [ ("Revenue", VInt 999) ]) |}.

(** The header of the worked example of the specification. *)
Definition wide_header : row :=
  [ Some "Sr. No."; None; Some "Particulars"; Some "Quarter ended";
    Some "Nine months ended"; Some "Year Ended 31 Mar 2024" ].

(** A header with two annual columns, this year's and last year's. *)
Definition two_year_header : row :=
  [ Some "Particulars"; Some "Quarter ended 31 Mar 2024";
    Some "Year ended 31 Mar 2024"; Some "Year ended 31 Mar 2023" ].

Definition revenue_row : row :=
  [Some "Revenue from operations"; Some "100"; Some "200"].

(** A revenue row that stops after its label. *)
Definition short_revenue_row : row := [Some "Total Revenue"].

(** A row that the revenue and the net-profit dictionaries both match. *)
Definition mixed_row : row :=
  [Some "Net Income from Operations"; Some "1,234.50"; Some "5,678.90"].

(** A row that the operating-profit dictionary alone matches. *)
Definition ebit_row : row := [Some "EBIT"; Some "10"; Some "20"].

End Samples.

(** ** [generate_chatbot_response] and [main]

    The formatting of a value inside an f-string and the drawing of the
    left column are parameters: the first is the [format] builtin, and of
    the second only whether it raises matters to what follows it; both
    are functions of the record.  The remote model is a parameter of each
    run of the script, which may answer differently from one run to the
    next.  A stored path is modelled by the PDF that the temporary file
    holds. *)

(** [s[:n]] *)
Fixpoint take_chars (n : nat) (s : string) : string :=
  match n, s with
  | S n', String c r => String c (take_chars n' r)
  | _, _ => EmptyString
  end.

(** A triple-quoted block of the source: each line, with its indentation,
    after a line break, and the indentation of the closing quotes. *)
Definition block (lines : list string) : string :=
  fold_right (λ line rest, newline +:+ line +:+ rest) (newline +:+ "    ") lines.

Record message := { role : string; content : string }.

(** How a run of the script ends: it reaches its end or returns, it asks
    for a rerun, or an exception stops it. *)
Inductive ending := Done | Rerun | Crashed.

Section Session.
Context `{PyFloat float}.
Variable py_str : pyval float → string.
Variable left_column_renders : pyval float → fin_data float → bool.

(** The remote model during one run: the text of the response of
    [model.generate_content] to the prompt of the chat, [None] when the
    call raises, and what [use_gemini_extraction] returns. *)
Record services := {
  generate_content : string → option string;
  use_gemini_extraction : string → option (ai_data float)
}.

(** [{d.get(key)}] inside an f-string. *)
Definition shown (d : gmap string (pyval float)) (key : string) : string :=
  py_str (default VNone (d !! key)).

Definition chat_context (company_name : pyval float) (fd : fin_data float)
    (full_text : string) : string :=
  let cq := current_quarter fd in
  let ad := annual_data fd in
  block
    [ "    Financial data for " +:+ py_str company_name +:+ ":";
      "    ";
      "    Current Quarter Data:";
      "    - Revenue: " +:+ shown cq "Revenue" +:+ " " +:+ shown cq "Unit";
      "    - Operating Profit: " +:+ shown cq "Operating Profit" +:+ " " +:+
        shown cq "Unit";
      "    - Net Profit: " +:+ shown cq "Net Profit" +:+ " " +:+ shown cq "Unit";
      "    ";
      "    Annual Data:";
      "    - Year: " +:+ shown ad "Year";
      "    - Revenue: " +:+ shown ad "Revenue" +:+ " " +:+ shown ad "Unit";
      "    - Operating Profit: " +:+ shown ad "Operating Profit" +:+ " " +:+
        shown ad "Unit";
      "    - Net Profit: " +:+ shown ad "Net Profit" +:+ " " +:+ shown ad "Unit";
      "    ";
      "    Relevant text from financial statement (truncated):";
      "    " +:+ take_chars 2000 full_text ].

Definition chat_prompt (user_query : string) (company_name : pyval float)
    (fd : fin_data float) (full_text : string) : string :=
  block
    [ "    You are a financial assistant. Based on the following financial data and the user's question, provide a concise, informative answer.";
      "    ";
      "    " +:+ chat_context company_name fd full_text;
      "    ";
      "    User Question: " +:+ user_query;
      "    ";
      "    If the answer is not available in the data, indicate so and suggest what information is needed." ].

(** [generate_chatbot_response], on a record (the only data [main] calls
    it with); [None] when the call of the model raises. *)
Definition generate_chatbot_response (now : services) (user_query : string)
    (company_name : pyval float) (fd : fin_data float) (full_text : string)
  : option string :=
  generate_content now (chat_prompt user_query company_name fd full_text).

(** [st.session_state], with the defaults that [main] gives to the keys
    it finds absent; [page_name] is its key "page". *)
Record session := {
  uploaded_file_path : option (list page);
  chat_history : list message;
  full_financial_text : string;
  financial_data : option (output float);
  page_name : string;
  last_handled_query : string
}.

Definition fresh : session :=
  {| uploaded_file_path := None; chat_history := [];
     full_financial_text := EmptyString; financial_data := None;
     page_name := "upload"; last_handled_query := EmptyString |}.

(** The upload page once a file is there: the copy is stored, the page
    becomes "results". *)
Definition accept_upload (pdf : list page) (st : session) : session :=
  {| uploaded_file_path := Some pdf; chat_history := chat_history st;
     full_financial_text := full_financial_text st;
     financial_data := financial_data st;
     page_name := "results"; last_handled_query := last_handled_query st |}.

(** The assignment that [extract_fin_data] makes to the session. *)
Definition keep_text (text : string) (st : session) : session :=
  {| uploaded_file_path := uploaded_file_path st; chat_history := chat_history st;
     full_financial_text := text; financial_data := financial_data st;
     page_name := page_name st; last_handled_query := last_handled_query st |}.

Definition keep_data (data : output float) (st : session) : session :=
  {| uploaded_file_path := uploaded_file_path st; chat_history := chat_history st;
     full_financial_text := full_financial_text st; financial_data := Some data;
     page_name := page_name st; last_handled_query := last_handled_query st |}.

Definition append_message (m : message) (st : session) : session :=
  {| uploaded_file_path := uploaded_file_path st;
     chat_history := chat_history st ++ [m];
     full_financial_text := full_financial_text st;
     financial_data := financial_data st;
     page_name := page_name st; last_handled_query := last_handled_query st |}.

Definition handled (user_query : string) (st : session) : session :=
  {| uploaded_file_path := uploaded_file_path st; chat_history := chat_history st;
     full_financial_text := full_financial_text st;
     financial_data := financial_data st;
     page_name := page_name st; last_handled_query := user_query |}.

(** The right column, after the history is drawn: for a new query, the
    question is appended, then the model is called, then the response is
    appended and the query marked as handled. *)
Definition chat_column (now : services) (user_query : string)
    (company_name : pyval float) (fd : fin_data float) (st : session)
  : session * ending :=
  if Str.nonempty user_query &&
     negb (String.eqb user_query (last_handled_query st))
  then
    let st := append_message {| role := "user"; content := user_query |} st in
    match generate_chatbot_response now user_query company_name fd
            (full_financial_text st) with
    | Some response =>
        let st :=
          append_message {| role := "assistant"; content := response |} st in
        (handled user_query st, Rerun)
    | None => (st, Crashed)
    end
  else (st, Done).

(** The results page for a stored path. *)
Definition results_page (now : services) (user_query : string)
    (pdf : list page) (st : session) : session * ending :=
  let '(st, extracted_data) :=
    match financial_data st with
    | Some data => (st, Ok data)
    | None =>
        let st := keep_text (document_text pdf) st in
        match returned (extract_fin_data (use_gemini_extraction now) pdf) with
        | Ok data => (keep_data data st, Ok data)
        | Raise e => (st, Raise e)
        end
    end in
  match extracted_data with
  | Raise _ => (st, Crashed)
  | Ok (ErrorObject _ _) => (st, Done)
  | Ok (Financials company_name fd) =>
      if left_column_renders company_name fd
      then chat_column now user_query company_name fd st
      else (st, Crashed)
  end.

(** One run of [main]: [uploaded_file] is what the file uploader holds
    and [user_query] what the text input holds. *)
Definition main (now : services) (uploaded_file : option (list page))
    (user_query : string) (st : session) : session * ending :=
  if String.eqb (page_name st) "upload" then
    match uploaded_file with
    | Some pdf => (accept_upload pdf st, Rerun)
    | None => (st, Done)
    end
  else if String.eqb (page_name st) "results" then
    match uploaded_file_path st with
    | None => (st, Done)
    | Some pdf => results_page now user_query pdf st
    end
  else (st, Done).

(** What one run is given: the model as it answers during the run, and
    what the two widgets hold. *)
Definition input : Type := services * option (list page) * string.

(** The session after a series of runs. *)
Definition runs (inputs : list input) (st : session) : session :=
  fold_left (λ st i, (main i.1.1 i.1.2 i.2 st).1) inputs st.

(** One round of the chat: a question, and the response unless the call
    of the model raised. *)
Definition round : Type := string * option string.

Definition messages_of (r : round) : list message :=
  {| role := "user"; content := r.1 |} ::
  match r.2 with
  | Some response => [ {| role := "assistant"; content := response |} ]
  | None => []
  end.

Definition answered (r : round) : bool :=
  match r.2 with Some _ => true | None => false end.

(** The question of the last round that has a response. *)
Definition last_answered (rounds : list round) : string :=
  match List.find answered (rev rounds) with
  | Some r => r.1
  | None => EmptyString
  end.

(** No question is the one answered last before it. *)
Definition new_questions (rounds : list round) : Prop :=
  ∀ before r after,
    rounds = before ++ r :: after → r.1 ≠ last_answered before.

(** The response that the model of a run gives to a question on the
    stored record and text. *)
Definition answer_of (st : session) (user_query : string) (now : services)
  : option string :=
  match financial_data st with
  | Some (Financials company_name fd) =>
      generate_chatbot_response now user_query company_name fd
        (full_financial_text st)
  | _ => None
  end.

Definition models_of (inputs : list input) : list services :=
  map (λ i, i.1.1) inputs.

(** What holds of the chat after runs with the models [models]. *)
Definition chat_invariant (models : list services) (st : session) : Prop :=
  ∃ rounds : list round,
    chat_history st = flat_map messages_of rounds ∧
    Forall (λ r, Str.nonempty r.1 = true) rounds ∧
    last_handled_query st = last_answered rounds ∧
    new_questions rounds ∧
    Forall (λ r, ∀ response, r.2 = Some response →
                 Exists (λ now, answer_of st r.1 now = Some response) models)
      rounds ∧
    (rounds ≠ [] →
     ∃ company_name fd, financial_data st = Some (Financials company_name fd)).

End Session.

Arguments services float : clear implicits.
Arguments session float : clear implicits.
Arguments input float : clear implicits.

(** ** [use_gemini_extraction]

    The call of the remote model and [json.loads] are parameters: the
    first gives the text of the response, or nothing when the call
    raises; the second gives the parsed answer, read as the three entries
    that [extract_fin_data] looks up, or nothing on [JSONDecodeError]. *)

Module Gemini.

Definition quoted (s : string) : string :=
  let quote := String (ascii_of_nat 34) EmptyString in quote +:+ s +:+ quote.

(** [.] under [re.DOTALL] *)
Definition any_char (c : ascii) : bool := true.

(** [r"\{.*\}"], the whole match taken as the group. *)
Definition json_pattern : list Re.item :=
  [ Re.Open; Re.Alt ["{"]; Re.Rep any_char 0 None; Re.Alt ["}"]; Re.Close ].

Section Call.
Context {float : Type}.
Variable generate_content : string → option string.
Variable json_loads : string → option (ai_data float).

Definition prompt (text : string) : string :=
  block
    [ "    Identify the latest quarters' financial data and annual data, and extract values for:";
      "    1. Revenue";
      "    2. Operating Profit";
      "    3. Net Profit";
      "    4. Financial Unit (Crores, Lakhs, Millions, Billions)";
      "    5. Company Name";
      "    Search for heading " +:+ quoted "Statement of" +:+
        " and find the latest quarter and annual financial data (column marked with 'year ended').";
      "    Financial unit will be mentioned above the table.";
      "    Provide output in JSON:";
      "    {";
      "      " +:+ quoted "Company Name" +:+ ": " +:+
        quoted "Detected company name" +:+ ",";
      "      " +:+ quoted "Current Quarter" +:+ ": {";
      "        " +:+ quoted "Revenue" +:+ ": X,";
      "        " +:+ quoted "Operating Profit" +:+ ": Y,";
      "        " +:+ quoted "Net Profit" +:+ ": Z,";
      "        " +:+ quoted "Unit" +:+ ": " +:+ quoted "Detected financial unit";
      "      },";
      "      " +:+ quoted "Annual Data" +:+ ": {";
      "        " +:+ quoted "Year" +:+ ": " +:+ quoted "YYYY" +:+ ",";
      "        " +:+ quoted "Revenue" +:+ ": D,";
      "        " +:+ quoted "Operating Profit" +:+ ": E,";
      "        " +:+ quoted "Net Profit" +:+ ": F,";
      "        " +:+ quoted "Unit" +:+ ": " +:+ quoted "Detected financial unit";
      "      }";
      "    }";
      "    Text to analyze:";
      "    " +:+ text ].

(** The outer [None]: the call of the model raised. *)
Definition use_gemini_extraction (text : string)
  : option (option (ai_data float)) :=
  response ← generate_content (prompt text);
  Some match Re.search false json_pattern response with
       | Some json => json_loads json
       | None => None
       end.

End Call.

End Gemini.

(** ** Vocabulary of the further properties *)

(** Every character of [s] is white space. *)
Fixpoint all_space (s : string) : bool :=
  match s with
  | EmptyString => true
  | String c r => Str.is_space c && all_space r
  end.

(** The last character of [String c s]. *)
Fixpoint last_or (c : ascii) (s : string) : ascii :=
  match s with
  | EmptyString => c
  | String d r => last_or d r
  end.

(** [s] starts or ends with white space. *)
Definition padded (s : string) : bool :=
  match s with
  | EmptyString => false
  | String c r => Str.is_space c || Str.is_space (last_or c r)
  end.

(** Every character of [s] satisfies [P]. *)
Fixpoint all_chars (P : ascii → bool) (s : string) : bool :=
  match s with
  | EmptyString => true
  | String c r => P c && all_chars P r
  end.

(** A text of ASCII characters.  On such a text the character classes
    and the case folding of this development are those of Python; on
    other characters [(?i)] equates more letters (the long s with "s",
    the dotless and the dotted "i" with "i", the Kelvin sign with "k")
    and [\s] takes more characters for white space. *)
Definition is_ascii (c : ascii) : bool := (nat_of_ascii c <? 128)%nat.

Definition ascii_text (s : string) : Prop := all_chars is_ascii s = true.

(** The dictionary of metric [m] matches the label of the row. *)
Definition row_matches_metric (m : metric) (r : row) : bool :=
  match r with
  | Some label :: _ => matched (dict_of m) label
  | _ => false
  end.

(** The last row of the table that the dictionary of [m] matches. *)
Definition last_matching (m : metric) (t : table) : option row :=
  List.find (row_matches_metric m) (rev t).

(** A header cell that carries the marker of the table locator. *)
Definition marker_cell (c : cell) : bool :=
  cell_truth c && Str.contains "Particulars" (cell_str c).

(** The table has a header row, of which no cell carries the marker. *)
Definition unmarked (t : table) : Prop :=
  ∃ header rows, t = header :: rows ∧ Forall (λ c, marker_cell c = false) header.

(** The table has a header row with a cell that carries the marker. *)
Definition marked (t : table) : Prop :=
  ∃ header rows, t = header :: rows ∧ Exists (λ c, marker_cell c = true) header.

(** A valid calendar date. *)
Definition valid_date (d : datetime) : Prop :=
  (1 ≤ year d ∧ 1 ≤ month d ≤ 12 ∧
   1 ≤ day d ≤ Strptime.days_in_month (year d) (month d))%nat.

(** The three phrases after which a company name is looked for. *)
Definition company_phrases : list string :=
  ["Company Name"; "Statement of"; "Financial Report of"].

(** No term of the dictionary is empty. *)
Definition proper_terms (d : term_dict) : Prop :=
  Forall (λ item : string * Z, Str.nonempty item.1 = true) d.

Section FurtherVocabulary.
Context `{PyFloat float}.

(** What the table parse stores in a field: unset, or a float. *)
Definition unset_or_float (v : pyval float) : Prop :=
  v = VNone ∨ ∃ x, v = VFloat x.

(** A section holds the three metric keys, each unset or a float, and no
    other key. *)
Definition parsed_section (d : gmap string (pyval float)) : Prop :=
  (∀ m, ∃ v, d !! key_of m = Some v ∧ unset_or_float v) ∧
  (∀ k, is_Some (d !! k) → ∃ m, k = key_of m).

Definition shaped (fd : fin_data float) : Prop :=
  parsed_section (current_quarter fd) ∧ parsed_section (annual_data fd).

(** What the targeted cells of the last row matched by [m] give, or
    unset when no row is matched: the two fields of [m] in [fd]. *)
Definition decided_by_last (cq ann : nat) (t : table) (m : metric)
    (fd : fin_data float) : Prop :=
  match last_matching m t with
  | Some r =>
      field_from r cq (current_quarter fd !! key_of m) ∧
      field_from r ann (annual_data fd !! key_of m)
  | None =>
      current_quarter fd !! key_of m = Some VNone ∧
      annual_data fd !! key_of m = Some VNone
  end.

(** The text of every page is absent or white space. *)
Definition no_text_layer (pdf : list page) : Prop :=
  Forall (λ p, all_space (default "" (extract_text p)) = true) pdf.

End FurtherVocabulary.

(** ** Further sample documents and sessions *)

Section FurtherSamples.
#[local] Existing Instance decimal_float.

(** A statement with two revenue rows and a row that no dictionary
    matches. *)
Definition two_revenue_rows_table : table :=
  [ marker_header; revenue_row;
    [Some "Total Revenue"; Some "300"; Some "400"];
    [Some "Earnings per share"; Some "n/a"; Some "n/a"] ].

Definition notes_table : table :=
  [ [Some "Note"; Some "Amount"]; [Some "Revenue"; Some "12"] ].

(** One page, a table of notes before the statement. *)
Definition notes_then_statement_pdf : list page :=
  [ page_of "Statement of Acme Ltd" [notes_table; statement_table] ].

(** One page whose only table has no rows. *)
Definition empty_table_pdf : list page :=
  [ page_of "Statement of Acme Ltd" [ [] ] ].

Definition statement_pdf : list page :=
  [ page_of "Statement of Acme Ltd" [statement_table] ].

(** A scan: no text layer, the table and the image are there. *)
Definition scanned_pdf : list page :=
  [ {| extract_text := None; extract_tables := [statement_table];
       ocr_images := ["Revenue from operations 1,234.50"] |} ].

Definition dated_text : string :=
  "Quarter ended 31/03/2024 and year ended 31/03/2024, against 31/12/2023".

Definition long_text : string :=
  String.concat " " (repeat "Revenue from operations 1,234.50" 100).

(** A rendering of values for the sample sessions; it is [str] on
    [None], booleans, integers and strings. *)
Definition plain_str (v : pyval Decimal.t) : string :=
  match v with
  | VNone => "None"
  | VBool true => "True"
  | VBool false => "False"
  | VInt n => NilEmpty.string_of_int (Z.to_int n)
  | VStr s => s
  | _ => "..."
  end.

Definition always_renders (company_name : pyval Decimal.t)
    (fd : fin_data Decimal.t) : bool := true.

(** A model that answers with the prompt it is given, and one whose
    calls raise. *)
Definition echo : services Decimal.t :=
  {| generate_content := λ prompt, Some prompt;
     use_gemini_extraction := no_answer |}.

Definition unreachable : services Decimal.t :=
  {| generate_content := λ prompt, None;
     use_gemini_extraction := no_answer |}.

Definition acme_record : fin_data Decimal.t :=
  {| current_quarter :=
       <["Unit" := VStr "Crores"]>
         (<["Revenue" := VFloat (Decimal.of_Z 100)]> unset_section);
     annual_data :=
       <["Unit" := VStr "Crores"]>
         (<["Year" := VStr "2024"]>
            (<["Revenue" := VFloat (Decimal.of_Z 200)]> unset_section)) |}.

(** The session on the results page once [data] is stored. *)
Definition stored_session (data : output Decimal.t) : session Decimal.t :=
  {| uploaded_file_path := Some statement_pdf; chat_history := [];
     full_financial_text := "Statement of Acme Ltd";
     financial_data := Some data;
     page_name := "results"; last_handled_query := EmptyString |}.

(** A response with words around the object and a brace after it. *)
Definition chatty_response (prompt : string) : option string :=
  Some "Here you are: {x} and {y}. Done".

Definition no_json (json : string) : option (ai_data Decimal.t) := None.

End FurtherSamples.

(** * Properties *)

(** ** Strings *)

Module StrFacts.
Import Str.

Lemma app_cons c p r : String c p +:+ r = String c (p +:+ r).
Proof. reflexivity. Qed.

Lemma app_nil r : EmptyString +:+ r = r.
Proof. reflexivity. Qed.

Lemma prefix_app p s : String.prefix p s = true ↔ ∃ r, s = p +:+ r.
Proof.
  revert s; induction p as [|c p IH]; intros s.
  - destruct s; split; eauto.
  - destruct s as [|d s]; cbn [String.prefix].
    + split; [discriminate | intros [r Hr]; discriminate].
    + destruct (ascii_dec c d) as [->|Hne].
      * rewrite IH. split; intros [r Hr]; exists r;
          rewrite app_cons in *; congruence.
      * split; [discriminate |].
        intros [r Hr]. rewrite app_cons in Hr. congruence.
Qed.

(** [contains] is substring containment. *)
Lemma contains_spec needle hay :
  contains needle hay = true ↔ ∃ a b, hay = a +:+ needle +:+ b.
Proof.
  induction hay as [|c hay IH]; cbn [contains].
  - rewrite orb_false_r, prefix_app. split.
    + intros [r Hr]. exists EmptyString, r. exact Hr.
    + intros [a [b Hab]]. destruct a; [eauto | discriminate].
  - rewrite orb_true_iff, prefix_app, IH. split.
    + intros [[r Hr] | [a [b Hab]]].
      * exists EmptyString, r. exact Hr.
      * exists (String c a), b. rewrite app_cons. congruence.
    + intros [a [b Hab]]. destruct a as [|d a].
      * left. eauto.
      * right. exists a, b. rewrite app_cons in Hab. congruence.
Qed.


End StrFacts.

(** ** Term matching *)

Lemma term_matches_spec text item :
  term_matches text item = true ↔ ci_contained item.1 text.
Proof. apply StrFacts.contains_spec. Qed.

Lemma term_matches_false text item :
  term_matches text item = false ↔ ¬ ci_contained item.1 text.
Proof.
  rewrite <- term_matches_spec. destruct (term_matches text item); split;
    congruence.
Qed.

(** The running minimum keeps the first item of least priority. *)
Lemma fold_min_step rest : ∀ l1 b l2,
  Forall (λ it, b.2 < it.2)%Z l1 →
  Forall (λ it, b.2 ≤ it.2)%Z l2 →
  ∃ k1 k2, l1 ++ b :: l2 ++ rest = k1 ++ fold_left min_step rest b :: k2 ∧
    Forall (λ it, (fold_left min_step rest b).2 < it.2)%Z k1 ∧
    Forall (λ it, (fold_left min_step rest b).2 ≤ it.2)%Z k2.
Proof.
  induction rest as [|y rest IH]; intros l1 b l2 H1 H2; simpl.
  - exists l1, l2. rewrite app_nil_r. auto.
  - unfold min_step at 2 4 6. destruct (Z.ltb_spec y.2 b.2) as [Hlt | Hge].
    + destruct (IH (l1 ++ b :: l2) y []) as (k1 & k2 & E & F1 & F2).
      * rewrite Forall_app, Forall_cons. repeat split.
        -- eapply Forall_impl; [exact H1 | simpl; intros; lia].
        -- lia.
        -- eapply Forall_impl; [exact H2 | simpl; intros; lia].
      * constructor.
      * exists k1, k2. split; [| auto].
        rewrite <- E. simpl. rewrite <- app_assoc. reflexivity.
    + destruct (IH l1 b (l2 ++ [y])) as (k1 & k2 & E & F1 & F2).
      * exact H1.
      * rewrite Forall_app, Forall_singleton. split; [exact H2 | lia].
      * exists k1, k2. split; [| auto].
        rewrite <- E, <- app_assoc. reflexivity.
Qed.

Lemma min_by_priority_spec l :
  match min_by_priority l with
  | None => l = []
  | Some b => ∃ l1 l2, l = l1 ++ b :: l2 ∧
      Forall (λ it, b.2 < it.2)%Z l1 ∧ Forall (λ it, b.2 ≤ it.2)%Z l2
  end.
Proof.
  destruct l as [|x rest]; simpl; [reflexivity |].
  destruct (fold_min_step rest [] x []) as (k1 & k2 & E & F1 & F2);
    [constructor | constructor |].
  exists k1, k2. auto.
Qed.

(** Splitting a list along a split of its filtered image. *)
Lemma filter_split {A} (P : A → bool) (l : list A) : ∀ m1 b m2,
  List.filter P l = m1 ++ b :: m2 →
  ∃ l1 l2, l = l1 ++ b :: l2 ∧ P b = true ∧
    List.filter P l1 = m1 ∧ List.filter P l2 = m2.
Proof.
  induction l as [|x l IH]; intros m1 b m2 E; simpl in E.
  - destruct m1; discriminate.
  - destruct (P x) eqn:Px.
    + destruct m1 as [|y m1]; simpl in E; injection E as -> E.
      * exists [], l. simpl. auto.
      * destruct (IH _ _ _ E) as (l1 & l2 & -> & Pb & F1 & F2).
        exists (y :: l1), l2. simpl. rewrite Px, F1. auto.
    + destruct (IH _ _ _ E) as (l1 & l2 & -> & Pb & F1 & F2).
      exists (x :: l1), l2. simpl. rewrite Px. auto.
Qed.

Lemma Forall_of_filter {A} (P : A → bool) (Q : A → Prop) (l : list A) :
  Forall Q (List.filter P l) → Forall (λ x, P x = true → Q x) l.
Proof.
  induction l as [|x l IH]; simpl; intros HF; [constructor |].
  destruct (P x) eqn:Px.
  - inversion HF; subst. constructor; auto.
  - constructor; [congruence | auto].
Qed.

(** C5. [select_highest_priority] returns, among the synonyms of the
    dictionary that occur in the row label when case is ignored, the one
    of the lowest priority number - the first such in dictionary order,
    so the choice is determined by the dictionary and the label - and
    returns no match exactly when no synonym occurs in the label. *)
Theorem select_highest_priority_lowest (d : term_dict) (text : string) :
  match select_highest_priority d (Some text) with
  | Some term =>
      ∃ p d1 d2, d = d1 ++ (term, p) :: d2 ∧ ci_contained term text ∧
        Forall (λ it, ci_contained it.1 text → (p < it.2)%Z) d1 ∧
        Forall (λ it, ci_contained it.1 text → (p ≤ it.2)%Z) d2
  | None => Forall (λ it, ¬ ci_contained it.1 text) d
  end.
Proof.
  unfold select_highest_priority.
  pose proof (min_by_priority_spec (List.filter (term_matches text) d)) as Hm.
  destruct (min_by_priority _) as [[term p]|].
  - destruct Hm as (m1 & m2 & E & F1 & F2).
    destruct (filter_split _ _ _ _ _ E) as (d1 & d2 & -> & Pb & <- & <-).
    exists p, d1, d2. split; [reflexivity |].
    split; [apply (term_matches_spec text (term, p)); exact Pb |].
    split.
    + eapply Forall_impl; [apply Forall_of_filter, F1 |].
      intros it Hit Hc. apply Hit, term_matches_spec, Hc.
    + eapply Forall_impl; [apply Forall_of_filter, F2 |].
      intros it Hit Hc. apply Hit, term_matches_spec, Hc.
  - assert (HF : Forall (λ _ : string * Z, False)
                   (List.filter (term_matches text) d))
      by (rewrite Hm; constructor).
    eapply Forall_impl; [apply Forall_of_filter, HF |].
    intros it Hit Hc. apply Hit, term_matches_spec, Hc.
Qed.

(** ** Period resolution *)

Lemma date_leb_spec a b :
  date_leb a b = true ↔
  (year a < year b ∨
   (year a = year b ∧
    (month a < month b ∨ (month a = month b ∧ day a ≤ day b))))%nat.
Proof.
  unfold date_leb.
  destruct (Nat.ltb_spec (year a) (year b)), (Nat.eqb_spec (year a) (year b)),
    (Nat.ltb_spec (month a) (month b)), (Nat.eqb_spec (month a) (month b)),
    (Nat.leb_spec (day a) (day b));
    simpl; split; intros; first [reflexivity | discriminate | lia].
Qed.

Lemma date_leb_refl a : date_leb a a = true.
Proof. apply date_leb_spec. lia. Qed.

Lemma date_leb_total a b : date_leb a b = false → date_leb b a = true.
Proof.
  intros Hf. apply date_leb_spec.
  destruct (date_leb b a) eqn:Hba; [apply date_leb_spec, Hba |].
  assert (Hn : ¬ (date_leb a b = true)) by congruence.
  assert (Hm : ¬ (date_leb b a = true)) by congruence.
  rewrite date_leb_spec in Hn, Hm. lia.
Qed.

Lemma date_leb_trans a b c :
  date_leb a b = true → date_leb b c = true → date_leb a c = true.
Proof. rewrite !date_leb_spec. lia. Qed.

Lemma insert_desc_perm d l : insert_desc d l ≡ₚ d :: l.
Proof.
  induction l as [|e l IH]; simpl; [reflexivity |].
  destruct (date_leb e d); [reflexivity |].
  rewrite IH. apply perm_swap.
Qed.

Lemma sorted_desc_perm l : sorted_desc l ≡ₚ l.
Proof.
  induction l as [|d l IH]; simpl; [reflexivity |].
  rewrite insert_desc_perm, IH. reflexivity.
Qed.

Lemma insert_desc_sorted d l :
  StronglySorted not_earlier l → StronglySorted not_earlier (insert_desc d l).
Proof.
  induction 1 as [|e l Hl IH He]; simpl.
  - repeat constructor.
  - destruct (date_leb e d) eqn:Hed.
    + constructor; [constructor; assumption |].
      constructor; [exact Hed |].
      eapply Forall_impl; [exact He |].
      intros x Hx. unfold not_earlier in *. eapply date_leb_trans; eassumption.
    + constructor; [exact IH |].
      rewrite insert_desc_perm. constructor; [| exact He].
      apply date_leb_total, Hed.
Qed.

Lemma sorted_desc_sorted l : StronglySorted not_earlier (sorted_desc l).
Proof.
  induction l as [|d l IH]; simpl; [constructor | apply insert_desc_sorted, IH].
Qed.

Lemma extract_dates_sorted text :
  extract_dates_from_text text =
    (period_label <$> sorted_desc (parsed_dates text) !! 0,
     period_label <$> sorted_desc (parsed_dates text) !! 1).
Proof.
  unfold extract_dates_from_text. fold (parsed_dates text).
  destruct (sorted_desc (parsed_dates text)) as [|a [|b rest]]; reflexivity.
Qed.

(** C8. [extract_dates_from_text] sorts the dates parsed from the text in
    descending order, every parsed date kept with its repetitions, and
    returns the label of the first of the sorted list, which is the
    latest date, and the label of the element at index 1; without a
    parsed date both are absent, and with one date the previous period is
    absent.  The label of a date is "Q", the quarter
    [(month - 1) / 3 + 1], a blank and the year. *)
Theorem period_resolution (text : string) :
  let ds := parsed_dates text in
  let sd := sorted_desc ds in
  sd ≡ₚ ds ∧
  StronglySorted not_earlier sd ∧
  extract_dates_from_text text
    = (period_label <$> sd !! 0, period_label <$> sd !! 1) ∧
  match sd with
  | latest :: _ => Forall (λ d, date_leb d latest = true) ds
  | [] => ds = []
  end ∧
  match ds with
  | [] => extract_dates_from_text text = (None, None)
  | [d] => extract_dates_from_text text = (Some (period_label d), None)
  | _ => True
  end ∧
  (∀ d, period_label d =
          "Q" +:+ str_of_nat ((month d - 1) / 3 + 1) +:+ " " +:+
          str_of_nat (year d)) ∧
  extract_dates_from_text
    "Results for the quarter ended 15-03-2024 (previous quarter: 10-12-2023)"
    = (Some "Q1 2024", Some "Q4 2023").
Proof.
  intros ds sd.
  pose proof (sorted_desc_perm ds) as Hperm. fold sd in Hperm.
  pose proof (sorted_desc_sorted ds) as Hsorted. fold sd in Hsorted.
  split; [exact Hperm |]. split; [exact Hsorted |].
  split; [apply extract_dates_sorted |].
  split.
  - destruct sd as [|latest rest] eqn:Hsd.
    + apply Permutation_nil in Hperm. exact Hperm.
    + rewrite <- Hperm. inversion Hsorted; subst.
      constructor; [apply date_leb_refl | assumption].
  - split; [| split; [reflexivity | vm_compute; reflexivity]].
    rewrite extract_dates_sorted. fold ds. subst sd.
    destruct ds as [|d [|e rest]]; [reflexivity | reflexivity | exact I].
Qed.

(** ** Value extraction *)

Section ExtractionFacts.
Context `{PyFloat float}.

Lemma cell_value_targeted i r :
  cell_value i r =
    match targeted i r with
    | Some s =>
        match py_float (Str.remove_commas s) with
        | Some x => Ok (VFloat x)
        | None => Raise ValueError
        end
    | None => Ok VNone
    end.
Proof.
  unfold cell_value, targeted.
  destruct (r !! i) as [[s|]|]; try reflexivity.
  destruct (Str.nonempty s); reflexivity.
Qed.

Lemma cell_value_parses i r :
  cell_parses i r → ∃ v, cell_value i r = Ok v ∧ field_from r i (Some v).
Proof.
  intros Hp. rewrite cell_value_targeted. unfold field_from, cell_parses in *.
  destruct (targeted i r) as [s|]; [| eauto].
  destruct (Hp s eq_refl) as [x Hx]. rewrite Hx. eauto.
Qed.

Lemma cell_value_fails i r :
  ¬ cell_parses i r → cell_value i r = Raise ValueError.
Proof.
  intros Hn. rewrite cell_value_targeted. unfold cell_parses in Hn.
  destruct (targeted i r) as [s|].
  - destruct (py_float (Str.remove_commas s)) eqn:E; [| reflexivity].
    exfalso. apply Hn. intros s' [= <-]. rewrite E. eauto.
  - exfalso. apply Hn. intros s' [=].
Qed.

Lemma cell_parses_dec i r : cell_parses i r ∨ ¬ cell_parses i r.
Proof.
  unfold cell_parses. destruct (targeted i r) as [s|].
  - destruct (py_float (Str.remove_commas s)) eqn:E.
    + left. intros s' [= <-]. rewrite E. eauto.
    + right. intros Hp. destruct (Hp s eq_refl) as [x Hx]. congruence.
  - left. intros s' [=].
Qed.

Lemma assign_if_ok d key cq ann label r fd vc va :
  cell_value cq r = Ok vc → cell_value ann r = Ok va →
  assign_if d key cq ann label r fd = Ok (store_if (matched d label) key vc va fd).
Proof.
  intros Hc Ha. unfold assign_if, store_if, assign.
  destruct (matched d label); [| reflexivity].
  rewrite Hc, Ha. reflexivity.
Qed.

Lemma process_row_ok cq ann fd label (rest : row) vc va :
  let r : row := (Some label : cell) :: rest in
  cell_value cq r = Ok vc → cell_value ann r = Ok va →
  process_row cq ann fd r =
    Ok (store_if (matched NPT label) "Net Profit" vc va
          (store_if (matched OPT label) "Operating Profit" vc va
             (store_if (matched RT label) "Revenue" vc va fd))).
Proof.
  intros r Hc Ha. subst r. unfold process_row.
  rewrite (assign_if_ok RT "Revenue" cq ann label _ fd vc va Hc Ha).
  cbn [mbind result_bind].
  rewrite (assign_if_ok OPT "Operating Profit" cq ann label _ _ vc va Hc Ha).
  cbn [mbind result_bind]. apply assign_if_ok; assumption.
Qed.

Lemma process_row_unmatched cq ann fd r :
  row_matched r = false → process_row cq ann fd r = Ok fd.
Proof.
  destruct r as [|[label|] rest]; try reflexivity.
  simpl. intros Hm.
  apply orb_false_iff in Hm as [Hm Hn]. apply orb_false_iff in Hm as [Hr Ho].
  unfold assign_if. rewrite Hr, Ho, Hn. reflexivity.
Qed.

Lemma process_row_raises cq ann fd r :
  row_matched r = true → ¬ (cell_parses cq r ∧ cell_parses ann r) →
  process_row cq ann fd r = Raise ValueError.
Proof.
  destruct r as [|[label|] rest]; try discriminate.
  intros Hm Hn.
  assert (Hassign : ∀ key fd0, assign key cq ann (Some label :: rest) fd0
                                = Raise ValueError).
  { intros key fd0. unfold assign.
    destruct (cell_parses_dec cq (Some label :: rest)) as [Hc | Hc].
    - destruct (cell_value_parses _ _ Hc) as (v & -> & _). simpl.
      rewrite cell_value_fails; [reflexivity | tauto].
    - rewrite (cell_value_fails _ _ Hc). reflexivity. }
  simpl in Hm. unfold process_row, assign_if.
  destruct (matched RT label); [rewrite Hassign; reflexivity |].
  simpl. destruct (matched OPT label); [rewrite Hassign; reflexivity |].
  simpl. destruct (matched NPT label); [apply Hassign | discriminate].
Qed.

Lemma store_if_lookup (b1 b2 b3 : bool) (vc va : pyval float)
    (fd : fin_data float) m :
  let fd' := store_if b3 "Net Profit" vc va
               (store_if b2 "Operating Profit" vc va
                  (store_if b1 "Revenue" vc va fd)) in
  let b := match m with Revenue => b1 | OperatingProfit => b2 | NetProfit => b3 end in
  current_quarter fd' !! key_of m =
    (if b then Some vc else current_quarter fd !! key_of m) ∧
  annual_data fd' !! key_of m =
    (if b then Some va else annual_data fd !! key_of m).
Proof.
  destruct m, b1, b2, b3; simpl; split; by simplify_map_eq.
Qed.

Lemma process_row_cases cq ann fd r :
  (∃ fd', process_row cq ann fd r = Ok fd' ∧ row_parses cq ann r) ∨
  (process_row cq ann fd r = Raise ValueError ∧ row_matched r = true ∧
   ¬ (cell_parses cq r ∧ cell_parses ann r)).
Proof.
  destruct (row_matched r) eqn:Hm.
  - destruct (cell_parses_dec cq r) as [Hc | Hc];
      [destruct (cell_parses_dec ann r) as [Ha | Ha] |].
    + left. destruct r as [|[label|] rest]; try discriminate.
      destruct (cell_value_parses _ _ Hc) as (vc & Ec & _).
      destruct (cell_value_parses _ _ Ha) as (va & Ea & _).
      eexists. split; [exact (process_row_ok cq ann fd label rest vc va Ec Ea) |].
      intros _; auto.
    + right. split; [apply process_row_raises; tauto | tauto].
    + right. split; [apply process_row_raises; tauto | tauto].
  - left. exists fd. split; [apply process_row_unmatched, Hm |].
    unfold row_parses. congruence.
Qed.

Lemma process_rows_result cq ann t : ∀ fd,
  match process_rows cq ann fd t with
  | Ok _ => Forall (row_parses cq ann) t
  | Raise e => e = ValueError ∧
      Exists (λ r, row_matched r = true ∧
                   ¬ (cell_parses cq r ∧ cell_parses ann r)) t
  end.
Proof.
  induction t as [|r t IH]; intros fd; simpl; [constructor |].
  destruct (process_row_cases cq ann fd r) as [(fd' & -> & Hr) | (-> & Hm & Hn)];
    simpl.
  - specialize (IH fd'). destruct (process_rows cq ann fd' t).
    + constructor; assumption.
    + destruct IH as [-> Hex]. split; [reflexivity | apply Exists_cons_tl, Hex].
  - split; [reflexivity | apply Exists_cons_hd]. auto.
Qed.

Lemma process_rows_app cq ann t1 t2 : ∀ fd,
  process_rows cq ann fd (t1 ++ t2) =
    process_rows cq ann fd t1 ≫= λ fd1, process_rows cq ann fd1 t2.
Proof.
  induction t1 as [|r t1 IH]; intros fd; simpl; [reflexivity |].
  destruct (process_row cq ann fd r) as [fd' | e]; simpl; [apply IH | reflexivity].
Qed.

Lemma process_rows_parses cq ann t fd :
  Forall (row_parses cq ann) t → ∃ fd', process_rows cq ann fd t = Ok fd'.
Proof.
  intros Hall. pose proof (process_rows_result cq ann t fd) as Hres.
  destruct (process_rows cq ann fd t) as [fd' | e]; [eauto |].
  destruct Hres as [_ Hex]. exfalso.
  apply Exists_exists in Hex as (r & Hin & Hm & Hn).
  rewrite Forall_forall in Hall. apply Hn, (Hall r Hin Hm).
Qed.

(** ** Column mapping *)

Lemma scan_header_last h : ∀ i cq ann,
  scan_header h i cq ann =
    (match last_true particular_cell h with
     | Some k => Some (i + k + 1)
     | None => cq
     end,
     match last_true year_cell h with
     | Some k => Some (i + k)
     | None => ann
     end).
Proof.
  induction h as [|c h IH]; intros i cq ann; simpl; [reflexivity |].
  rewrite IH. fold (particular_cell c). fold (year_cell c). f_equal.
  - destruct (last_true particular_cell h); [f_equal; lia |].
    destruct (particular_cell c); [f_equal; lia | reflexivity].
  - destruct (last_true year_cell h); [f_equal; lia |].
    destruct (year_cell c); [f_equal; lia | reflexivity].
Qed.

Lemma last_true_none P h :
  Forall (λ c, P c = false) h → last_true P h = None.
Proof.
  induction 1 as [|c h Hc _ IH]; simpl; [reflexivity |].
  rewrite IH, Hc. reflexivity.
Qed.

Lemma last_true_at P h : ∀ i, last_at P h i → last_true P h = Some i.
Proof.
  induction h as [|c h IH]; intros i [(c0 & Hi & Pc) Hlast].
  - destruct i; discriminate.
  - simpl. destruct i as [|i].
    + injection Hi as ->. rewrite last_true_none, Pc; [reflexivity |].
      apply Forall_lookup_2. intros k x Hk. apply (Hlast (S k)); [lia | exact Hk].
    + rewrite (IH i); [reflexivity |]. split; [eauto |].
      intros k x Hlt Hk. apply (Hlast (S k)); [lia | exact Hk].
Qed.

End ExtractionFacts.

(** ** Claims on [extract_financial_values] *)

Section ExtractionClaims.
Context `{PyFloat float}.

(** C4 (amended). Let a row whose label matches the dictionary of a
    metric come after any rows that were processed without error - rows
    that may have matched the same dictionary and stored a value.  Then
    processing it stores, in the current and in the annual field of that
    metric, unset when the targeted cell is absent, out of range or
    empty - the earlier value is erased - and otherwise the float read
    from the cell with its commas removed: the later row decides the
    field. *)
Theorem matched_row_decides_field cq ann (fd : fin_data float) (t : table)
    (r : row) label m :
  Forall (row_parses cq ann) t →
  r !! 0 = Some (Some label) →
  matched (dict_of m) label = true →
  cell_parses cq r → cell_parses ann r →
  ∃ fd', process_rows cq ann fd (t ++ [r]) = Ok fd' ∧
    field_from r cq (current_quarter fd' !! key_of m) ∧
    field_from r ann (annual_data fd' !! key_of m).
Proof.
  intros Ht Hr Hm Hc Ha.
  destruct (process_rows_parses cq ann t fd Ht) as [fd1 Hfd1].
  destruct r as [|c0 rest]; [discriminate |]. injection Hr as ->.
  destruct (cell_value_parses _ _ Hc) as (vc & Ec & Fc).
  destruct (cell_value_parses _ _ Ha) as (va & Ea & Fa).
  eexists. split.
  { rewrite process_rows_app, Hfd1. cbn [mbind result_bind process_rows].
    rewrite (process_row_ok cq ann fd1 label rest vc va Ec Ea). reflexivity. }
  destruct (store_if_lookup (matched RT label) (matched OPT label)
              (matched NPT label) vc va fd1 m) as [E1 E2].
  rewrite E1, E2.
  destruct m; cbn [dict_of] in Hm; rewrite Hm; auto.
Qed.

(** C6 (amended). When [i] is the index of the last header cell that
    contains "Particular" and [j] the index of the last header cell that
    contains "year ended", case ignored, the current-period column is
    [i + 1] and the annual column is [j]; when no header cell carries one
    of the two markers, every extracted value is left unset. *)
Theorem column_mapping_last_marker (header : row) (rest : table) :
  (∀ i j, last_at particular_cell header i → last_at year_cell header j →
     scan_header header 0 None None = (Some (i + 1), Some j)) ∧
  (Forall (λ c, particular_cell c = false) header ∨
   Forall (λ c, year_cell c = false) header →
     extract_financial_values (IsTable (header :: rest)) = Ok unset_data).
Proof.
  split.
  - intros i j Hi Hj. rewrite scan_header_last.
    rewrite (last_true_at _ _ _ Hi), (last_true_at _ _ _ Hj). reflexivity.
  - intros Hno. simpl. rewrite scan_header_last.
    destruct Hno as [Hp | Hy].
    + rewrite (last_true_none _ _ Hp). reflexivity.
    + rewrite (last_true_none _ _ Hy).
      destruct (last_true particular_cell header); reflexivity.
Qed.

(** C10. On a table whose header carries both markers,
    [extract_financial_values] returns a result when every row matched by
    a dictionary has current-period and annual cells that are absent,
    empty or read as floats once their commas are removed, and raises
    [ValueError] when some matched row breaks this; in particular a
    net-profit row whose current-period cell is a non-empty text that
    [float] rejects makes the call raise instead of leaving the field
    unset.  Nothing catches the error: [extract_fin_data] raises it in
    turn. *)
Theorem float_conversion_partial :
  (∀ (header : row) (rest : table) cq ann,
     scan_header header 0 None None = (Some cq, Some ann) →
     (Forall (row_parses cq ann) (header :: rest) →
        ∃ fd, extract_financial_values (IsTable (header :: rest)) = Ok fd) ∧
     (¬ Forall (row_parses cq ann) (header :: rest) →
        extract_financial_values (IsTable (header :: rest)) = Raise ValueError)) ∧
  (∀ s, Str.nonempty s = true → py_float (Str.remove_commas s) = None →
     extract_financial_values (IsTable (placeholder_table s)) = Raise ValueError) ∧
  (∀ llm pdf e,
     Str.nonempty (Str.strip (document_text pdf)) = true →
     local_parse pdf = Raise e →
     returned (extract_fin_data llm pdf) = Raise e).
Proof.
  split; [| split].
  - intros header rest cq ann Hscan.
    cbn [extract_financial_values extract_from_rows]. rewrite Hscan.
    pose proof (process_rows_result cq ann (header :: rest) unset_data) as Hres.
    destruct (process_rows cq ann unset_data (header :: rest)) as [fd | e].
    + split; [eauto | intros Hn; exfalso; exact (Hn Hres)].
    + destruct Hres as [-> Hex]. split; [| reflexivity].
      intros Hall. exfalso.
      apply Exists_exists in Hex as (r & Hin & Hm & Hn).
      rewrite Forall_forall in Hall. apply Hn, (Hall r Hin Hm).
  - intros s Hs Hf.
    assert (Hscan : scan_header
                      [Some "Particulars"; Some "Quarter ended"; Some "Year ended"]
                      0 None None = (Some 1, Some 2)) by reflexivity.
    unfold placeholder_table.
    cbn [extract_financial_values extract_from_rows]. rewrite Hscan.
    cbn [process_rows].
    rewrite process_row_unmatched by reflexivity. cbn [mbind result_bind].
    rewrite (process_row_raises 1 2 unset_data
               [Some "Net Profit"; Some s; Some "1"]); [reflexivity .. |].
    intros [Hc _]. unfold cell_parses, targeted in Hc. simpl in Hc.
    rewrite Hs in Hc. destruct (Hc s eq_refl) as [x Hx]. congruence.
  - intros llm pdf e Htext Hlocal. unfold extract_fin_data. rewrite Htext.
    unfold local_parse in Hlocal. rewrite Hlocal. reflexivity.
Qed.

End ExtractionClaims.

(** ** The pipeline *)

Section PipelineFacts.
Context `{PyFloat float}.

Lemma any_values_true (d : gmap string (pyval float)) :
  any_values d = true ↔ ∃ k v, d !! k = Some v ∧ truth v = true.
Proof.
  unfold any_values. rewrite existsb_exists. split.
  - intros (v & Hin & Hv). apply list_elem_of_In in Hin.
    apply list_elem_of_fmap in Hin as ([k v'] & -> & Hkv).
    apply elem_of_map_to_list in Hkv. eauto.
  - intros (k & v & Hkv & Hv). exists v. split; [| exact Hv].
    apply list_elem_of_In, list_elem_of_fmap. exists (k, v).
    split; [reflexivity | apply elem_of_map_to_list, Hkv].
Qed.

Lemma any_values_false (d : gmap string (pyval float)) :
  any_values d = false ↔ ∀ k v, d !! k = Some v → truth v = false.
Proof.
  split.
  - intros Hf k v Hkv. destruct (truth v) eqn:Hv; [| reflexivity].
    assert (any_values d = true) by (apply any_values_true; eauto). congruence.
  - intros Hall. destruct (any_values d) eqn:Ha; [| reflexivity].
    apply any_values_true in Ha as (k & v & Hkv & Hv).
    rewrite (Hall k v Hkv) in Hv. discriminate.
Qed.

Lemma lookup_update (d e : gmap string (pyval float)) k :
  update d e !! k = match e !! k with Some v => Some v | None => d !! k end.
Proof.
  unfold update. rewrite lookup_union.
  destruct (e !! k), (d !! k); reflexivity.
Qed.

(** [update] on a value it refuses. *)
Lemma dict_update_refused (d : gmap string (pyval float)) v e :
  refused_by_update v e → dict_update d v = Raise e.
Proof.
  intros [[Hv ->] | (s & -> & Hs & ->)].
  - destruct v; try discriminate Hv; reflexivity.
  - destruct s; [discriminate Hs | reflexivity].
Qed.

Lemma update_item_raises (element : pyval float) e :
  update_item element = Raise e → e = TypeError ∨ e = ValueError.
Proof.
  destruct element as [| b | n | x | s | l | items]; cbn [update_item];
    try (intros [= <-]; auto; fail).
  - destruct s as [|a [|b [|c s]]]; try discriminate; intros [= <-]; auto.
  - destruct l as [|k [|v [|w l]]]; try (intros [= <-]; auto; fail).
    destruct k; try discriminate; intros [= <-]; auto.
  - destruct (keys_of items) as [|k [|v [|w l]]]; try discriminate;
      intros [= <-]; auto.
Qed.

Lemma update_items_raises (elements : list (pyval float)) : ∀ d e,
  update_items d elements = Raise e → e = TypeError ∨ e = ValueError.
Proof.
  induction elements as [|element rest IH]; intros d e; cbn [update_items];
    [discriminate |].
  destruct (update_item element) as [item | e'] eqn:Hitem;
    cbn [mbind result_bind].
  - apply IH.
  - intros [= <-]. exact (update_item_raises element e' Hitem).
Qed.

(** [update] on a decoded JSON value raises [TypeError] or [ValueError]
    and nothing else. *)
Lemma dict_update_raises (d : gmap string (pyval float)) v e :
  dict_update d v = Raise e → e = TypeError ∨ e = ValueError.
Proof.
  destruct v as [| b | n | x | s | l | items]; cbn [dict_update];
    try (intros [= <-]; auto; fail).
  - destruct s; [discriminate | intros [= <-]; auto].
  - apply update_items_raises.
Qed.

Lemma merge_ai_raises (ai : ai_data float) fd name e :
  merge_ai ai fd name = Raise e → e = TypeError ∨ e = ValueError.
Proof.
  unfold merge_ai.
  destruct (dict_update (current_quarter fd) _) as [cq | e1] eqn:Hcq;
    cbn [mbind result_bind].
  - destruct (dict_update (annual_data fd) _) as [ad | e2] eqn:Had;
      cbn [mbind result_bind]; [discriminate |].
    intros [= <-]. exact (dict_update_raises _ _ _ Had).
  - intros [= <-]. exact (dict_update_raises _ _ _ Hcq).
Qed.

(** The merge of an answer whose two sections are objects, or absent. *)
Lemma merge_ai_objects (ai : ai_data float) fd name cq_items ad_items :
  get_section (ai_current_quarter ai) = VDict cq_items →
  get_section (ai_annual_data ai) = VDict ad_items →
  merge_ai ai fd name =
    Ok ({| current_quarter := update (current_quarter fd) (entries cq_items);
           annual_data := update (annual_data fd) (entries ad_items) |},
        default name (ai_company_name ai)).
Proof. intros Hcq Had. unfold merge_ai. rewrite Hcq, Had. reflexivity. Qed.

(** The merge of an answer with a section that [update] refuses: the
    current quarter first, the annual data when the current quarter
    went through. *)
Lemma merge_ai_refused_first (ai : ai_data float) fd name e :
  refused_by_update (get_section (ai_current_quarter ai)) e →
  merge_ai ai fd name = Raise e.
Proof.
  intros Hcq. unfold merge_ai.
  rewrite (dict_update_refused _ _ _ Hcq). reflexivity.
Qed.

Lemma merge_ai_refused_second (ai : ai_data float) fd name items e :
  get_section (ai_current_quarter ai) = VDict items →
  refused_by_update (get_section (ai_annual_data ai)) e →
  merge_ai ai fd name = Raise e.
Proof.
  intros Hcq Had. unfold merge_ai.
  rewrite Hcq, (dict_update_refused _ _ _ Had). reflexivity.
Qed.

(** The run on a document with text whose local parse succeeds. *)
Lemma extract_fin_data_parsed llm pdf fd :
  Str.nonempty (Str.strip (document_text pdf)) = true →
  local_parse pdf = Ok fd →
  let text := document_text pdf in
  let fallback := negb (any_values (current_quarter fd)) in
  extract_fin_data llm pdf =
    {| llm_calls := if fallback then [text] else [];
       returned :=
         (if fallback
          then merge_ai (default ai_empty (llm text)) fd
                 (VStr (extract_company_name text))
          else Ok (fd, VStr (extract_company_name text)))
         ≫= conclude text |}.
Proof.
  intros Htext Hlocal text fallback. subst text fallback.
  unfold extract_fin_data. rewrite Htext. cbn [negb].
  unfold local_parse in Hlocal. rewrite Hlocal.
  f_equal.
  destruct (negb (any_values (current_quarter fd)));
    [destruct (merge_ai _ _ _) as [[fd' name] | e] |]; reflexivity.
Qed.

End PipelineFacts.

(** ** Claims on the pipeline *)

Section PipelineClaims.
Context `{PyFloat float}.

(** The fallback is called, once and with the document text, exactly
    when no value of the locally parsed current quarter is true. *)
Lemma fallback_trigger llm pdf fd :
  Str.nonempty (Str.strip (document_text pdf)) = true →
  local_parse pdf = Ok fd →
  llm_calls (extract_fin_data llm pdf) =
    if any_values (current_quarter fd) then [] else [document_text pdf].
Proof.
  intros Htext Hlocal. rewrite (extract_fin_data_parsed llm pdf fd Htext Hlocal).
  cbn [llm_calls]. destruct (any_values (current_quarter fd)); reflexivity.
Qed.

(** A run calls the model only on a document with text whose local
    parse returned a current quarter without a true value. *)
Lemma fallback_invoked llm pdf :
  llm_calls (extract_fin_data llm pdf) ≠ [] →
  Str.nonempty (Str.strip (document_text pdf)) = true ∧
  ∃ fd, local_parse pdf = Ok fd ∧ any_values (current_quarter fd) = false.
Proof.
  intros Hcalls.
  destruct (Str.nonempty (Str.strip (document_text pdf))) eqn:Htext.
  - split; [reflexivity |].
    destruct (local_parse pdf) as [fd | e] eqn:Hlocal.
    + exists fd. split; [reflexivity |].
      rewrite (fallback_trigger llm pdf fd Htext Hlocal) in Hcalls.
      destruct (any_values (current_quarter fd)); [congruence | reflexivity].
    + exfalso. apply Hcalls. unfold extract_fin_data. rewrite Htext.
      unfold local_parse in Hlocal. rewrite Hlocal. reflexivity.
  - exfalso. apply Hcalls. unfold extract_fin_data. rewrite Htext. reflexivity.
Qed.

(** C1 (amended). In a run in which the fallback is invoked, the local
    parse had returned, and the answer of the model decides what
    follows.  When its "Current Quarter" and "Annual Data" entries are
    JSON objects, or absent, the merge gives every entry that the object
    has the value of the model, whether or not the local parse had set
    it, and keeps the local value of the entries the object lacks; the
    company name is that of the answer when the answer has one and the
    local one otherwise.  When the "Current Quarter" entry is [null], a
    boolean, a number or a string that is not empty, [update] raises -
    [TypeError], for the string [ValueError] - and so does the run; the
    same holds of the "Annual Data" entry once the "Current Quarter"
    object was merged. *)
Theorem fallback_merge_overwrites llm pdf :
  llm_calls (extract_fin_data llm pdf) ≠ [] →
  let text := document_text pdf in
  let ai := default ai_empty (llm text) in
  let cq := get_section (ai_current_quarter ai) in
  let ad := get_section (ai_annual_data ai) in
  ∃ fd,
    local_parse pdf = Ok fd ∧
    (∀ cq_items ad_items,
       cq = VDict cq_items → ad = VDict ad_items →
       ∃ fd' name',
         (∀ k, current_quarter fd' !! k
                 = merged_entry cq_items (current_quarter fd) k) ∧
         (∀ k, annual_data fd' !! k
                 = merged_entry ad_items (annual_data fd) k) ∧
         name' = default (VStr (extract_company_name text)) (ai_company_name ai) ∧
         returned (extract_fin_data llm pdf) =
           if negb (any_values (current_quarter fd')) &&
              negb (any_values (annual_data fd'))
           then Ok no_data_error
           else Ok (finish text (detect_fin_unit text) fd' name')) ∧
    (∀ e, refused_by_update cq e →
       returned (extract_fin_data llm pdf) = Raise e) ∧
    (∀ cq_items e,
       cq = VDict cq_items → refused_by_update ad e →
       returned (extract_fin_data llm pdf) = Raise e).
Proof.
  intros Hcalls text ai cq ad.
  destruct (fallback_invoked llm pdf Hcalls) as (Htext & fd & Hlocal & Hnone).
  exists fd. split; [exact Hlocal |].
  rewrite (extract_fin_data_parsed llm pdf fd Htext Hlocal).
  rewrite Hnone. cbn [negb llm_calls returned]. fold text. fold ai.
  split; [| split].
  - intros cq_items ad_items Hcq Had.
    rewrite (merge_ai_objects ai fd _ cq_items ad_items Hcq Had).
    cbn [mbind result_bind]. unfold conclude. cbn [fst snd].
    eexists _, _. split; [| split; [| split; reflexivity]].
    + intros k. apply lookup_update.
    + intros k. apply lookup_update.
  - intros e Hcq. rewrite (merge_ai_refused_first ai fd _ e Hcq). reflexivity.
  - intros cq_items e Hcq Had.
    rewrite (merge_ai_refused_second ai fd _ cq_items e Hcq Had). reflexivity.
Qed.

End PipelineClaims.

(** ** The claims on sample documents *)

Section Closed.
#[local] Existing Instance decimal_float.

(** C1, as stated, fails: the local parse sets the annual revenue to 500,
    the current quarter stays empty, the fallback runs and the merge
    replaces the 500 by the 999 of the model. *)
Lemma local_annual_value_overwritten :
  let run := extract_fin_data annual_answer annual_only_pdf in
  annual_at "Revenue" (ok (local_parse annual_only_pdf))
    = Some (VFloat (Decimal.of_Z 500)) ∧
  annual_at "Operating Profit" (ok (local_parse annual_only_pdf)) = Some VNone ∧
  llm_calls run = [document_text annual_only_pdf] ∧
  annual_at "Revenue" (financials run) = Some (VInt 999) ∧
  annual_at "Operating Profit" (financials run) = Some (VInt 50).
Proof. vm_compute. repeat split; reflexivity. Qed.

Lemma fallback_merge_overwrites_witness :
  llm_calls (extract_fin_data annual_answer annual_only_pdf) ≠ [] ∧
  ∃ fd fd' name',
    local_parse annual_only_pdf = Ok fd ∧
    (∀ k, current_quarter fd' !! k = merged_entry [] (current_quarter fd) k) ∧
    (∀ k, annual_data fd' !! k =
            merged_entry [ ("Revenue", VInt 999); ("Operating Profit", VInt 50) ]
              (annual_data fd) k) ∧
    returned (extract_fin_data annual_answer annual_only_pdf) =
      if negb (any_values (current_quarter fd')) &&
         negb (any_values (annual_data fd'))
      then Ok no_data_error
      else Ok (finish (document_text annual_only_pdf)
                 (detect_fin_unit (document_text annual_only_pdf)) fd' name').
Proof.
  assert (Hcalls : llm_calls (extract_fin_data annual_answer annual_only_pdf) ≠ [])
    by (vm_compute; discriminate).
  split; [exact Hcalls |].
  destruct (fallback_merge_overwrites annual_answer annual_only_pdf Hcalls)
    as (fd & Hlocal & Hobjects & _).
  destruct (Hobjects [] [ ("Revenue", VInt 999); ("Operating Profit", VInt 50) ]
              eq_refl eq_refl)
    as (fd' & name' & Hcq & Had & _ & Hret).
  exists fd, fd', name'. auto.
Defined.

(** On an answer whose "Current Quarter" is [null], the first [update]
    raises and the run ends there: the annual section of the answer is
    not merged. *)
Lemma null_section_stops_run :
  llm_calls (extract_fin_data null_section_answer annual_only_pdf)
    = [document_text annual_only_pdf] ∧
  returned (extract_fin_data null_section_answer annual_only_pdf)
    = Raise TypeError.
Proof. vm_compute. split; reflexivity. Qed.

(** The loop body of [extract_table_or_text] never reaches a second
    page. *)
Lemma only_first_page (p : page) (rest : list page) :
  extract_table_or_text (p :: rest) = extract_table_or_text [p].
Proof. reflexivity. Qed.

(** C3, on a document whose statement is on the second page: the table
    with the marker is there, and the call returns the OCR text of the
    cover page. *)
Lemma later_page_table_missed :
  (∃ p, cover_then_statement_pdf !! 1 = Some p ∧
        find_marked (extract_tables p) = Ok (Some statement_table)) ∧
  extract_table_or_text cover_then_statement_pdf = Ok (IsText "Annual report").
Proof. split; [eexists; split; reflexivity | reflexivity]. Qed.

(** C2, on a statement that reports a revenue of zero: the local parse
    stores the float 0.00 in the current quarter, and the model is called
    all the same. *)
Lemma zero_value_triggers_fallback :
  current_at "Revenue" (ok (local_parse zero_revenue_pdf))
    = Some (VFloat {| Decimal.mantissa := 0; Decimal.scale := 2 |}) ∧
  llm_calls (extract_fin_data no_answer zero_revenue_pdf)
    = [document_text zero_revenue_pdf].
Proof. vm_compute. split; reflexivity. Qed.

(** C9, on a document without figures: the answer of the model holds no
    figure, its unit entry is a true value, and the run returns a record
    whose six financial fields are unset instead of the error object. *)
Lemma unit_entry_defeats_no_data_check :
  let run := extract_fin_data null_answer notice_pdf in
  is_error run = false ∧
  ∀ m, current_at (key_of m) (financials run) = Some VNone ∧
       annual_at (key_of m) (financials run) = Some VNone.
Proof.
  split; [vm_compute; reflexivity |].
  intros m. destruct m; vm_compute; split; reflexivity.
Qed.

(** The same test takes a zero for no value: the statement that reports
    a revenue of zero is answered by the error object. *)
Lemma zero_values_reported_as_no_data :
  current_at "Revenue" (ok (local_parse zero_revenue_pdf))
    = Some (VFloat {| Decimal.mantissa := 0; Decimal.scale := 2 |}) ∧
  returned (extract_fin_data no_answer zero_revenue_pdf) = Ok no_data_error.
Proof. vm_compute. split; reflexivity. Qed.

(** C4, as stated, fails: the revenue row stores 100, and the later
    revenue row that has no cell in the current-period column erases
    it. *)
Lemma earlier_value_erased :
  matched RT "Total Revenue" = true ∧
  short_revenue_row !! 1 = None ∧
  current_at "Revenue" (ok (process_rows 1 2 unset_data [revenue_row]))
    = Some (VFloat (Decimal.of_Z 100)) ∧
  current_at "Revenue"
    (ok (process_rows 1 2 unset_data [revenue_row; short_revenue_row]))
    = Some VNone.
Proof. vm_compute. repeat split; reflexivity. Qed.

(** C6, as stated, fails: with two header cells that contain "year
    ended", the annual column is not the first of them. *)
Lemma first_year_column_not_chosen :
  (∃ c, two_year_header !! 0 = Some c ∧ particular_cell c = true) ∧
  (∃ c, two_year_header !! 2 = Some c ∧ year_cell c = true) ∧
  scan_header two_year_header 0 None None = (Some 1, Some 3) ∧
  scan_header two_year_header 0 None None ≠ (Some (0 + 1), Some 2).
Proof.
  split; [eexists; split; reflexivity |].
  split; [eexists; split; reflexivity |].
  split; [reflexivity | vm_compute; discriminate].
Qed.

(** Closing [cell_parses] goals on a concrete row. *)
Ltac cell_parses_by_eval :=
  let s := fresh "s" in
  let Hs := fresh "Hs" in
  intros s Hs; vm_compute in Hs;
  first [ discriminate Hs
        | injection Hs as <-; vm_compute; eexists; reflexivity ].

(** Closing [last_at] goals on a concrete header. *)
Ltac last_at_by_eval :=
  split;
  [ eexists; split; reflexivity
  | let k := fresh "k" in
    let c := fresh "c" in
    let Hlt := fresh "Hlt" in
    let Hk := fresh "Hk" in
    intros k c Hlt Hk;
    do 8 (destruct k as [|k];
          [first [ lia
                 | vm_compute in Hk;
                   first [ discriminate Hk
                         | injection Hk as <-; vm_compute; reflexivity ] ]
          |]);
    vm_compute in Hk; discriminate Hk ].

Lemma matched_row_decides_field_witness :
  (Forall (row_parses 1 2) [revenue_row] ∧
   short_revenue_row !! 0 = Some (Some "Total Revenue") ∧
   matched (dict_of Revenue) "Total Revenue" = true ∧
   cell_parses 1 short_revenue_row ∧ cell_parses 2 short_revenue_row) ∧
  ∃ fd',
    process_rows 1 2 unset_data ([revenue_row] ++ [short_revenue_row]) = Ok fd' ∧
    current_quarter fd' !! "Revenue" = Some VNone ∧
    annual_data fd' !! "Revenue" = Some VNone.
Proof.
  assert (Ht : Forall (row_parses 1 2) [revenue_row])
    by (repeat constructor; cell_parses_by_eval).
  assert (H0 : short_revenue_row !! 0 = Some (Some "Total Revenue"))
    by reflexivity.
  assert (Hm : matched (dict_of Revenue) "Total Revenue" = true)
    by (vm_compute; reflexivity).
  assert (Hc : cell_parses 1 short_revenue_row) by cell_parses_by_eval.
  assert (Ha : cell_parses 2 short_revenue_row) by cell_parses_by_eval.
  split; [auto 6 |].
  exact (matched_row_decides_field 1 2 unset_data [revenue_row]
           short_revenue_row "Total Revenue" Revenue Ht H0 Hm Hc Ha).
Defined.

Lemma column_mapping_last_marker_witness :
  (last_at particular_cell wide_header 2 ∧ last_at year_cell wide_header 5) ∧
  scan_header wide_header 0 None None = (Some (2 + 1), Some 5).
Proof.
  assert (Hp : last_at particular_cell wide_header 2) by last_at_by_eval.
  assert (Hy : last_at year_cell wide_header 5) by last_at_by_eval.
  split; [auto |].
  exact (proj1 (column_mapping_last_marker wide_header []) 2 5 Hp Hy).
Defined.

Lemma float_conversion_partial_witness :
  (Str.nonempty "N.A." = true ∧ py_float (Str.remove_commas "N.A.") = None) ∧
  extract_financial_values (IsTable (placeholder_table "N.A."))
    = Raise ValueError.
Proof.
  assert (Hs : Str.nonempty "N.A." = true) by reflexivity.
  assert (Hf : py_float (Str.remove_commas "N.A.") = None)
    by (vm_compute; reflexivity).
  split; [auto |].
  exact (proj1 (proj2 float_conversion_partial) "N.A." Hs Hf).
Defined.

End Closed.

(** * Further properties *)

(** ** White space *)

Module StripFacts.
Import Str.

Lemma append_assoc (a b c : string) : (a +:+ b) +:+ c = a +:+ b +:+ c.
Proof.
  induction a as [|x a IH]; [reflexivity |].
  rewrite !StrFacts.app_cons, IH. reflexivity.
Qed.

Lemma lower_app (a b : string) : lower (a +:+ b) = lower a +:+ lower b.
Proof.
  induction a as [|x a IH]; [reflexivity |].
  rewrite StrFacts.app_cons. cbn [lower]. rewrite IH, StrFacts.app_cons.
  reflexivity.
Qed.

Lemma contains_within needle hay a b :
  contains needle hay = true → contains needle (a +:+ hay +:+ b) = true.
Proof.
  rewrite !StrFacts.contains_spec. intros (u & v & ->).
  exists (a +:+ u), (v +:+ b). rewrite !append_assoc. reflexivity.
Qed.

Lemma contains_trans a b c :
  contains a b = true → contains b c = true → contains a c = true.
Proof.
  intros Hab. rewrite (StrFacts.contains_spec b c). intros (u & v & ->).
  apply contains_within, Hab.
Qed.

Lemma length_app (a b : string) :
  String.length (a +:+ b) = String.length a + String.length b.
Proof.
  induction a as [|x a IH]; [reflexivity |].
  rewrite StrFacts.app_cons. cbn [String.length]. rewrite IH. reflexivity.
Qed.

Lemma contains_length needle hay :
  contains needle hay = true → (String.length needle ≤ String.length hay)%nat.
Proof.
  rewrite StrFacts.contains_spec. intros (a & b & ->).
  rewrite !length_app. lia.
Qed.

Lemma contains_longer needle hay :
  String.length hay < String.length needle → contains needle hay = false.
Proof.
  intros Hlt. destruct (contains needle hay) eqn:Hc; [| reflexivity].
  apply contains_length in Hc. lia.
Qed.

Lemma all_space_app a b : all_space (a +:+ b) = all_space a && all_space b.
Proof.
  induction a as [|x a IH]; [reflexivity |].
  rewrite StrFacts.app_cons. cbn [all_space]. rewrite IH, andb_assoc.
  reflexivity.
Qed.

Lemma lstrip_cases s :
  (lstrip s = EmptyString ∧ all_space s = true) ∨
  (∃ c r, lstrip s = String c r ∧ is_space c = false ∧ all_space s = false).
Proof.
  induction s as [|x s IH]; [left; auto |].
  cbn [lstrip all_space]. destruct (is_space x) eqn:Hx.
  - exact IH.
  - right. exists x, s. auto.
Qed.

Lemma rstrip_head c r :
  is_space c = false → ∃ r', rstrip (String c r) = String c r'.
Proof.
  intros Hc. cbn [rstrip]. destruct (rstrip r); [rewrite Hc |]; eauto.
Qed.

Lemma rstrip_last s c r :
  rstrip s = String c r → is_space (last_or c r) = false.
Proof.
  revert c r. induction s as [|x s IH]; intros c r; [discriminate |].
  cbn [rstrip]. destruct (rstrip s) as [|d u] eqn:Hs.
  - destruct (is_space x) eqn:Hx; [discriminate |].
    intros [= <- <-]. exact Hx.
  - intros [= <- <-]. cbn [last_or]. apply (IH d u eq_refl).
Qed.

Lemma rstrip_idem s : rstrip (rstrip s) = rstrip s.
Proof.
  induction s as [|x s IH]; [reflexivity |].
  cbn [rstrip]. destruct (rstrip s) as [|d u] eqn:Hs.
  - destruct (is_space x) eqn:Hx; [reflexivity |].
    cbn [rstrip]. rewrite Hx. reflexivity.
  - cbn [rstrip] in *. rewrite IH. reflexivity.
Qed.

(** [strip] gives the empty string exactly on strings of white space. *)
Lemma strip_blank s : nonempty (strip s) = negb (all_space s).
Proof.
  unfold strip. destruct (lstrip_cases s) as [[-> ->] | (c & r & -> & Hc & ->)].
  - reflexivity.
  - destruct (rstrip_head c r Hc) as [r' ->]. reflexivity.
Qed.

(** What [strip] returns is not padded. *)
Lemma strip_not_padded s : padded (strip s) = false.
Proof.
  unfold strip. destruct (lstrip_cases s) as [[-> _] | (c & r & -> & Hc & _)].
  - reflexivity.
  - destruct (rstrip_head c r Hc) as [r' Hr]. rewrite Hr. cbn [padded].
    rewrite Hc, (rstrip_last _ _ _ Hr). reflexivity.
Qed.

Lemma strip_idem s : strip (strip s) = strip s.
Proof.
  unfold strip. destruct (lstrip_cases s) as [[-> _] | (c & r & -> & Hc & _)].
  - reflexivity.
  - destruct (rstrip_head c r Hc) as [r' Hr]. rewrite Hr.
    cbn [lstrip]. rewrite Hc, <- Hr. apply rstrip_idem.
Qed.

Lemma all_chars_lstrip P s : all_chars P s = true → all_chars P (lstrip s) = true.
Proof.
  induction s as [|x s IH]; [reflexivity |].
  cbn [all_chars lstrip]. intros Hs. destruct (is_space x).
  - apply IH. apply andb_true_iff in Hs. tauto.
  - exact Hs.
Qed.

Lemma all_chars_rstrip P s : all_chars P s = true → all_chars P (rstrip s) = true.
Proof.
  induction s as [|x s IH]; [reflexivity |].
  cbn [all_chars rstrip]. intros Hs. apply andb_true_iff in Hs as [Hx Hs].
  specialize (IH Hs). destruct (rstrip s).
  - destruct (is_space x); [reflexivity |]. cbn [all_chars]. rewrite Hx.
    reflexivity.
  - cbn [all_chars] in *. rewrite Hx, IH. reflexivity.
Qed.

Lemma all_chars_strip P s : all_chars P s = true → all_chars P (strip s) = true.
Proof. intros Hs. apply all_chars_rstrip, all_chars_lstrip, Hs. Qed.

End StripFacts.

(** ** The table parse as a whole *)

Section FurtherExtraction.
Context `{PyFloat float}.

Lemma cell_value_shape i r v : cell_value i r = Ok v → unset_or_float v.
Proof.
  rewrite cell_value_targeted. destruct (targeted i r) as [s|].
  - destruct (py_float (Str.remove_commas s)); [| discriminate].
    intros [= <-]. right. eauto.
  - intros [= <-]. left. reflexivity.
Qed.

Lemma parsed_section_insert (d : gmap string (pyval float)) m v :
  parsed_section d → unset_or_float v → parsed_section (<[key_of m := v]> d).
Proof.
  intros [Hkeys Honly] Hv. split.
  - intros m'. rewrite lookup_insert. case_decide; [eauto | apply Hkeys].
  - intros k. rewrite lookup_insert. case_decide; [eauto | apply Honly].
Qed.

Lemma unset_lookup k (v : pyval float) :
  unset_section !! k = Some v →
  v = VNone ∧ ∃ m, k = key_of m.
Proof.
  unfold unset_section. rewrite !lookup_insert, lookup_singleton.
  repeat case_decide; try discriminate; intros [= <-]; subst k;
    (split; [reflexivity |]).
  - exists Revenue. reflexivity.
  - exists OperatingProfit. reflexivity.
  - exists NetProfit. reflexivity.
Qed.

Lemma unset_section_parsed : parsed_section (unset_section (float := float)).
Proof.
  split.
  - intros m. exists VNone. split; [| left; reflexivity].
    destruct m; reflexivity.
  - intros k [v Hv]. apply unset_lookup in Hv as [_ Hm]. exact Hm.
Qed.

Lemma any_values_unset : any_values (unset_section (float := float)) = false.
Proof.
  apply any_values_false. intros k v Hv.
  apply unset_lookup in Hv as [-> _]. reflexivity.
Qed.

Lemma assign_if_shape d m cq ann label r fd fd' :
  assign_if d (key_of m) cq ann label r fd = Ok fd' → shaped fd → shaped fd'.
Proof.
  unfold assign_if, assign. destruct (matched d label); [| intros [= <-]; auto].
  destruct (cell_value cq r) as [vc | e] eqn:Ec; [| discriminate].
  destruct (cell_value ann r) as [va | e] eqn:Ea; [| discriminate].
  cbn [mbind result_bind mret result_ret]. intros [= <-] [Hc Ha]. split; cbn.
  - apply parsed_section_insert; [exact Hc | exact (cell_value_shape _ _ _ Ec)].
  - apply parsed_section_insert; [exact Ha | exact (cell_value_shape _ _ _ Ea)].
Qed.

Lemma process_row_shape cq ann fd r fd' :
  process_row cq ann fd r = Ok fd' → shaped fd → shaped fd'.
Proof.
  destruct r as [|[label|] rest]; cbn [process_row];
    try (intros [= <-]; auto; fail).
  destruct (assign_if RT "Revenue" cq ann label _ fd) as [fd1 | e] eqn:E1;
    [| discriminate].
  cbn [mbind result_bind].
  destruct (assign_if OPT "Operating Profit" cq ann label _ fd1) as [fd2 | e]
    eqn:E2; [| discriminate].
  cbn [mbind result_bind]. intros E3 Hfd.
  apply (assign_if_shape NPT NetProfit _ _ _ _ _ _ E3).
  apply (assign_if_shape OPT OperatingProfit _ _ _ _ _ _ E2).
  apply (assign_if_shape RT Revenue _ _ _ _ _ _ E1). exact Hfd.
Qed.

Lemma process_rows_shape cq ann t : ∀ fd fd',
  process_rows cq ann fd t = Ok fd' → shaped fd → shaped fd'.
Proof.
  induction t as [|r t IH]; intros fd fd'; cbn [process_rows].
  - intros [= <-]. auto.
  - destruct (process_row cq ann fd r) as [fd1 | e] eqn:E1; [| discriminate].
    cbn [mbind result_bind]. intros E Hfd.
    apply (IH fd1 fd' E). exact (process_row_shape _ _ _ _ _ E1 Hfd).
Qed.

Lemma unset_data_shaped : shaped (unset_data (float := float)).
Proof. split; apply unset_section_parsed. Qed.

Lemma extract_from_rows_shape (t : table) :
  match extract_from_rows t with
  | Ok fd => shaped fd
  | Raise e => e = ValueError
  end.
Proof.
  unfold extract_from_rows. destruct t as [|header rest].
  - apply unset_data_shaped.
  - destruct (scan_header header 0 None None) as [[cq|] [ann|]];
      try apply unset_data_shaped.
    pose proof (process_rows_result cq ann (header :: rest) unset_data) as Hres.
    destruct (process_rows cq ann unset_data (header :: rest)) as [fd | e] eqn:E.
    + exact (process_rows_shape _ _ _ _ _ E unset_data_shaped).
    + tauto.
Qed.

Lemma extract_values_outcome (arg : table_or_text) :
  match extract_financial_values arg with
  | Ok fd => shaped fd
  | Raise e => e = ValueError
  end.
Proof.
  destruct arg as [t | s |]; cbn [extract_financial_values].
  - apply extract_from_rows_shape.
  - apply extract_from_rows_shape.
  - apply unset_data_shaped.
Qed.

(** Whatever it is handed, [extract_financial_values] either raises
    [ValueError] or returns two sections that hold exactly the keys
    "Revenue", "Operating Profit" and "Net Profit", each of them unset or a
    float. *)
Theorem extract_financial_values_shape (arg : table_or_text) :
  match extract_financial_values arg with
  | Ok fd =>
      parsed_section (current_quarter fd) ∧ parsed_section (annual_data fd)
  | Raise e => e = ValueError
  end.
Proof.
  destruct arg as [t | s |]; cbn [extract_financial_values].
  - apply extract_from_rows_shape.
  - apply extract_from_rows_shape.
  - apply unset_data_shaped.
Qed.

(** A header of one cell that holds one character carries no marker. *)
Lemma scan_single_char c :
  scan_header [Some (String c EmptyString)] 0 None None = (None, None).
Proof.
  cbn [scan_header cell_truth cell_str default from_option id Str.nonempty andb
       Str.lower].
  assert (Hp : Str.contains "Particular" (String c EmptyString) = false)
    by (apply StripFacts.contains_longer; cbn; lia).
  assert (Hy : Str.contains "year ended"
                 (String (Str.ascii_lower c) EmptyString) = false)
    by (apply StripFacts.contains_longer; cbn; lia).
  rewrite Hp, Hy. reflexivity.
Qed.

Lemma extract_from_text s :
  extract_financial_values (IsText s) = Ok unset_data.
Proof.
  cbn [extract_financial_values]. unfold extract_from_rows, text_as_table.
  destruct s as [|c r]; [reflexivity |].
  cbn [list_ascii_of_string fmap list_fmap].
  rewrite scan_single_char. reflexivity.
Qed.

(** Rows that no dictionary matches do not take part. *)
Lemma process_rows_filter cq ann t : ∀ fd,
  process_rows cq ann fd t = process_rows cq ann fd (List.filter row_matched t).
Proof.
  induction t as [|r t IH]; intros fd; [reflexivity |].
  cbn [List.filter]. destruct (row_matched r) eqn:Hm; cbn [process_rows].
  - destruct (process_row cq ann fd r) as [fd1 | e]; [apply IH | reflexivity].
  - rewrite (process_row_unmatched _ _ _ _ Hm). apply IH.
Qed.

(** The result of [extract_financial_values] on a table is that on the
    table without the data rows that match no dictionary: rows with an
    absent or empty first cell, empty rows and rows with other labels
    change nothing, neither a value nor an error. *)
Theorem unmatched_rows_ignored (header : row) (rest : table) :
  extract_financial_values (IsTable (header :: rest)) =
  extract_financial_values (IsTable (header :: List.filter row_matched rest)).
Proof.
  cbn [extract_financial_values extract_from_rows].
  destruct (scan_header header 0 None None) as [[cq|] [ann|]]; try reflexivity.
  cbn [process_rows].
  destruct (process_row cq ann unset_data header) as [fd1 | e];
    [apply process_rows_filter | reflexivity].
Qed.

Lemma find_over_app {A} (P : A → bool) (l1 l2 : list A) :
  List.find P (l1 ++ l2) =
    match List.find P l1 with
    | Some x => Some x
    | None => List.find P l2
    end.
Proof.
  induction l1 as [|x l1 IH]; [reflexivity |].
  cbn [List.find app]. destruct (P x); [reflexivity | exact IH].
Qed.

(** What one row does to the fields of each metric. *)
Lemma process_row_effect cq ann (fd : fin_data float) (r : row) :
  row_parses cq ann r →
  ∃ fd', process_row cq ann fd r = Ok fd' ∧
    ∀ m,
      if row_matches_metric m r then
        field_from r cq (current_quarter fd' !! key_of m) ∧
        field_from r ann (annual_data fd' !! key_of m)
      else
        current_quarter fd' !! key_of m = current_quarter fd !! key_of m ∧
        annual_data fd' !! key_of m = annual_data fd !! key_of m.
Proof.
  intros Hp. destruct (row_matched r) eqn:Hm.
  - destruct r as [|[label|] rest]; try discriminate.
    destruct (Hp Hm) as [Hc Ha].
    destruct (cell_value_parses _ _ Hc) as (vc & Ec & Fc).
    destruct (cell_value_parses _ _ Ha) as (va & Ea & Fa).
    eexists. split; [exact (process_row_ok cq ann fd label rest vc va Ec Ea) |].
    intros m.
    destruct (store_if_lookup (matched RT label) (matched OPT label)
                (matched NPT label) vc va fd m) as [E1 E2].
    rewrite E1, E2. cbn [row_matches_metric].
    destruct m; cbn [dict_of];
      match goal with |- if ?b then _ else _ => destruct b end; auto.
  - exists fd. split; [apply process_row_unmatched, Hm |].
    intros m. destruct r as [|[label|] rest]; cbn [row_matches_metric]; auto.
    cbn [row_matched] in Hm.
    apply orb_false_iff in Hm as [Hm Hn]. apply orb_false_iff in Hm as [Hr Ho].
    destruct m; cbn [dict_of]; rewrite ?Hr, ?Ho, ?Hn; auto.
Qed.

Lemma process_rows_effect cq ann (t : table) : ∀ fd : fin_data float,
  Forall (row_parses cq ann) t →
  ∃ fd', process_rows cq ann fd t = Ok fd' ∧
    ∀ m,
      match last_matching m t with
      | Some r =>
          field_from r cq (current_quarter fd' !! key_of m) ∧
          field_from r ann (annual_data fd' !! key_of m)
      | None =>
          current_quarter fd' !! key_of m = current_quarter fd !! key_of m ∧
          annual_data fd' !! key_of m = annual_data fd !! key_of m
      end.
Proof.
  induction t as [|r t IH]; intros fd Hall.
  - exists fd. split; [reflexivity |]. intros m. cbn. auto.
  - inversion Hall as [|? ? Hr Ht]; subst.
    destruct (process_row_effect cq ann fd r Hr) as (fd1 & E1 & Hfd1).
    destruct (IH fd1 Ht) as (fd' & E & Hfd').
    exists fd'. split; [cbn [process_rows]; rewrite E1; exact E |].
    intros m. specialize (Hfd1 m). specialize (Hfd' m).
    unfold last_matching in *. cbn [rev]. rewrite find_over_app.
    destruct (List.find (row_matches_metric m) (rev t)) as [r'|]; [exact Hfd' |].
    cbn [List.find]. destruct (row_matches_metric m r).
    + destruct Hfd' as [-> ->]. exact Hfd1.
    + destruct Hfd' as [-> ->]. exact Hfd1.
Qed.

(** On a table whose header carries both markers and whose matched rows
    have cells that read as floats, [extract_financial_values] returns,
    for each metric, what the current-period and annual cells of the last
    row matched by the dictionary of the metric give - the header row
    counts as a row - and leaves both fields unset when no row is
    matched. *)
Theorem last_matching_row_decides (header : row) (rest : table) cq ann :
  scan_header header 0 None None = (Some cq, Some ann) →
  Forall (row_parses cq ann) (header :: rest) →
  ∃ fd, extract_financial_values (IsTable (header :: rest)) = Ok fd ∧
    ∀ m, decided_by_last cq ann (header :: rest) m fd.
Proof.
  intros Hscan Hall. cbn [extract_financial_values extract_from_rows].
  rewrite Hscan.
  destruct (process_rows_effect cq ann (header :: rest) unset_data Hall)
    as (fd & E & Hfd).
  exists fd. split; [exact E |]. intros m. specialize (Hfd m).
  unfold decided_by_last. destruct (last_matching m (header :: rest)); [exact Hfd |].
  destruct Hfd as [-> ->]. destruct m; split; reflexivity.
Qed.

Lemma find_none_rev {A} (P : A → bool) (l : list A) :
  Forall (λ x, P x = false) l → List.find P (rev l) = None.
Proof.
  intros Hall. destruct (List.find P (rev l)) as [x|] eqn:E; [| reflexivity].
  apply find_some in E as [Hin Hp]. apply in_rev in Hin.
  rewrite Forall_forall in Hall. apply list_elem_of_In in Hin.
  rewrite (Hall x Hin) in Hp. discriminate.
Qed.

(** The last match of a dictionary, around one row of the table. *)
Lemma last_matching_here m (above : table) (r : row) (below : table) :
  row_matches_metric m r = true →
  Forall (λ r', row_matches_metric m r' = false) below →
  last_matching m (above ++ r :: below) = Some r.
Proof.
  intros Hr Hbelow. unfold last_matching.
  rewrite rev_app_distr. cbn [rev]. rewrite <- app_assoc, find_over_app.
  rewrite (find_none_rev _ _ Hbelow). cbn [app List.find]. rewrite Hr.
  reflexivity.
Qed.

Lemma last_matching_skip m (above : table) (r : row) (below : table) :
  row_matches_metric m r = false →
  last_matching m (above ++ r :: below) = last_matching m (above ++ below).
Proof.
  intros Hr. unfold last_matching.
  rewrite !rev_app_distr. cbn [rev]. rewrite <- app_assoc, !find_over_app.
  cbn [app List.find]. rewrite Hr. reflexivity.
Qed.

Lemma field_from_unique (r : row) i (v w : option (pyval float)) :
  field_from r i v → field_from r i w → v = w.
Proof.
  unfold field_from. destruct (targeted i r) as [s|].
  - intros (x & Hx & ->) (y & Hy & ->). congruence.
  - congruence.
Qed.

(** A labelled row inside a table: the fields of the metrics it matches
    come from it unless a later row overwrites them, the other fields
    are those of the table without the row. *)
Lemma row_in_table (header : row) (above below : table) (r : row)
    cq ann label :
  scan_header header 0 None None = (Some cq, Some ann) →
  Forall (row_parses cq ann) (header :: above ++ r :: below) →
  r !! 0 = Some (Some label) →
  ∃ fd fd0,
    extract_financial_values (IsTable (header :: above ++ r :: below)) = Ok fd ∧
    extract_financial_values (IsTable (header :: above ++ below)) = Ok fd0 ∧
    ∀ m,
      if matched (dict_of m) label then
        Forall (λ r', row_matches_metric m r' = false) below →
        field_from r cq (current_quarter fd !! key_of m) ∧
        field_from r ann (annual_data fd !! key_of m)
      else
        current_quarter fd !! key_of m = current_quarter fd0 !! key_of m ∧
        annual_data fd !! key_of m = annual_data fd0 !! key_of m.
Proof.
  intros Hscan Hall Hlabel.
  assert (Hrows : ∀ rest,
            extract_financial_values (IsTable (header :: rest))
            = process_rows cq ann unset_data (header :: rest)).
  { intros rest. cbn [extract_financial_values extract_from_rows].
    rewrite Hscan. reflexivity. }
  assert (Hall0 : Forall (row_parses cq ann) (header :: above ++ below)).
  { inversion Hall as [|? ? Hh Hrest]; subst. constructor; [exact Hh |].
    apply Forall_app in Hrest as [Ha Hb]. inversion Hb; subst.
    apply Forall_app. auto. }
  destruct (process_rows_effect cq ann _ unset_data Hall) as (fd & E & Hfd).
  destruct (process_rows_effect cq ann _ unset_data Hall0) as (fd0 & E0 & Hfd0).
  exists fd, fd0. rewrite !Hrows.
  split; [exact E |]. split; [exact E0 |].
  intros m. specialize (Hfd m). specialize (Hfd0 m).
  destruct r as [|c0 cells]; [discriminate |]. injection Hlabel as ->.
  change (header :: above ++ (Some label :: cells) :: below)
    with ((header :: above) ++ (Some label :: cells) :: below) in Hfd.
  change (header :: above ++ below) with ((header :: above) ++ below) in Hfd0.
  destruct (matched (dict_of m) label) eqn:Hm.
  - intros Hbelow.
    rewrite (last_matching_here m _ (Some label :: cells) below Hm Hbelow) in Hfd.
    exact Hfd.
  - rewrite (last_matching_skip m _ (Some label :: cells) below Hm) in Hfd.
    destruct (last_matching m ((header :: above) ++ below)) as [r'|].
    + destruct Hfd as [F1 F2], Hfd0 as [G1 G2].
      split; eapply field_from_unique; eassumption.
    + destruct Hfd as [-> ->], Hfd0 as [-> ->]. auto.
Qed.

(** C7. On a table whose header carries both markers and whose matched
    rows have cells that read as floats (or are missing), take a row
    whose first cell is a label.  Once the loop of
    [extract_financial_values] has passed the row - the result for the
    table cut after it -, the fields of every metric whose dictionary
    matches the label, one, two or all three of them, hold what the
    current-period and the annual cell of that same row give.  In the
    result for the whole table they still do, unless a later row is
    matched by the dictionary of that metric and overwrites them (the
    later row decides, C4); and the fields of the metrics whose
    dictionary does not match the label are what they are for the table
    without the row. *)
Theorem multi_dictionary_row (header : row) (above below : table) (r : row)
    cq ann label :
  scan_header header 0 None None = (Some cq, Some ann) →
  Forall (row_parses cq ann) (header :: above ++ r :: below) →
  r !! 0 = Some (Some label) →
  ∃ fd_row fd fd0,
    extract_financial_values (IsTable (header :: above ++ [r])) = Ok fd_row ∧
    extract_financial_values (IsTable (header :: above ++ r :: below)) = Ok fd ∧
    extract_financial_values (IsTable (header :: above ++ below)) = Ok fd0 ∧
    ∀ m,
      if matched (dict_of m) label then
        (field_from r cq (current_quarter fd_row !! key_of m) ∧
         field_from r ann (annual_data fd_row !! key_of m)) ∧
        (Forall (λ r', row_matches_metric m r' = false) below →
         field_from r cq (current_quarter fd !! key_of m) ∧
         field_from r ann (annual_data fd !! key_of m))
      else
        current_quarter fd !! key_of m = current_quarter fd0 !! key_of m ∧
        annual_data fd !! key_of m = annual_data fd0 !! key_of m.
Proof.
  intros Hscan Hall Hlabel.
  assert (Hcut : Forall (row_parses cq ann) (header :: above ++ [r])).
  { inversion Hall as [|? ? Hh Hrest]; subst. constructor; [exact Hh |].
    apply Forall_app in Hrest as [Ha Hb]. inversion Hb; subst.
    apply Forall_app. auto. }
  destruct (row_in_table header above [] r cq ann label Hscan Hcut Hlabel)
    as (fd_row & fd_cut & Erow & _ & Hrow).
  destruct (row_in_table header above below r cq ann label Hscan Hall Hlabel)
    as (fd & fd0 & E & E0 & Hfd).
  exists fd_row, fd, fd0.
  split; [exact Erow |]. split; [exact E |]. split; [exact E0 |].
  intros m. specialize (Hrow m). specialize (Hfd m).
  destruct (matched (dict_of m) label); [| exact Hfd].
  split; [apply Hrow; constructor | exact Hfd].
Qed.

End FurtherExtraction.

(** ** The table locator *)

Lemma has_marker_true t : has_marker t = Ok true ↔ marked t.
Proof.
  unfold has_marker, marked. destruct t as [|header rows].
  - split; [discriminate | intros (h & r & [=] & _)].
  - fold marker_cell. split.
    + intros [= Hex]. exists header, rows. split; [reflexivity |].
      apply Exists_exists. apply existsb_exists in Hex as (c & Hin & Hc).
      exists c. split; [apply list_elem_of_In, Hin | exact Hc].
    + intros (h & r & [= <- <-] & Hex). f_equal. apply existsb_exists.
      apply Exists_exists in Hex as (c & Hin & Hc).
      exists c. split; [apply list_elem_of_In, Hin | exact Hc].
Qed.

Lemma has_marker_false t : has_marker t = Ok false ↔ unmarked t.
Proof.
  unfold has_marker, unmarked. destruct t as [|header rows].
  - split; [discriminate | intros (h & r & [=] & _)].
  - fold marker_cell. split.
    + intros [= Hex]. exists header, rows. split; [reflexivity |].
      apply Forall_forall. intros c Hin.
      destruct (marker_cell c) eqn:Hc; [| reflexivity].
      assert (existsb marker_cell header = true) as Ht.
      { apply existsb_exists. exists c. split; [apply list_elem_of_In, Hin | auto]. }
      congruence.
    + intros (h & r & [= <- <-] & Hall). f_equal.
      destruct (existsb marker_cell header) eqn:Hex; [| reflexivity].
      apply existsb_exists in Hex as (c & Hin & Hc).
      rewrite Forall_forall in Hall.
      rewrite (Hall c) in Hc; [discriminate | apply list_elem_of_In, Hin].
Qed.

Lemma has_marker_cases t :
  (t = [] ∧ has_marker t = Raise IndexError) ∨
  (marked t ∧ has_marker t = Ok true) ∨
  (unmarked t ∧ has_marker t = Ok false).
Proof.
  destruct t as [|header rows]; [left; auto | right].
  destruct (has_marker (header :: rows)) as [[|]|e] eqn:E.
  - left. split; [apply has_marker_true, E | reflexivity].
  - right. split; [apply has_marker_false, E | reflexivity].
  - discriminate.
Qed.

(** The three ways the search through the tables of a page can end. *)
Lemma find_marked_cases tables :
  match find_marked tables with
  | Ok (Some t) =>
      ∃ before after, tables = before ++ t :: after ∧
        Forall unmarked before ∧ marked t
  | Ok None => Forall unmarked tables
  | Raise e =>
      e = IndexError ∧
      ∃ before after, tables = before ++ [] :: after ∧ Forall unmarked before
  end.
Proof.
  induction tables as [|t tables IH]; cbn [find_marked]; [constructor |].
  destruct (has_marker_cases t) as [[-> ->] | [[Ht ->] | [Ht ->]]];
    cbn [mbind result_bind].
  - split; [reflexivity |]. exists [], tables. split; [reflexivity | constructor].
  - exists [], tables. split; [reflexivity |]. split; [constructor | exact Ht].
  - destruct (find_marked tables) as [[t'|]|e].
    + destruct IH as (before & after & -> & Hb & Ht').
      exists (t :: before), after. split; [reflexivity |].
      split; [constructor; assumption | exact Ht'].
    + constructor; assumption.
    + destruct IH as (-> & before & after & -> & Hb). split; [reflexivity |].
      exists (t :: before), after. split; [reflexivity | constructor; assumption].
Qed.

(** The text read from the images of a page is blank exactly when every
    image gave white space only. *)
Lemma ocr_text_blank (p : page) :
  Str.nonempty (extract_text_from_image p) =
    negb (forallb all_space (ocr_images p)).
Proof.
  unfold extract_text_from_image. rewrite StripFacts.strip_blank. f_equal.
  assert (Hfold : ∀ texts acc,
            all_space (fold_left (λ extracted_text text,
                                    extracted_text +:+ text +:+ newline)
                         texts acc)
            = all_space acc && forallb all_space texts).
  { induction texts as [|text texts IH]; intros acc; cbn [fold_left forallb].
    - rewrite andb_true_r. reflexivity.
    - rewrite IH, !StripFacts.all_space_app.
      change (all_space newline) with true. rewrite andb_true_r, andb_assoc.
      reflexivity. }
  rewrite Hfold. reflexivity.
Qed.

(** When [extract_table_or_text] returns a table, it is a table of the
    first page, the first one there whose header row has a cell that
    contains "Particulars"; the tables before it on that page have a header
    row without the marker, and the other pages play no part. *)
Theorem located_table_is_first_marked (pdf : list page) (t : table) :
  extract_table_or_text pdf = Ok (IsTable t) →
  ∃ p others before after,
    pdf = p :: others ∧ extract_tables p = before ++ t :: after ∧
    Forall unmarked before ∧ marked t.
Proof.
  destruct pdf as [|p others]; [discriminate |].
  cbn [extract_table_or_text].
  pose proof (find_marked_cases (extract_tables p)) as Hfind.
  destruct (find_marked (extract_tables p)) as [[t'|]|e]; cbn [mbind result_bind].
  - intros [= <-]. destruct Hfind as (before & after & Htab & Hb & Ht).
    exists p, others, before, after. auto.
  - destruct (Str.nonempty _); discriminate.
  - discriminate.
Qed.

(** When [extract_table_or_text] returns text, the first page has no
    table with the marker, and the text is what the OCR of that page
    gave, stripped: it is not empty and neither starts nor ends with white
    space. *)
Theorem located_text_is_stripped (pdf : list page) (s : string) :
  extract_table_or_text pdf = Ok (IsText s) →
  ∃ p others,
    pdf = p :: others ∧ Forall unmarked (extract_tables p) ∧
    s = extract_text_from_image p ∧
    Str.nonempty s = true ∧ padded s = false ∧ Str.strip s = s.
Proof.
  destruct pdf as [|p others]; [discriminate |].
  cbn [extract_table_or_text].
  pose proof (find_marked_cases (extract_tables p)) as Hfind.
  destruct (find_marked (extract_tables p)) as [[t'|]|e]; cbn [mbind result_bind];
    try discriminate.
  unfold extract_text_from_image at 1. rewrite StripFacts.strip_idem.
  fold (extract_text_from_image p).
  destruct (Str.nonempty (extract_text_from_image p)) eqn:Hne; [| discriminate].
  intros [= <-]. exists p, others.
  repeat split; try assumption.
  - apply StripFacts.strip_not_padded.
  - apply StripFacts.strip_idem.
Qed.

(** [extract_table_or_text] returns [None] in two cases only: the PDF has
    no page, or its first page has no table with the marker and every
    image of it gave white space only. *)
Theorem located_nothing (pdf : list page) :
  extract_table_or_text pdf = Ok IsNone ↔
  pdf = [] ∨
  ∃ p others, pdf = p :: others ∧ Forall unmarked (extract_tables p) ∧
    forallb all_space (ocr_images p) = true.
Proof.
  destruct pdf as [|p others].
  - split; [auto | reflexivity].
  - cbn [extract_table_or_text].
    pose proof (find_marked_cases (extract_tables p)) as Hfind.
    split.
    + intros Hnone. right. exists p, others. split; [reflexivity |].
      destruct (find_marked (extract_tables p)) as [[t'|]|e];
        cbn [mbind result_bind] in Hnone; try discriminate.
      split; [exact Hfind |].
      unfold extract_text_from_image at 1 in Hnone.
      rewrite StripFacts.strip_idem in Hnone.
      fold (extract_text_from_image p) in Hnone.
      destruct (Str.nonempty (extract_text_from_image p)) eqn:Hne;
        [discriminate |].
      rewrite ocr_text_blank in Hne. apply negb_false_iff, Hne.
    + intros [[=] | (p' & others' & [= <- <-] & Hun & Hocr)].
      destruct (find_marked (extract_tables p)) as [[t'|]|e];
        cbn [mbind result_bind].
      * exfalso. destruct Hfind as (before & after & Htab & _ & Ht).
        rewrite Htab in Hun. apply Forall_app in Hun as [_ Hun].
        inversion Hun as [|? ? Hu _]; subst.
        destruct Ht as (h & r & -> & Hex), Hu as (h' & r' & [= <- <-] & Hall).
        apply Exists_exists in Hex as (c & Hin & Hc).
        rewrite Forall_forall in Hall. rewrite (Hall c Hin) in Hc. discriminate.
      * unfold extract_text_from_image at 1. rewrite StripFacts.strip_idem.
        fold (extract_text_from_image p).
        rewrite ocr_text_blank, Hocr. reflexivity.
      * exfalso. destruct Hfind as (_ & before & after & Htab & _).
        rewrite Htab in Hun. apply Forall_app in Hun as [_ Hun].
        inversion Hun as [|? ? Hu _]; subst.
        destruct Hu as (h & r & [=] & _).
Qed.

(** [extract_table_or_text] raises only [IndexError], and only when the
    first page has a table without rows that no table with the marker
    precedes. *)
Theorem locator_raises_on_empty_table (pdf : list page) (e : exn) :
  extract_table_or_text pdf = Raise e →
  e = IndexError ∧
  ∃ p others before after,
    pdf = p :: others ∧ extract_tables p = before ++ [] :: after ∧
    Forall unmarked before.
Proof.
  destruct pdf as [|p others]; [discriminate |].
  cbn [extract_table_or_text].
  pose proof (find_marked_cases (extract_tables p)) as Hfind.
  destruct (find_marked (extract_tables p)) as [[t'|]|e']; cbn [mbind result_bind].
  - discriminate.
  - destruct (Str.nonempty _); discriminate.
  - intros [= <-]. destruct Hfind as (-> & before & after & Htab & Hb).
    split; [reflexivity |]. exists p, others, before, after. auto.
Qed.

(** ** The locator and the column mapping together *)

Lemma last_true_exists P (h : row) :
  Exists (λ c, P c = true) h → ∃ k, last_true P h = Some k ∧ k < length h.
Proof.
  induction 1 as [c h Hc | c h _ IH]; cbn [last_true length].
  - destruct (last_true P h) as [k|] eqn:E.
    + assert (k < length h) as Hk.
      { clear Hc. revert k E. induction h as [|d h IHh]; intros k; [discriminate |].
        cbn [last_true length]. destruct (last_true P h) as [j|].
        - intros [= <-]. specialize (IHh j eq_refl). lia.
        - destruct (P d); [intros [= <-]; lia | discriminate]. }
      exists (S k). split; [reflexivity | lia].
    + rewrite Hc. exists 0. split; [reflexivity | lia].
  - destruct IH as (k & -> & Hk). exists (S k). split; [reflexivity | lia].
Qed.

Lemma last_true_is_none P (h : row) :
  last_true P h = None ↔ Forall (λ c, P c = false) h.
Proof.
  split; [| apply last_true_none].
  induction h as [|c h IH]; cbn [last_true]; [constructor |].
  destruct (last_true P h); [discriminate |].
  destruct (P c) eqn:Hc; [discriminate |]. constructor; auto.
Qed.

Lemma marker_cell_particular c : marker_cell c = true → particular_cell c = true.
Proof.
  unfold marker_cell, particular_cell. rewrite !andb_true_iff.
  intros [Ht Hc]. split; [exact Ht |].
  eapply StripFacts.contains_trans; [| exact Hc]. reflexivity.
Qed.

(** A table that [extract_table_or_text] returns always has its
    current-period column mapped, to an index within or just past its
    header row: the header scan can then fail on the annual column only,
    and it does so exactly when no header cell contains "year ended". *)
Theorem located_table_maps_current_column (pdf : list page) (t : table) :
  extract_table_or_text pdf = Ok (IsTable t) →
  ∃ header rows cq,
    t = header :: rows ∧
    (scan_header header 0 None None).1 = Some cq ∧
    (1 ≤ cq ≤ length header)%nat ∧
    ((scan_header header 0 None None).2 = None ↔
     Forall (λ c, year_cell c = false) header).
Proof.
  destruct pdf as [|p others]; [discriminate |].
  cbn [extract_table_or_text].
  pose proof (find_marked_cases (extract_tables p)) as Hfind.
  destruct (find_marked (extract_tables p)) as [[t'|]|e]; cbn [mbind result_bind].
  - intros [= <-]. destruct Hfind as (_ & _ & _ & _ & header & rows & -> & Hex).
    assert (Hp : Exists (λ c, particular_cell c = true) header).
    { eapply Exists_impl; [exact Hex |]. intros c. apply marker_cell_particular. }
    destruct (last_true_exists _ _ Hp) as (k & Hk & Hlt).
    exists header, rows, (k + 1). split; [reflexivity |].
    rewrite scan_header_last, Hk. cbn [fst snd]. split; [reflexivity |].
    split; [lia |].
    rewrite <- last_true_is_none.
    destruct (last_true year_cell header); split; congruence.
  - destruct (Str.nonempty _); discriminate.
  - discriminate.
Qed.

(** ** The pipeline as a whole *)

Section FurtherPipeline.
Context `{PyFloat float}.

Lemma find_marked_unmarked tables :
  Forall unmarked tables → find_marked tables = Ok None.
Proof.
  induction 1 as [|t tables Ht _ IH]; [reflexivity |].
  cbn [find_marked]. apply has_marker_false in Ht. rewrite Ht.
  cbn [mbind result_bind]. exact IH.
Qed.

Lemma local_parse_outcome (pdf : list page) :
  match local_parse (float := float) pdf with
  | Ok fd => shaped fd
  | Raise e => e = ValueError ∨ e = IndexError
  end.
Proof.
  unfold local_parse.
  destruct (extract_table_or_text pdf) as [arg | e] eqn:E; cbn [mbind result_bind].
  - pose proof (extract_values_outcome arg) as Hout.
    destruct (extract_financial_values arg); [exact Hout | left; exact Hout].
  - right. destruct pdf as [|p others]; [discriminate |].
    cbn [extract_table_or_text] in E.
    pose proof (find_marked_cases (extract_tables p)) as Hfind.
    destruct (find_marked (extract_tables p)) as [[t'|]|e'];
      cbn [mbind result_bind] in E.
    + discriminate.
    + destruct (Str.nonempty _); discriminate.
    + injection E as <-. tauto.
Qed.

Lemma local_parse_unmarked (p : page) (others : list page) :
  Forall unmarked (extract_tables p) →
  local_parse (float := float) (p :: others) = Ok unset_data.
Proof.
  intros Hun. unfold local_parse. cbn [extract_table_or_text].
  rewrite (find_marked_unmarked _ Hun). cbn [mbind result_bind].
  destruct (Str.nonempty _); [apply extract_from_text | reflexivity].
Qed.

Lemma document_text_blank (pdf : list page) :
  Str.nonempty (Str.strip (document_text pdf)) =
    negb (forallb (λ p, all_space (default "" (extract_text p))) pdf).
Proof.
  rewrite StripFacts.strip_blank. f_equal. unfold document_text.
  assert (Hfold : ∀ pages acc,
            all_space (fold_left (λ extracted_text p,
                                    extracted_text +:+ default "" (extract_text p))
                         pages acc)
            = all_space acc &&
              forallb (λ p, all_space (default "" (extract_text p))) pages).
  { induction pages as [|p pages IH]; intros acc; cbn [fold_left forallb].
    - rewrite andb_true_r. reflexivity.
    - rewrite IH, StripFacts.all_space_app, andb_assoc. reflexivity. }
  rewrite Hfold. reflexivity.
Qed.

Lemma finish_lookups text unit (fd1 : fin_data float) name :
  match finish text unit fd1 name with
  | Financials name' fd =>
      name' = name ∧
      current_quarter fd !! "Unit" = Some (VStr unit) ∧
      annual_data fd !! "Unit" = Some (VStr unit) ∧
      annual_data fd !! "Year" =
        Some (VStr (default "Unknown Year" (Re.search false year_pattern text))) ∧
      ∀ m, current_quarter fd !! key_of m = current_quarter fd1 !! key_of m ∧
           annual_data fd !! key_of m = annual_data fd1 !! key_of m
  | ErrorObject _ _ => False
  end.
Proof.
  cbn [finish current_quarter annual_data].
  split; [reflexivity |]. split; [apply lookup_insert_eq |].
  split; [apply lookup_insert_eq |].
  split; [rewrite lookup_insert_ne by discriminate; apply lookup_insert_eq |].
  intros m. destruct m; cbn [key_of];
    rewrite !lookup_insert_ne by discriminate; auto.
Qed.

(** [update] removes no key. *)
Lemma update_items_keeps (elements : list (pyval float)) k : ∀ d d',
  update_items d elements = Ok d' → is_Some (d !! k) → is_Some (d' !! k).
Proof.
  induction elements as [|element rest IH]; intros d d'; cbn [update_items].
  - intros [= <-]. auto.
  - destruct (update_item element) as [[[k' v]|] | e]; cbn [mbind result_bind];
      [| apply IH | discriminate].
    intros Hrest Hk. apply (IH _ _ Hrest).
    apply lookup_insert_is_Some'. auto.
Qed.

Lemma dict_update_keeps (d d' : gmap string (pyval float)) v k :
  dict_update d v = Ok d' → is_Some (d !! k) → is_Some (d' !! k).
Proof.
  destruct v as [| b | n | x | s | l | items]; cbn [dict_update];
    try discriminate.
  - destruct s; [| discriminate]. intros [= <-]. auto.
  - apply update_items_keeps.
  - intros [= <-] Hk. rewrite lookup_update.
    destruct (entries items !! k); [eauto | exact Hk].
Qed.

Lemma merge_ai_keeps (ai : ai_data float) fd name merged k :
  merge_ai ai fd name = Ok merged →
  (is_Some (current_quarter fd !! k) → is_Some (current_quarter merged.1 !! k)) ∧
  (is_Some (annual_data fd !! k) → is_Some (annual_data merged.1 !! k)).
Proof.
  unfold merge_ai.
  destruct (dict_update (current_quarter fd) _) as [cq | e1] eqn:Hcq;
    cbn [mbind result_bind]; [| discriminate].
  destruct (dict_update (annual_data fd) _) as [ad | e2] eqn:Had;
    cbn [mbind result_bind]; [| discriminate].
  intros [= <-]. cbn [fst current_quarter annual_data].
  split; [exact (dict_update_keeps _ _ _ _ Hcq) | exact (dict_update_keeps _ _ _ _ Had)].
Qed.

(** The end of the run on sections that hold the metric keys. *)
Lemma conclude_outcome text (merged : fin_data float * pyval float) :
  (∀ m, is_Some (current_quarter merged.1 !! key_of m) ∧
        is_Some (annual_data merged.1 !! key_of m)) →
  match conclude text merged with
  | Ok (ErrorObject status message) =>
      status = 404%Z ∧ message = "No financial data found in the document."
  | Ok (Financials name fd) =>
      current_quarter fd !! "Unit" = Some (VStr (detect_fin_unit text)) ∧
      annual_data fd !! "Unit" = Some (VStr (detect_fin_unit text)) ∧
      annual_data fd !! "Year" =
        Some (VStr (default "Unknown Year" (Re.search false year_pattern text))) ∧
      ∀ m, is_Some (current_quarter fd !! key_of m) ∧
           is_Some (annual_data fd !! key_of m)
  | Raise e => False
  end.
Proof.
  intros Hkeys. unfold conclude.
  destruct (negb (any_values (current_quarter merged.1)) &&
            negb (any_values (annual_data merged.1))).
  - split; reflexivity.
  - pose proof (finish_lookups text (detect_fin_unit text) merged.1 merged.2)
      as Hfin.
    destruct (finish text (detect_fin_unit text) merged.1 merged.2)
      as [|name fd]; [contradiction |].
    destruct Hfin as (_ & Hu1 & Hu2 & Hy & Hm).
    split; [exact Hu1 |]. split; [exact Hu2 |]. split; [exact Hy |].
    intros m. destruct (Hm m) as [-> ->]. apply Hkeys.
Qed.

(** What [extract_fin_data] can hand back.  Of its own - the PDF
    library, the OCR and the call of the model apart - it raises
    [ValueError], [IndexError] or [TypeError] and nothing else: the first
    two come from the local parse, and the merge of an answer whose
    sections are not objects raises [TypeError] or [ValueError].  An
    error object is the 404 object with its one message; and a record
    has, in both sections, the three metric keys and a "Unit" equal to
    the unit detected in the document text, and in the annual section a
    "Year" equal to the first four-digit token of the text or "Unknown
    Year" - a unit or year that the answer of the model carried does not
    survive. *)
Theorem extract_fin_data_contract llm (pdf : list page) :
  let text := document_text pdf in
  match returned (extract_fin_data (float := float) llm pdf) with
  | Ok (ErrorObject status message) =>
      status = 404%Z ∧ message = "No financial data found in the document."
  | Ok (Financials name fd) =>
      current_quarter fd !! "Unit" = Some (VStr (detect_fin_unit text)) ∧
      annual_data fd !! "Unit" = Some (VStr (detect_fin_unit text)) ∧
      annual_data fd !! "Year" =
        Some (VStr (default "Unknown Year" (Re.search false year_pattern text))) ∧
      ∀ m, is_Some (current_quarter fd !! key_of m) ∧
           is_Some (annual_data fd !! key_of m)
  | Raise e => e = ValueError ∨ e = IndexError ∨ e = TypeError
  end.
Proof.
  intros text.
  destruct (Str.nonempty (Str.strip (document_text pdf))) eqn:Htext.
  - pose proof (local_parse_outcome pdf) as Hlocal.
    destruct (local_parse pdf) as [fd0 | e] eqn:E.
    + rewrite (extract_fin_data_parsed llm pdf fd0 Htext E). cbn [returned].
      fold text.
      assert (Hkeys0 : ∀ m, is_Some (current_quarter fd0 !! key_of m) ∧
                            is_Some (annual_data fd0 !! key_of m)).
      { intros m. destruct Hlocal as [[Hc _] [Ha _]].
        destruct (Hc m) as (vc & Evc & _), (Ha m) as (va & Eva & _).
        rewrite Evc, Eva. eauto. }
      destruct (negb (any_values (current_quarter fd0))).
      * destruct (merge_ai (default ai_empty (llm text)) fd0
                    (VStr (extract_company_name text)))
          as [merged | e] eqn:Hmerge; cbn [mbind result_bind].
        -- assert (Hkeys : ∀ m, is_Some (current_quarter merged.1 !! key_of m) ∧
                                is_Some (annual_data merged.1 !! key_of m)).
           { intros m.
             destruct (merge_ai_keeps _ _ _ _ (key_of m) Hmerge) as [Hc Ha].
             destruct (Hkeys0 m). auto. }
           pose proof (conclude_outcome text merged Hkeys) as Hout.
           destruct (conclude text merged) as [[status message | name fd] | e];
             [exact Hout | exact Hout | contradiction].
        -- destruct (merge_ai_raises _ _ _ _ Hmerge) as [-> | ->]; auto.
      * cbn [mbind result_bind].
        pose proof (conclude_outcome text
                      (fd0, VStr (extract_company_name text)) Hkeys0) as Hout.
        destruct (conclude text _) as [[status message | name fd] | e];
          [exact Hout | exact Hout | contradiction].
    + unfold extract_fin_data. rewrite Htext. cbn [negb].
      unfold local_parse in E. rewrite E. cbn [returned].
      destruct Hlocal as [-> | ->]; auto.
  - unfold extract_fin_data. rewrite Htext. cbn. split; reflexivity.
Qed.

(** A document without a text layer - every page gives no text or white
    space only - is answered by the 404 object at once: its tables are not
    looked at, no page is read by OCR and the model is not called. *)
Theorem document_without_text_rejected llm (pdf : list page) :
  no_text_layer pdf →
  extract_fin_data (float := float) llm pdf =
    {| llm_calls := []; returned := Ok no_data_error |}.
Proof.
  intros Hblank. unfold extract_fin_data.
  rewrite document_text_blank.
  assert (forallb (λ p, all_space (default "" (extract_text p))) pdf = true) as ->.
  { apply forallb_forall. intros p Hin. unfold no_text_layer in Hblank.
    rewrite Forall_forall in Hblank. apply Hblank, list_elem_of_In, Hin. }
  reflexivity.
Qed.

(** When the document has a text layer and its first page has no table
    with the marker, whatever the OCR of that page gives, the local parse
    finds nothing and the model is called, once, with the document text.
    When the two sections of the answer are JSON objects, or absent, the
    run returns the 404 object or a record whose metric fields are those
    of the answer, unset where the answer has none; when a section is
    [null], a boolean, a number or a string that is not empty, the run
    raises what [update] raises on it. *)
Theorem without_marked_table_answer_decides llm (p : page) (others : list page) :
  let pdf := p :: others in
  let text := document_text pdf in
  let ai := default ai_empty (llm text) in
  let cq := get_section (ai_current_quarter ai) in
  let ad := get_section (ai_annual_data ai) in
  Forall unmarked (extract_tables p) →
  Str.nonempty (Str.strip text) = true →
  llm_calls (extract_fin_data (float := float) llm pdf) = [text] ∧
  (∀ cq_items ad_items,
     cq = VDict cq_items → ad = VDict ad_items →
     returned (extract_fin_data llm pdf) = Ok no_data_error ∨
     ∃ name fd,
       returned (extract_fin_data llm pdf) = Ok (Financials name fd) ∧
       ∀ m, current_quarter fd !! key_of m =
              merged_entry cq_items unset_section (key_of m) ∧
            annual_data fd !! key_of m =
              merged_entry ad_items unset_section (key_of m)) ∧
  (∀ e, refused_by_update cq e →
     returned (extract_fin_data llm pdf) = Raise e) ∧
  (∀ cq_items e,
     cq = VDict cq_items → refused_by_update ad e →
     returned (extract_fin_data llm pdf) = Raise e).
Proof.
  intros pdf text ai cq ad Hun Htext.
  pose proof (local_parse_unmarked p others Hun) as Hlocal. fold pdf in Hlocal.
  rewrite (extract_fin_data_parsed llm pdf unset_data Htext Hlocal).
  cbn [current_quarter annual_data unset_data]. rewrite any_values_unset.
  cbn [negb llm_calls returned]. fold text. fold ai.
  split; [reflexivity |]. split; [| split].
  - intros cq_items ad_items Hcq Had.
    rewrite (merge_ai_objects ai unset_data _ cq_items ad_items Hcq Had).
    cbn [mbind result_bind]. unfold conclude. cbn [fst snd].
    destruct (negb _ && negb _); [left; reflexivity | right].
    pose proof (finish_lookups text (detect_fin_unit text)
                  {| current_quarter :=
                       update (current_quarter unset_data) (entries cq_items);
                     annual_data :=
                       update (annual_data unset_data) (entries ad_items) |}
                  (default (VStr (extract_company_name text)) (ai_company_name ai)))
      as Hfin.
    destruct (finish _ _ _ _) as [|name fd]; [contradiction |].
    destruct Hfin as (_ & _ & _ & _ & Hm).
    exists name, fd. split; [reflexivity |].
    intros m. destruct (Hm m) as [-> ->]. cbn [current_quarter annual_data].
    unfold merged_entry. rewrite !lookup_update. auto.
  - intros e Hcq.
    rewrite (merge_ai_refused_first ai unset_data _ e Hcq). reflexivity.
  - intros cq_items e Hcq Had.
    rewrite (merge_ai_refused_second ai unset_data _ cq_items e Hcq Had).
    reflexivity.
Qed.

(** When the local parse stored a true value in the current quarter, the
    model is not called, and the record returned carries the six metric
    fields of the local parse and the company name found in the text. *)
Theorem without_fallback_local_values_returned llm (pdf : list page)
    (fd0 : fin_data float) :
  Str.nonempty (Str.strip (document_text pdf)) = true →
  local_parse pdf = Ok fd0 →
  any_values (current_quarter fd0) = true →
  llm_calls (extract_fin_data llm pdf) = [] ∧
  ∃ fd,
    returned (extract_fin_data llm pdf) =
      Ok (Financials (VStr (extract_company_name (document_text pdf))) fd) ∧
    ∀ m, current_quarter fd !! key_of m = current_quarter fd0 !! key_of m ∧
         annual_data fd !! key_of m = annual_data fd0 !! key_of m.
Proof.
  intros Htext Hlocal Hany.
  rewrite (extract_fin_data_parsed llm pdf fd0 Htext Hlocal).
  rewrite Hany. cbn [negb llm_calls returned mbind result_bind].
  unfold conclude. cbn [fst snd]. rewrite Hany.
  cbn [negb andb]. split; [reflexivity |].
  pose proof (finish_lookups (document_text pdf)
                (detect_fin_unit (document_text pdf)) fd0
                (VStr (extract_company_name (document_text pdf)))) as Hfin.
  destruct (finish _ _ _ _) as [|name fd]; [contradiction |].
  destruct Hfin as (-> & _ & _ & _ & Hm).
  exists fd. split; [reflexivity | exact Hm].
Qed.

End FurtherPipeline.

(** ** The matcher *)

Module ReFacts.
Import Re.

(** A greedy repetition that succeeds took some characters of the class,
    within its bounds, and then ran the rest of the pattern. *)
Lemma rep_took {R} cls (k : option ascii → string → string → option R) s :
  ∀ lo hi prev taken x,
    rep cls k lo hi prev s taken = Some x →
    ∃ m prev' s',
      s = m +:+ s' ∧ all_chars cls m = true ∧
      (lo ≤ String.length m)%nat ∧
      (∀ h, hi = Some h → (String.length m ≤ h)%nat) ∧
      k prev' s' (taken +:+ m) = Some x.
Proof.
  assert (Hnil : ∀ t : string, t +:+ EmptyString = t).
  { induction t as [|c t IH]; [reflexivity |].
    rewrite StrFacts.app_cons, IH. reflexivity. }
  assert (Hstop : ∀ lo hi prev s taken x,
            match lo with 0 => k prev s taken | S _ => None end = Some x →
            ∃ m prev' s',
              s = m +:+ s' ∧ all_chars cls m = true ∧
              (lo ≤ String.length m)%nat ∧
              (∀ h, hi = Some h → (String.length m ≤ h)%nat) ∧
              k prev' s' (taken +:+ m) = Some x).
  { intros lo hi prev s0 taken x Hk. destruct lo; [| discriminate].
    exists EmptyString, prev, s0. rewrite Hnil.
    repeat split; auto. intros h _. cbn. lia. }
  induction s as [|c s IH]; intros lo hi prev taken x; cbn [rep].
  - apply Hstop.
  - destruct (cls c && match hi with Some 0 => false | _ => true end) eqn:Hc;
      [| apply Hstop].
    destruct (rep cls k (pred lo) (pred <$> hi) (Some c) s
                (taken +:+ String c EmptyString)) as [y|] eqn:Hrec;
      [| apply Hstop].
    intros [= <-]. apply andb_true_iff in Hc as [Hcls Hhi].
    destruct (IH _ _ _ _ _ Hrec) as (m & prev' & s' & -> & Hall & Hlo & Hup & Hk).
    exists (String c m), prev', s'. rewrite StrFacts.app_cons.
    split; [reflexivity |]. split; [cbn [all_chars]; rewrite Hcls; exact Hall |].
    split; [cbn [String.length]; lia |]. split.
    + intros h ->. destruct h as [|h]; [discriminate |].
      specialize (Hup h eq_refl). cbn [String.length]. lia.
    + rewrite StripFacts.append_assoc in Hk. exact Hk.
Qed.

Lemma read_phrase_ci phrase : ∀ s m rest,
  read_phrase true phrase s = Some (m, rest) →
  s = m +:+ rest ∧ Str.lower m = Str.lower phrase.
Proof.
  induction phrase as [|p phrase IH]; intros s m rest; cbn [read_phrase].
  - intros [= <- <-]. auto.
  - destruct s as [|c s]; [discriminate |].
    destruct (Ascii.eqb_spec (Str.ascii_lower p) (Str.ascii_lower c)) as [Hpc|];
      [| discriminate].
    destruct (read_phrase true phrase s) as [[m' rest']|] eqn:Hrec;
      [| discriminate].
    cbn. intros [= <- <-]. destruct (IH _ _ _ Hrec) as [-> Hlow].
    rewrite StrFacts.app_cons. cbn [Str.lower]. rewrite Hlow, Hpc. auto.
Qed.

(** A search that succeeds matched the pattern at some position of the
    subject. *)
Lemma search_from_matched ci items s : ∀ prev g,
  search_from ci items prev s = Some g →
  ∃ pre prev' s' rest,
    s = pre +:+ s' ∧ match_here ci items prev' s' false EmptyString = Some (g, rest).
Proof.
  induction s as [|c s IH]; intros prev g; cbn [search_from].
  - destruct (match_here ci items prev EmptyString false EmptyString)
      as [[g' rest]|] eqn:Hm; [| discriminate].
    intros [= <-]. exists EmptyString, prev, EmptyString, rest. auto.
  - destruct (match_here ci items prev (String c s) false EmptyString)
      as [[g' rest]|] eqn:Hm.
    + intros [= <-]. exists EmptyString, prev, (String c s), rest. auto.
    + intros Hs. destruct (IH _ _ Hs) as (pre & prev' & s' & rest & -> & Hm').
      exists (String c pre), prev', s', rest. auto.
Qed.

End ReFacts.

(** ** Unit, company and year *)

Lemma ci_contained_contains term text :
  ci_contained term text ↔ Str.contains (Str.lower term) (Str.lower text) = true.
Proof. symmetry. apply StrFacts.contains_spec. Qed.

(** [detect_fin_unit] ranks the four unit names: it returns the first of
    "Crores", "Lakhs", "Millions", "Billions" that occurs in the text when
    case is ignored, wherever in the text the names stand, and "Unknown"
    exactly when none of them occurs. *)
Theorem detect_fin_unit_ranked (text : string) :
  (detect_fin_unit text = "Crores" ↔ ci_contained "Crores" text) ∧
  (detect_fin_unit text = "Lakhs" ↔
     ¬ ci_contained "Crores" text ∧ ci_contained "Lakhs" text) ∧
  (detect_fin_unit text = "Millions" ↔
     ¬ ci_contained "Crores" text ∧ ¬ ci_contained "Lakhs" text ∧
     ci_contained "Millions" text) ∧
  (detect_fin_unit text = "Billions" ↔
     ¬ ci_contained "Crores" text ∧ ¬ ci_contained "Lakhs" text ∧
     ¬ ci_contained "Millions" text ∧ ci_contained "Billions" text) ∧
  (detect_fin_unit text = "Unknown" ↔
     ¬ ci_contained "Crores" text ∧ ¬ ci_contained "Lakhs" text ∧
     ¬ ci_contained "Millions" text ∧ ¬ ci_contained "Billions" text).
Proof.
  rewrite !ci_contained_contains. unfold detect_fin_unit. cbn [List.find].
  destruct (Str.contains (Str.lower "Crores") (Str.lower text));
    destruct (Str.contains (Str.lower "Lakhs") (Str.lower text));
    destruct (Str.contains (Str.lower "Millions") (Str.lower text));
    destruct (Str.contains (Str.lower "Billions") (Str.lower text));
    cbn [default from_option id];
    repeat split; try discriminate; try tauto; intros; intuition discriminate.
Qed.

Lemma match_alternative ci phrases items prev s grp acc x :
  Re.match_here ci (Re.Alt phrases :: items) prev s grp acc = Some x →
  ∃ p m rest,
    In p phrases ∧ Re.read_phrase ci p s = Some (m, rest) ∧
    Re.match_here ci items (Re.last_char prev m) rest grp (Re.grow grp acc m)
      = Some x.
Proof.
  cbn [Re.match_here]. induction phrases as [|p phrases IH]; [discriminate |].
  destruct (Re.read_phrase ci p s) as [[m rest]|] eqn:Hread.
  - cbn [mbind option_bind].
    destruct (Re.match_here ci items (Re.last_char prev m) rest grp
                (Re.grow grp acc m)) as [y|] eqn:Hm.
    + intros [= <-]. exists p, m, rest. split; [left; reflexivity | auto].
    + intros Hrest. destruct (IH Hrest) as (p' & m' & rest' & Hin & Hr & Hmm).
      exists p', m', rest'. split; [right; exact Hin | auto].
  - cbn [mbind option_bind].
    intros Hrest. destruct (IH Hrest) as (p' & m' & rest' & Hin & Hr & Hmm).
    exists p', m', rest'. split; [right; exact Hin | auto].
Qed.

(** What a match of the company pattern captures. *)
Lemma company_match prev s g rest :
  Re.match_here true company_pattern prev s false EmptyString = Some (g, rest) →
  all_chars company_char g = true ∧
  ∃ p m s', In p company_phrases ∧ s = m +:+ s' ∧ Str.lower m = Str.lower p.
Proof.
  unfold company_pattern. intros Hm.
  apply match_alternative in Hm as (p & m & s1 & Hin & Hread & Hm).
  apply ReFacts.read_phrase_ci in Hread as [-> Hlow].
  split; [| exists p, m, s1; auto].
  cbn [Re.match_here] in Hm.
  apply ReFacts.rep_took in Hm as (m1 & prev1 & s2 & _ & _ & _ & _ & Hm).
  apply ReFacts.rep_took in Hm as (m2 & prev2 & s3 & _ & _ & _ & _ & Hm).
  apply ReFacts.rep_took in Hm as (m3 & prev3 & s4 & _ & Hall & _ & _ & Hm).
  cbn in Hm. injection Hm as <- _. exact Hall.
Qed.

(** In a text of ASCII characters without one of the phrases "Company
    Name", "Statement of" and "Financial Report of", case ignored, the
    company is "Unknown Company". *)
Theorem company_unknown_without_phrase (text : string) :
  ascii_text text →
  Forall (λ p, ¬ ci_contained p text) company_phrases →
  extract_company_name text = "Unknown Company".
Proof.
  intros _ Hnone. unfold extract_company_name, Re.search.
  destruct (Re.search_from true company_pattern None text) as [g|] eqn:Hs;
    [exfalso | reflexivity].
  apply ReFacts.search_from_matched in Hs as (pre & prev & s & rest & -> & Hm).
  apply company_match in Hm as (_ & p & m & s' & Hin & -> & Hlow).
  rewrite Forall_forall in Hnone. apply (Hnone p); [apply list_elem_of_In, Hin |].
  exists (Str.lower pre), (Str.lower s').
  rewrite !StripFacts.lower_app, Hlow. reflexivity.
Qed.

(** For a text of ASCII characters, the company name returned consists
    of ASCII letters, digits, "&", ".", "," and white space only, and
    neither starts nor ends with white space: the capture is cut at the
    first other character and then stripped. *)
Theorem company_name_shape (text : string) :
  ascii_text text →
  all_chars company_char (extract_company_name text) = true ∧
  padded (extract_company_name text) = false.
Proof.
  intros _. unfold extract_company_name, Re.search.
  destruct (Re.search_from true company_pattern None text) as [g|] eqn:Hs;
    [| split; reflexivity].
  apply ReFacts.search_from_matched in Hs as (pre & prev & s & rest & -> & Hm).
  apply company_match in Hm as [Hall _].
  split; [apply StripFacts.all_chars_strip, Hall | apply StripFacts.strip_not_padded].
Qed.

(** The year written into the record is "Unknown Year" or a run of
    exactly four digits that stands in the document text. *)
Theorem detected_year_shape (text : string) :
  let year := default "Unknown Year" (Re.search false year_pattern text) in
  year = "Unknown Year" ∨
  (String.length year = 4 ∧ all_chars Str.is_digit year = true ∧
   Str.contains year text = true).
Proof.
  unfold Re.search.
  destruct (Re.search_from false year_pattern None text) as [g|] eqn:Hs;
    [right | left; reflexivity].
  apply ReFacts.search_from_matched in Hs as (pre & prev & s & rest & -> & Hm).
  unfold year_pattern in Hm. cbn [Re.match_here] in Hm.
  destruct (xorb (Re.word_before prev) (Re.word_after s)); [| discriminate].
  apply ReFacts.rep_took in Hm as (m & prev1 & s1 & -> & Hall & Hlo & Hup & Hm).
  cbn [Re.match_here Re.grow] in Hm.
  destruct (xorb (Re.word_before prev1) (Re.word_after s1)); [| discriminate].
  injection Hm as <- _. cbn [default from_option id].
  rewrite !StrFacts.app_nil. specialize (Hup 4 eq_refl).
  split; [lia |]. split; [exact Hall |].
  apply StrFacts.contains_spec. exists pre, s1. reflexivity.
Qed.

(** ** Matching by substring *)

Lemma matched_exists (d : term_dict) (label : string) :
  proper_terms d →
  matched d label = true ↔ Exists (λ it, term_matches label it = true) d.
Proof.
  intros Hproper. unfold matched, select_highest_priority.
  pose proof (min_by_priority_spec (List.filter (term_matches label) d)) as Hm.
  destruct (min_by_priority _) as [[t p]|].
  - destruct Hm as (l1 & l2 & E & _).
    assert (Hin : In (t, p) (List.filter (term_matches label) d))
      by (rewrite E; apply in_elt).
    apply filter_In in Hin as [Hd Hmatch].
    unfold proper_terms in Hproper. rewrite Forall_forall in Hproper.
    split.
    + intros _. apply Exists_exists. exists (t, p).
      split; [apply list_elem_of_In, Hd | exact Hmatch].
    + intros _. apply (Hproper (t, p)), list_elem_of_In, Hd.
  - split; [discriminate |]. intros Hex.
    apply Exists_exists in Hex as (it & Hin & Hmatch).
    assert (In it (List.filter (term_matches label) d)) as Hf
      by (apply filter_In; split; [apply list_elem_of_In, Hin | exact Hmatch]).
    rewrite Hm in Hf. destruct Hf.
Qed.

(** Matching is by substring, without word boundaries: when a dictionary
    without empty terms matches a label, it matches every text in which
    that label stands, whatever comes before and after it. *)
Theorem matching_ignores_context (d : term_dict) (label a b : string) :
  proper_terms d →
  matched d label = true →
  matched d (a +:+ label +:+ b) = true.
Proof.
  intros Hproper Hm.
  apply (matched_exists d _ Hproper). apply (matched_exists d _ Hproper) in Hm.
  eapply Exists_impl; [exact Hm |].
  intros it. unfold term_matches. rewrite !StripFacts.lower_app.
  apply StripFacts.contains_within.
Qed.

(** ** Dates and their labels *)

Lemma strptime_valid s fmt d : Strptime.strptime s fmt = Some d → valid_date d.
Proof.
  unfold Strptime.strptime.
  destruct (Strptime.match_format fmt s (1, 1, 1900)) as [[[[dd mm] yy] rest]|];
    [| discriminate].
  cbn [mbind option_bind]. destruct rest; [| discriminate].
  destruct ((1 <=? yy) && (1 <=? mm) && (mm <=? 12) && (1 <=? dd) &&
            (dd <=? Strptime.days_in_month yy mm))%nat eqn:Hc; [| discriminate].
  intros [= <-]. unfold valid_date. cbn [year month day].
  rewrite !andb_true_iff, !Nat.leb_le in Hc. lia.
Qed.

Lemma parse_date_valid fmts s d : parse_date fmts s = Some d → valid_date d.
Proof.
  induction fmts as [|fmt fmts IH]; cbn [parse_date]; [discriminate |].
  destruct (Strptime.strptime s fmt) as [d'|] eqn:E; [| exact IH].
  intros [= <-]. exact (strptime_valid _ _ _ E).
Qed.

Lemma parsed_dates_valid text : Forall valid_date (parsed_dates text).
Proof.
  apply Forall_forall. intros d Hd. unfold parsed_dates in Hd.
  apply list_elem_of_omap in Hd as (s & _ & Hs).
  exact (parse_date_valid _ _ _ Hs).
Qed.

Lemma quarter_range d : valid_date d → (1 ≤ quarter d ≤ 4)%nat.
Proof.
  unfold valid_date, quarter. intros (_ & [_ Hm] & _).
  assert ((month d - 1) / 3 < 4)%nat
    by (apply Nat.Div0.div_lt_upper_bound; lia).
  lia.
Qed.

(** A period label that [extract_dates_from_text] returns is that of a
    valid calendar date parsed from the text: "Q", a quarter between 1
    and 4, a blank and a year of at least 1. *)
Theorem period_label_well_formed (text label : string) :
  (extract_dates_from_text text).1 = Some label ∨
  (extract_dates_from_text text).2 = Some label →
  ∃ d, d ∈ parsed_dates text ∧ valid_date d ∧
       label = "Q" +:+ str_of_nat (quarter d) +:+ " " +:+ str_of_nat (year d) ∧
       (1 ≤ quarter d ≤ 4)%nat.
Proof.
  rewrite extract_dates_sorted. cbn [fst snd]. intros Hlabel.
  assert (∃ i d, sorted_desc (parsed_dates text) !! i = Some d ∧
                 label = period_label d) as (i & d & Hi & ->).
  { destruct Hlabel as [Hl | Hl];
      [destruct (sorted_desc (parsed_dates text) !! 0) as [d|] eqn:E
      |destruct (sorted_desc (parsed_dates text) !! 1) as [d|] eqn:E];
      try discriminate; injection Hl as <-; eauto. }
  assert (Hin : d ∈ parsed_dates text).
  { rewrite <- (sorted_desc_perm (parsed_dates text)).
    eapply list_elem_of_lookup_2, Hi. }
  pose proof (parsed_dates_valid text) as Hvalid.
  rewrite Forall_forall in Hvalid.
  exists d. split; [exact Hin |]. split; [exact (Hvalid d Hin) |].
  split; [reflexivity | exact (quarter_range d (Hvalid d Hin))].
Qed.

Lemma date_leb_antisym a b :
  date_leb a b = true → date_leb b a = true → a = b.
Proof.
  rewrite !date_leb_spec. destruct a, b. cbn [year month day]. intros Hab Hba.
  f_equal; lia.
Qed.

Lemma sorted_desc_head l a rest :
  sorted_desc l = a :: rest →
  Forall (λ e, date_leb e a = true) rest.
Proof.
  intros E. pose proof (sorted_desc_sorted l) as Hs. rewrite E in Hs.
  inversion Hs; subst. assumption.
Qed.

Lemma sorted_desc_elem e l : e ∈ sorted_desc l ↔ e ∈ l.
Proof. rewrite sorted_desc_perm. reflexivity. Qed.

(** The latest date found twice gives the same label twice. *)
Lemma sorted_desc_repeated_max l d l' :
  l ≡ₚ d :: d :: l' →
  Forall (λ e, date_leb e d = true) l →
  ∃ rest, sorted_desc l = d :: d :: rest.
Proof.
  intros Hperm Hmax.
  assert (Hsd : sorted_desc l ≡ₚ d :: d :: l')
    by (rewrite sorted_desc_perm; exact Hperm).
  pose proof (sorted_desc_sorted l) as Hsorted.
  assert (Hle : ∀ e, e ∈ sorted_desc l → date_leb e d = true).
  { intros e He. rewrite Forall_forall in Hmax. apply Hmax.
    apply sorted_desc_elem, He. }
  destruct (sorted_desc l) as [|a tail] eqn:E.
  - apply Permutation_nil in Hsd. discriminate.
  - assert (a = d) as ->.
    { apply date_leb_antisym; [apply Hle; left |].
      assert (d ∈ a :: tail) as Hd by (rewrite Hsd; left).
      apply elem_of_cons in Hd as [-> | Hd]; [apply date_leb_refl |].
      inversion Hsorted as [|? ? _ Hall]; subst.
      rewrite Forall_forall in Hall. exact (Hall d Hd). }
    apply Permutation_cons_inv in Hsd.
    destruct tail as [|b rest].
    + apply Permutation_nil in Hsd. discriminate.
    + exists rest. f_equal. f_equal.
      apply date_leb_antisym; [apply Hle; right; left |].
      assert (d ∈ b :: rest) as Hd by (rewrite Hsd; left).
      apply elem_of_cons in Hd as [-> | Hd]; [apply date_leb_refl |].
      inversion Hsorted as [|? ? Htail _]; subst.
      inversion Htail as [|? ? _ Hall]; subst.
      rewrite Forall_forall in Hall. exact (Hall d Hd).
Qed.

(** Dates are not de-duplicated: when the latest date of the text is
    found there twice, the previous period is the latest period. *)
Theorem repeated_latest_date (text : string) (d : datetime)
    (l1 l2 l3 : list datetime) :
  parsed_dates text = l1 ++ d :: l2 ++ d :: l3 →
  Forall (λ e, date_leb e d = true) (parsed_dates text) →
  extract_dates_from_text text = (Some (period_label d), Some (period_label d)).
Proof.
  intros Hsplit Hmax.
  destruct (sorted_desc_repeated_max (parsed_dates text) d (l1 ++ l2 ++ l3))
    as [rest Hsd]; [| exact Hmax |].
  - rewrite Hsplit.
    rewrite <- Permutation_middle. apply perm_skip.
    rewrite app_assoc, <- Permutation_middle, <- app_assoc. reflexivity.
  - rewrite extract_dates_sorted, Hsd. reflexivity.
Qed.

(** ** The answer of the model *)

Lemma contains_char_cons (c d : ascii) r :
  Str.contains (String c EmptyString) (String d r) =
    Ascii.eqb c d || Str.contains (String c EmptyString) r.
Proof.
  cbn [Str.contains String.prefix].
  destruct (ascii_dec c d) as [-> | Hne].
  - rewrite Ascii.eqb_refl. destruct r; reflexivity.
  - destruct (Ascii.eqb_spec c d); [contradiction | reflexivity].
Qed.

(** The rest of the pattern after [.*]. *)
Lemma close_here prev s acc :
  Re.match_here false [Re.Alt ["}"]; Re.Close] prev s true acc =
    match s with
    | String c r =>
        if Ascii.eqb "}" c
        then Some (acc +:+ String c EmptyString, (Some c, r))
        else None
    | EmptyString => None
    end.
Proof.
  destruct s as [|c r]; [reflexivity |].
  cbn [Re.match_here Re.read_phrase]. destruct (Ascii.eqb "}" c); reflexivity.
Qed.

(** Without a closing brace ahead, [.*] and the rest fail. *)
Lemma rep_any_none acc s : ∀ prev taken,
  Str.contains "}" s = false →
  Re.rep Gemini.any_char
    (λ prev' s' taken',
       Re.match_here false [Re.Alt ["}"]; Re.Close] prev' s' true
         (Re.grow true acc taken'))
    0 None prev s taken = None.
Proof.
  induction s as [|c s IH]; intros prev taken Hno; cbn [Re.rep].
  - apply close_here.
  - rewrite contains_char_cons in Hno. apply orb_false_iff in Hno as [Hc Hs].
    cbn [Gemini.any_char andb fmap option_fmap option_map pred].
    rewrite (IH _ _ Hs), close_here, Hc. reflexivity.
Qed.

(** [.*] runs to the last closing brace. *)
Lemma rep_any_found acc body post : ∀ prev taken,
  Str.contains "}" post = false →
  Re.rep Gemini.any_char
    (λ prev' s' taken',
       Re.match_here false [Re.Alt ["}"]; Re.Close] prev' s' true
         (Re.grow true acc taken'))
    0 None prev (body +:+ "}" +:+ post) taken
  = Some (acc +:+ taken +:+ body +:+ "}", (Some "}"%char, post)).
Proof.
  induction body as [|c body IH]; intros prev taken Hno.
  - rewrite StrFacts.app_nil, StrFacts.app_cons, StrFacts.app_nil.
    cbn [Re.rep Gemini.any_char andb fmap option_fmap option_map pred].
    rewrite (rep_any_none acc post _ _ Hno), close_here.
    cbn [Ascii.eqb Bool.eqb Re.grow]. rewrite StripFacts.append_assoc.
    reflexivity.
  - rewrite StrFacts.app_cons.
    cbn [Re.rep Gemini.any_char andb fmap option_fmap option_map pred].
    rewrite (IH _ _ Hno), StripFacts.append_assoc, StrFacts.app_cons,
      StrFacts.app_nil.
    reflexivity.
Qed.

(** The pattern at a position: an opening brace, then [.*] and the
    rest. *)
Lemma json_here_cons prev c s :
  Re.match_here false Gemini.json_pattern prev (String c s) false EmptyString =
    if Ascii.eqb "{" c then
      Re.rep Gemini.any_char
        (λ prev' s' taken',
           Re.match_here false [Re.Alt ["}"]; Re.Close] prev' s' true
             (Re.grow true (String c EmptyString) taken'))
        0 None (Some c) s EmptyString
    else None.
Proof.
  unfold Gemini.json_pattern. cbn [Re.match_here Re.read_phrase].
  destruct (Ascii.eqb "{" c); [| reflexivity].
  cbn [mbind option_bind].
  match goal with
  | |- match ?found with Some x => Some x | None => None end = _ =>
      transitivity found; [destruct found; reflexivity | reflexivity]
  end.
Qed.

Lemma json_here_found prev body post :
  Str.contains "}" post = false →
  Re.match_here false Gemini.json_pattern prev ("{" +:+ body +:+ "}" +:+ post)
    false EmptyString
  = Some ("{" +:+ body +:+ "}", (Some "}"%char, post)).
Proof.
  intros Hno. rewrite StrFacts.app_cons, StrFacts.app_nil, json_here_cons.
  change (Ascii.eqb "{" "{") with true. cbv iota.
  rewrite (rep_any_found _ body post _ _ Hno). reflexivity.
Qed.

Lemma json_here_no_open prev c s :
  Ascii.eqb "{" c = false →
  Re.match_here false Gemini.json_pattern prev (String c s) false EmptyString
    = None.
Proof. intros Hc. rewrite json_here_cons, Hc. reflexivity. Qed.

Lemma json_here_no_close prev s :
  Str.contains "}" s = false →
  Re.match_here false Gemini.json_pattern prev s false EmptyString = None.
Proof.
  intros Hno. destruct s as [|c s]; [reflexivity |].
  rewrite json_here_cons. destruct (Ascii.eqb "{" c); [| reflexivity].
  rewrite contains_char_cons in Hno. apply orb_false_iff in Hno as [_ Hs].
  apply rep_any_none, Hs.
Qed.

Lemma json_search_no_close s : ∀ prev,
  Str.contains "}" s = false →
  Re.search_from false Gemini.json_pattern prev s = None.
Proof.
  induction s as [|c s IH]; intros prev Hno; cbn [Re.search_from];
    rewrite (json_here_no_close _ _ Hno); [reflexivity |].
  rewrite contains_char_cons in Hno. apply orb_false_iff in Hno as [_ Hs].
  apply IH, Hs.
Qed.

Lemma json_search_found pre body post : ∀ prev,
  Str.contains "{" pre = false → Str.contains "}" post = false →
  Re.search_from false Gemini.json_pattern prev
    (pre +:+ "{" +:+ body +:+ "}" +:+ post)
  = Some ("{" +:+ body +:+ "}").
Proof.
  induction pre as [|c pre IH]; intros prev Hpre Hpost.
  - rewrite StrFacts.app_nil.
    pose proof (json_here_found prev body post Hpost) as Hm.
    rewrite StrFacts.app_cons in *. cbn [Re.search_from]. rewrite Hm.
    reflexivity.
  - rewrite contains_char_cons in Hpre.
    apply orb_false_iff in Hpre as [Hc Hpre].
    rewrite StrFacts.app_cons. cbn [Re.search_from].
    rewrite (json_here_no_open _ _ _ Hc). apply IH; assumption.
Qed.

Lemma json_search_none pre post : ∀ prev,
  Str.contains "{" pre = false → Str.contains "}" post = false →
  Re.search_from false Gemini.json_pattern prev (pre +:+ post) = None.
Proof.
  induction pre as [|c pre IH]; intros prev Hpre Hpost.
  - rewrite StrFacts.app_nil. apply json_search_no_close, Hpost.
  - rewrite contains_char_cons in Hpre.
    apply orb_false_iff in Hpre as [Hc Hpre].
    rewrite StrFacts.app_cons. cbn [Re.search_from].
    rewrite (json_here_no_open _ _ _ Hc). apply IH; assumption.
Qed.

Section GeminiFacts.
Context {float : Type}.
Variable generate_content : string → option string.
Variable json_loads : string → option (ai_data float).

(** When the call of the model returns, [use_gemini_extraction] hands to
    [json.loads] the part of the response from its first opening brace to
    its last closing brace, whatever stands before, between and after
    them - words around the object are dropped, a brace after the object
    is not - and returns [None] without parsing anything when the
    response has no opening brace that a closing brace follows. *)
Theorem answer_parsed_between_outer_braces (text response : string) :
  generate_content (Gemini.prompt text) = Some response →
  (∀ pre body post,
     response = pre +:+ "{" +:+ body +:+ "}" +:+ post →
     Str.contains "{" pre = false → Str.contains "}" post = false →
     Gemini.use_gemini_extraction generate_content json_loads text
       = Some (json_loads ("{" +:+ body +:+ "}"))) ∧
  (∀ pre post,
     response = pre +:+ post →
     Str.contains "{" pre = false → Str.contains "}" post = false →
     Gemini.use_gemini_extraction generate_content json_loads text = Some None).
Proof.
  intros Hresp. unfold Gemini.use_gemini_extraction. rewrite Hresp.
  cbn [mbind option_bind]. unfold Re.search. split.
  - intros pre body post -> Hpre Hpost.
    rewrite (json_search_found pre body post None Hpre Hpost). reflexivity.
  - intros pre post -> Hpre Hpost.
    rewrite (json_search_none pre post None Hpre Hpost). reflexivity.
Qed.

End GeminiFacts.

(** ** The chat and the session *)

Section SessionFacts.
Context `{PyFloat float}.
Variable py_str : pyval float → string.
Variable left_column_renders : pyval float → fin_data float → bool.

Local Abbreviation respond := (generate_chatbot_response py_str).
Local Abbreviation chat := (chat_column py_str).
Local Abbreviation results := (results_page py_str left_column_renders).
Local Abbreviation run_main := (main py_str left_column_renders).
Local Abbreviation run_all := (runs py_str left_column_renders).
Local Abbreviation invariant := (chat_invariant py_str).
Local Abbreviation answer := (answer_of py_str).

Lemma take_chars_app n (a b : string) :
  (n ≤ String.length a)%nat → take_chars n (a +:+ b) = take_chars n a.
Proof.
  revert a. induction n as [|n IH]; intros a Hn; [destruct a; reflexivity |].
  destruct a as [|c a]; [cbn in Hn; lia |].
  rewrite StrFacts.app_cons. cbn [take_chars]. rewrite IH; [reflexivity |].
  cbn [String.length] in Hn. lia.
Qed.

(** The chat model is shown the first 2000 characters of the document
    text only: what follows them changes neither the prompt nor, with
    it, the response. *)
Theorem chatbot_reads_first_2000 (now : services float) (user_query : string)
    (company_name : pyval float) (fd : fin_data float) (text more : string) :
  (2000 ≤ String.length text)%nat →
  respond now user_query company_name fd (text +:+ more) =
  respond now user_query company_name fd text.
Proof.
  intros Hlen. unfold generate_chatbot_response, chat_prompt, chat_context.
  rewrite (take_chars_app 2000 text more Hlen). reflexivity.
Qed.

Lemma run_all_snoc inputs (i : input float) (st : session float) :
  run_all (inputs ++ [i]) st =
    (run_main i.1.1 i.1.2 i.2 (run_all inputs st)).1.
Proof. unfold runs. rewrite fold_left_app. reflexivity. Qed.

(** *** The stored result *)

Lemma chat_keeps_data now user_query name fd (st : session float) :
  financial_data (chat now user_query name fd st).1 = financial_data st ∧
  full_financial_text (chat now user_query name fd st).1
    = full_financial_text st ∧
  uploaded_file_path (chat now user_query name fd st).1
    = uploaded_file_path st ∧
  page_name (chat now user_query name fd st).1 = page_name st.
Proof.
  unfold chat_column. destruct (_ && _); [| auto].
  destruct (respond now user_query name fd _); auto.
Qed.

Lemma results_keeps_data now user_query pdf (st : session float) data :
  financial_data st = Some data →
  financial_data (results now user_query pdf st).1 = Some data ∧
  full_financial_text (results now user_query pdf st).1 = full_financial_text st.
Proof.
  intros Hdata. unfold results_page. rewrite Hdata.
  destruct data as [status msg | name fd]; [auto |].
  destruct (left_column_renders name fd); [| auto].
  destruct (chat_keeps_data now user_query name fd st) as (-> & -> & _).
  auto.
Qed.

Lemma main_keeps_data now uploaded user_query (st : session float) data :
  financial_data st = Some data →
  financial_data (run_main now uploaded user_query st).1 = Some data ∧
  full_financial_text (run_main now uploaded user_query st).1
    = full_financial_text st.
Proof.
  intros Hdata. unfold main.
  destruct (String.eqb (page_name st) "upload").
  - destruct uploaded; auto.
  - destruct (String.eqb (page_name st) "results"); [| auto].
    destruct (uploaded_file_path st); [| auto].
    apply results_keeps_data, Hdata.
Qed.

(** Once a result of [extract_fin_data] is stored in the session - a
    record or the 404 object - no series of runs replaces it or the
    stored document text, whatever is uploaded or asked and whatever the
    model answers: the extraction is not run a second time. *)
Theorem stored_result_is_final inputs (st : session float) data :
  financial_data st = Some data →
  financial_data (run_all inputs st) = Some data ∧
  full_financial_text (run_all inputs st) = full_financial_text st.
Proof.
  intros Hdata. induction inputs as [|i inputs IH] using rev_ind; [auto |].
  rewrite run_all_snoc. destruct IH as [IHd IHt].
  destruct (main_keeps_data i.1.1 i.1.2 i.2 _ _ IHd) as [Hd Ht].
  split; [exact Hd | congruence].
Qed.

(** On the results page, a stored 404 object ends every run before the
    columns are drawn: the session stays as it is, so the chat is out of
    reach and the document is not read again. *)
Theorem stored_error_is_final inputs (st : session float) status message :
  page_name st = "results" →
  financial_data st = Some (ErrorObject status message) →
  run_all inputs st = st ∧
  ∀ now uploaded user_query, run_main now uploaded user_query st = (st, Done).
Proof.
  intros Hpage Hdata.
  assert (Hstep : ∀ now uploaded user_query,
            run_main now uploaded user_query st = (st, Done)).
  { intros now uploaded user_query. unfold main. rewrite Hpage. cbn.
    destruct (uploaded_file_path st); [| reflexivity].
    unfold results_page. rewrite Hdata. reflexivity. }
  split; [| exact Hstep].
  induction inputs as [|i inputs IH] using rev_ind; [reflexivity |].
  rewrite run_all_snoc, IH, Hstep. reflexivity.
Qed.

Lemma main_on_results now uploaded user_query (st : session float) :
  page_name st = "results" →
  run_main now uploaded user_query st =
    match uploaded_file_path st with
    | Some pdf => results now user_query pdf st
    | None => (st, Done)
    end.
Proof. intros Hpage. unfold main. rewrite Hpage. reflexivity. Qed.

(** On the results page, the run that follows a rerun changes nothing
    and asks for no further rerun when the text input still holds the
    same query, whatever the model would answer now: a question is
    answered once, not once per rerun. *)
Theorem rerun_settles now uploaded user_query (st : session float)
    next uploaded' :
  page_name st = "results" →
  (run_main now uploaded user_query st).2 = Rerun →
  run_main next uploaded' user_query (run_main now uploaded user_query st).1
    = ((run_main now uploaded user_query st).1, Done).
Proof.
  intros Hpage. rewrite (main_on_results now uploaded user_query st Hpage).
  destruct (uploaded_file_path st) as [pdf|] eqn:Hpath; [| discriminate].
  assert (Hsettle : ∀ (st1 : session float) name fd,
            page_name st1 = "results" → uploaded_file_path st1 = Some pdf →
            financial_data st1 = Some (Financials name fd) →
            left_column_renders name fd = true →
            (chat now user_query name fd st1).2 = Rerun →
            run_main next uploaded' user_query (chat now user_query name fd st1).1
              = ((chat now user_query name fd st1).1, Done)).
  { intros st1 name fd Hp1 Hpath1 Hd1 Hr1. unfold chat_column.
    destruct (Str.nonempty user_query &&
              negb (String.eqb user_query (last_handled_query st1))) eqn:Hc;
      [| discriminate].
    destruct (respond now user_query name fd _) as [response|];
      [| discriminate].
    intros _. cbn [fst]. rewrite main_on_results by exact Hp1.
    cbn [uploaded_file_path handled append_message]. rewrite Hpath1.
    unfold results_page. cbn [financial_data handled append_message].
    rewrite Hd1, Hr1.
    unfold chat_column. cbn [last_handled_query handled].
    rewrite String.eqb_refl, andb_false_r. reflexivity. }
  unfold results_page.
  destruct (financial_data st) as [data|] eqn:Hdata.
  - destruct data as [status msg | name fd]; [discriminate |].
    destruct (left_column_renders name fd) eqn:Hr; [| discriminate].
    intros Hrerun. apply Hsettle; assumption.
  - destruct (returned (extract_fin_data (use_gemini_extraction now) pdf))
      as [[status msg | name fd] | e]; try discriminate.
    destruct (left_column_renders name fd) eqn:Hr; [| discriminate].
    intros Hrerun. apply Hsettle; try assumption; reflexivity.
Qed.

(** *** A call of the chat model that raises *)

Lemma unanswered_step now uploaded user_query pdf name fd (st : session float) :
  page_name st = "results" →
  uploaded_file_path st = Some pdf →
  financial_data st = Some (Financials name fd) →
  left_column_renders name fd = true →
  Str.nonempty user_query = true →
  user_query ≠ last_handled_query st →
  respond now user_query name fd (full_financial_text st) = None →
  run_main now uploaded user_query st =
    (append_message {| role := "user"; content := user_query |} st, Crashed).
Proof.
  intros Hpage Hpath Hdata Hrender Hq Hnew Hnone.
  rewrite main_on_results by exact Hpage. rewrite Hpath.
  unfold results_page. rewrite Hdata, Hrender.
  unfold chat_column. rewrite Hq.
  destruct (String.eqb_spec user_query (last_handled_query st)) as [|_];
    [contradiction |].
  cbn [andb negb full_financial_text append_message]. rewrite Hnone.
  reflexivity.
Qed.

(** When the call of the chat model raises, the run stops with the
    question already in the history and not marked as handled: as long
    as the text input holds the question and the call keeps raising,
    every further run appends the question once more. *)
Theorem unanswered_question_repeats now uploaded user_query pdf name fd
    (st : session float) :
  page_name st = "results" →
  uploaded_file_path st = Some pdf →
  financial_data st = Some (Financials name fd) →
  left_column_renders name fd = true →
  Str.nonempty user_query = true →
  user_query ≠ last_handled_query st →
  respond now user_query name fd (full_financial_text st) = None →
  ∀ n,
    let st' := run_all (repeat (now, uploaded, user_query) n) st in
    chat_history st' =
      chat_history st ++ repeat {| role := "user"; content := user_query |} n ∧
    (run_main now uploaded user_query st').2 = Crashed.
Proof.
  intros Hpage Hpath Hdata Hrender Hq Hnew Hnone n. revert st Hpage Hpath Hdata
    Hnew Hnone.
  induction n as [|n IH]; intros st Hpage Hpath Hdata Hnew Hnone;
    pose proof (unanswered_step now uploaded user_query pdf name fd st
                  Hpage Hpath Hdata Hrender Hq Hnew Hnone) as Hstep.
  - cbn [repeat runs fold_left]. rewrite Hstep, app_nil_r. auto.
  - cbn [repeat]. unfold runs. cbn [fold_left fst snd]. rewrite Hstep.
    cbn [fst]. fold (run_all (repeat (now, uploaded, user_query) n)
      (append_message {| role := "user"; content := user_query |} st)).
    destruct (IH (append_message {| role := "user"; content := user_query |} st))
      as [Hh Hc]; try assumption.
    cbn zeta in Hh, Hc. cbn zeta. split; [| exact Hc].
    rewrite Hh. cbn [chat_history append_message]. rewrite <- app_assoc.
    reflexivity.
Qed.

(** *** The chat history *)

Lemma last_answered_snoc rounds (r : round) :
  last_answered (rounds ++ [r]) =
    if answered r then r.1 else last_answered rounds.
Proof.
  unfold last_answered. rewrite rev_unit. cbn [List.find].
  destruct (answered r); reflexivity.
Qed.

Lemma new_questions_snoc rounds (r : round) :
  new_questions rounds → r.1 ≠ last_answered rounds →
  new_questions (rounds ++ [r]).
Proof.
  intros Hnew Hr before r' after Heq.
  induction after as [|x after _] using rev_ind.
  - apply app_inj_tail in Heq as [<- <-]. exact Hr.
  - rewrite app_comm_cons, app_assoc in Heq.
    apply app_inj_tail in Heq as [Heq _]. exact (Hnew _ _ _ Heq).
Qed.

Lemma answer_same (st st' : session float) user_query now :
  financial_data st' = financial_data st →
  full_financial_text st' = full_financial_text st →
  answer st' user_query now = answer st user_query now.
Proof. intros Hd Ht. unfold answer_of. rewrite Hd, Ht. reflexivity. Qed.

Lemma invariant_transfer models more (st st' : session float) :
  chat_history st' = chat_history st →
  last_handled_query st' = last_handled_query st →
  financial_data st' = financial_data st →
  full_financial_text st' = full_financial_text st →
  invariant models st → invariant (models ++ more) st'.
Proof.
  intros Hh Hl Hd Ht (rounds & Hist & Hne & Hlast & Hnew & Hgiven & Hdata).
  exists rounds. rewrite Hh, Hl, Hd. split_and!; try assumption.
  eapply Forall_impl; [exact Hgiven |].
  intros r Hr response Hresp. apply Exists_app. left.
  eapply Exists_impl; [exact (Hr response Hresp) |].
  intros now Hnow. rewrite (answer_same st st' _ _ Hd Ht). exact Hnow.
Qed.

Lemma invariant_more models more (st : session float) :
  invariant models st → invariant (models ++ more) st.
Proof. apply invariant_transfer; reflexivity. Qed.

Lemma invariant_empty models (st : session float) :
  chat_history st = [] → last_handled_query st = EmptyString →
  invariant models st.
Proof.
  intros Hh Hl. exists []. rewrite Hh, Hl. split_and!; try done.
  intros [|r before] r' after Heq; discriminate Heq.
Qed.

Lemma invariant_without_data models (st : session float) :
  invariant models st → financial_data st = None →
  chat_history st = [] ∧ last_handled_query st = EmptyString.
Proof.
  intros (rounds & Hist & _ & Hlast & _ & _ & Hdata) Hnone.
  destruct rounds as [|r rounds].
  - rewrite Hist, Hlast. auto.
  - destruct Hdata as (name & fd & Hd); [discriminate | congruence].
Qed.

(** One more round. *)
Lemma invariant_round models now (st st' : session float) (r : round) name fd :
  invariant models st →
  financial_data st = Some (Financials name fd) →
  financial_data st' = financial_data st →
  full_financial_text st' = full_financial_text st →
  chat_history st' = chat_history st ++ messages_of r →
  last_handled_query st' =
    (if answered r then r.1 else last_handled_query st) →
  Str.nonempty r.1 = true →
  r.1 ≠ last_handled_query st →
  (∀ response, r.2 = Some response → answer st r.1 now = Some response) →
  invariant (models ++ [now]) st'.
Proof.
  intros (rounds & Hist & Hne & Hlast & Hnew & Hgiven & _)
    Hdata Hd Ht Hh Hl Hq Hr Hresp.
  exists (rounds ++ [r]). split_and!.
  - rewrite flat_map_app, Hh, Hist. cbn [flat_map]. rewrite app_nil_r.
    reflexivity.
  - apply Forall_app. split; [exact Hne | repeat constructor; exact Hq].
  - rewrite last_answered_snoc, Hl, Hlast. reflexivity.
  - apply new_questions_snoc; [exact Hnew | rewrite <- Hlast; exact Hr].
  - apply Forall_app. split.
    + eapply Forall_impl; [exact Hgiven |].
      intros r0 Hr0 response Hresp0. apply Exists_app. left.
      eapply Exists_impl; [exact (Hr0 response Hresp0) |].
      intros now0 Hnow0. rewrite (answer_same st st' _ _ Hd Ht). exact Hnow0.
    + repeat constructor. intros response Hresp0. apply Exists_app. right.
      constructor. rewrite (answer_same st st' _ _ Hd Ht).
      exact (Hresp response Hresp0).
  - intros _. exists name, fd. congruence.
Qed.

Lemma chat_keeps_invariant models now user_query name fd (st : session float) :
  invariant models st → financial_data st = Some (Financials name fd) →
  invariant (models ++ [now]) (chat now user_query name fd st).1.
Proof.
  intros Hinv Hd. unfold chat_column.
  destruct (Str.nonempty user_query) eqn:Hq;
    [| apply invariant_more, Hinv].
  destruct (String.eqb_spec user_query (last_handled_query st)) as [|Hnew];
    [apply invariant_more, Hinv |].
  cbn [andb negb full_financial_text append_message].
  destruct (respond now user_query name fd (full_financial_text st))
    as [response|] eqn:Hresp; cbn [fst].
  - apply (invariant_round models now st _ (user_query, Some response) name fd
             Hinv Hd); try reflexivity; try assumption.
    + cbn [chat_history handled append_message messages_of fst snd].
      rewrite <- app_assoc. reflexivity.
    + cbn [snd fst]. intros ? [= <-]. unfold answer_of. rewrite Hd. exact Hresp.
  - apply (invariant_round models now st _ (user_query, None) name fd
             Hinv Hd); try reflexivity; try assumption.
    intros ? [=].
Qed.

Lemma results_keeps_invariant models now user_query pdf (st : session float) :
  invariant models st →
  invariant (models ++ [now]) (results now user_query pdf st).1.
Proof.
  intros Hinv. unfold results_page.
  destruct (financial_data st) as [data|] eqn:Hd.
  - destruct data as [status msg | name fd]; [apply invariant_more, Hinv |].
    destruct (left_column_renders name fd); [| apply invariant_more, Hinv].
    apply chat_keeps_invariant; assumption.
  - destruct (invariant_without_data models st Hinv Hd) as [Hh Hl].
    destruct (returned (extract_fin_data (use_gemini_extraction now) pdf))
      as [[status msg | name fd] | e].
    + apply invariant_empty; assumption.
    + assert (Hinv2 : invariant models
                (keep_data (Financials name fd)
                   (keep_text (document_text pdf) st)))
        by (apply invariant_empty; assumption).
      destruct (left_column_renders name fd);
        [| apply invariant_more, Hinv2].
      apply chat_keeps_invariant; [exact Hinv2 | reflexivity].
    + apply invariant_empty; assumption.
Qed.

Lemma main_keeps_invariant models now uploaded user_query (st : session float) :
  invariant models st →
  invariant (models ++ [now]) (run_main now uploaded user_query st).1.
Proof.
  intros Hinv. unfold main.
  destruct (String.eqb (page_name st) "upload").
  - destruct uploaded as [pdf|]; [| apply invariant_more, Hinv].
    apply (invariant_transfer models [now] st); auto.
  - destruct (String.eqb (page_name st) "results");
      [| apply invariant_more, Hinv].
    destruct (uploaded_file_path st) as [pdf|];
      [| apply invariant_more, Hinv].
    apply results_keeps_invariant, Hinv.
Qed.

(** In a session that starts fresh, after any series of runs, whatever
    the model does in each of them, the chat history is a series of
    rounds: a "user" message with a non-empty question, directly followed
    by the "assistant" message with the response unless the call of the
    model raised.  Each response is what the model of one of the runs
    gave to the prompt made of the question, the stored record and the
    stored document text; the last handled query is the question answered
    last; no question is the one answered last before it; and there is no
    round unless a record is stored, so the chat model is never asked
    about a document that gave the 404 object. *)
Theorem chat_history_is_rounds (inputs : list (input float)) :
  invariant (models_of inputs) (run_all inputs fresh).
Proof.
  induction inputs as [|i inputs IH] using rev_ind.
  - apply invariant_empty; reflexivity.
  - rewrite run_all_snoc. unfold models_of. rewrite map_app.
    apply main_keeps_invariant, IH.
Qed.

End SessionFacts.

(** ** The further properties on sample documents and sessions *)

Section FurtherClosed.
#[local] Existing Instance decimal_float.

(** Closing [row_parses] goals on a concrete table. *)
Ltac parses_by_eval :=
  let s := fresh "s" in
  let Hs := fresh "Hs" in
  intros s Hs; vm_compute in Hs;
  first [ discriminate Hs
        | injection Hs as <-; vm_compute; eexists; reflexivity ].

Ltac row_parses_by_eval :=
  let Hm := fresh "Hm" in
  intros Hm;
  first [ vm_compute in Hm; discriminate Hm
        | split; parses_by_eval ].

Lemma multi_dictionary_row_witness :
  (scan_header marker_header 0 None None = (Some 1, Some 2) ∧
   Forall (row_parses 1 2)
     (marker_header :: [revenue_row] ++ mixed_row :: [ebit_row]) ∧
   mixed_row !! 0 = Some (Some "Net Income from Operations")) ∧
  (matched RT "Net Income from Operations" = true ∧
   matched OPT "Net Income from Operations" = false ∧
   matched NPT "Net Income from Operations" = true) ∧
  ∃ fd_row fd fd0,
    extract_financial_values
      (IsTable (marker_header :: [revenue_row] ++ [mixed_row])) = Ok fd_row ∧
    extract_financial_values
      (IsTable (marker_header :: [revenue_row] ++ mixed_row :: [ebit_row]))
      = Ok fd ∧
    extract_financial_values
      (IsTable (marker_header :: [revenue_row] ++ [ebit_row])) = Ok fd0 ∧
    ∀ m,
      if matched (dict_of m) "Net Income from Operations" then
        (field_from mixed_row 1 (current_quarter fd_row !! key_of m) ∧
         field_from mixed_row 2 (annual_data fd_row !! key_of m)) ∧
        (Forall (λ r', row_matches_metric m r' = false) [ebit_row] →
         field_from mixed_row 1 (current_quarter fd !! key_of m) ∧
         field_from mixed_row 2 (annual_data fd !! key_of m))
      else
        current_quarter fd !! key_of m = current_quarter fd0 !! key_of m ∧
        annual_data fd !! key_of m = annual_data fd0 !! key_of m.
Proof.
  assert (Hs : scan_header marker_header 0 None None = (Some 1, Some 2))
    by reflexivity.
  assert (Hall : Forall (row_parses 1 2)
                   (marker_header :: [revenue_row] ++ mixed_row :: [ebit_row])).
  { cbn [app]. repeat (constructor; [row_parses_by_eval |]). constructor. }
  assert (H0 : mixed_row !! 0 = Some (Some "Net Income from Operations"))
    by reflexivity.
  split; [auto |].
  split; [vm_compute; auto |].
  exact (multi_dictionary_row marker_header [revenue_row] [ebit_row] mixed_row
           1 2 "Net Income from Operations" Hs Hall H0).
Defined.

Lemma last_matching_row_decides_witness :
  (scan_header marker_header 0 None None = (Some 1, Some 2) ∧
   Forall (row_parses 1 2) two_revenue_rows_table) ∧
  ∃ fd, extract_financial_values (IsTable two_revenue_rows_table) = Ok fd ∧
    ∀ m, decided_by_last 1 2 two_revenue_rows_table m fd.
Proof.
  assert (Hs : scan_header marker_header 0 None None = (Some 1, Some 2))
    by reflexivity.
  assert (Hall : Forall (row_parses 1 2) two_revenue_rows_table).
  { unfold two_revenue_rows_table.
    repeat (constructor; [row_parses_by_eval |]). constructor. }
  split; [auto |].
  exact (last_matching_row_decides marker_header _ 1 2 Hs Hall).
Defined.

Lemma located_table_is_first_marked_witness :
  extract_table_or_text notes_then_statement_pdf = Ok (IsTable statement_table) ∧
  ∃ p others before after,
    notes_then_statement_pdf = p :: others ∧
    extract_tables p = before ++ statement_table :: after ∧
    Forall unmarked before ∧ marked statement_table.
Proof.
  assert (Hloc : extract_table_or_text notes_then_statement_pdf
                 = Ok (IsTable statement_table)) by (vm_compute; reflexivity).
  split; [exact Hloc |].
  exact (located_table_is_first_marked notes_then_statement_pdf statement_table
           Hloc).
Defined.

Lemma located_text_is_stripped_witness :
  extract_table_or_text cover_then_statement_pdf = Ok (IsText "Annual report") ∧
  ∃ p others,
    cover_then_statement_pdf = p :: others ∧
    Forall unmarked (extract_tables p) ∧
    "Annual report" = extract_text_from_image p ∧
    Str.nonempty "Annual report" = true ∧ padded "Annual report" = false ∧
    Str.strip "Annual report" = "Annual report".
Proof.
  assert (Hloc : extract_table_or_text cover_then_statement_pdf
                 = Ok (IsText "Annual report")) by (vm_compute; reflexivity).
  split; [exact Hloc |].
  exact (located_text_is_stripped cover_then_statement_pdf "Annual report" Hloc).
Defined.

Lemma locator_raises_on_empty_table_witness :
  extract_table_or_text empty_table_pdf = Raise IndexError ∧
  IndexError = IndexError ∧
  ∃ p others before after,
    empty_table_pdf = p :: others ∧
    extract_tables p = before ++ [] :: after ∧
    Forall unmarked before.
Proof.
  assert (Hloc : extract_table_or_text empty_table_pdf = Raise IndexError)
    by (vm_compute; reflexivity).
  split; [exact Hloc |].
  exact (locator_raises_on_empty_table empty_table_pdf IndexError Hloc).
Defined.

Lemma located_table_maps_current_column_witness :
  extract_table_or_text statement_pdf = Ok (IsTable statement_table) ∧
  ∃ header rows cq,
    statement_table = header :: rows ∧
    (scan_header header 0 None None).1 = Some cq ∧
    (1 ≤ cq ≤ length header)%nat ∧
    ((scan_header header 0 None None).2 = None ↔
     Forall (λ c, year_cell c = false) header).
Proof.
  assert (Hloc : extract_table_or_text statement_pdf
                 = Ok (IsTable statement_table)) by (vm_compute; reflexivity).
  split; [exact Hloc |].
  exact (located_table_maps_current_column statement_pdf statement_table Hloc).
Defined.

Lemma document_without_text_rejected_witness :
  no_text_layer scanned_pdf ∧
  extract_fin_data no_answer scanned_pdf =
    {| llm_calls := []; returned := Ok no_data_error |}.
Proof.
  assert (Hscan : no_text_layer scanned_pdf) by (repeat constructor).
  split; [exact Hscan |].
  exact (document_without_text_rejected no_answer scanned_pdf Hscan).
Defined.

Lemma without_marked_table_answer_decides_witness :
  let cq_items : list (string * pyval Decimal.t) :=
    [ ("Revenue", VNone); ("Operating Profit", VNone);
      ("Net Profit", VNone); ("Unit", VStr "Crores") ] in
  let ad_items : list (string * pyval Decimal.t) :=
    [ ("Year", VStr "2024"); ("Revenue", VNone);
      ("Operating Profit", VNone); ("Net Profit", VNone);
      ("Unit", VStr "Crores") ] in
  (Forall unmarked (extract_tables (text_page "Notice of meeting")) ∧
   Str.nonempty (Str.strip (document_text notice_pdf)) = true) ∧
  llm_calls (extract_fin_data null_answer notice_pdf)
    = [document_text notice_pdf] ∧
  (returned (extract_fin_data null_answer notice_pdf) = Ok no_data_error ∨
   ∃ name fd,
     returned (extract_fin_data null_answer notice_pdf)
       = Ok (Financials name fd) ∧
     ∀ m, current_quarter fd !! key_of m =
            merged_entry cq_items unset_section (key_of m) ∧
          annual_data fd !! key_of m =
            merged_entry ad_items unset_section (key_of m)).
Proof.
  intros cq_items ad_items.
  assert (Hun : Forall unmarked (extract_tables (text_page "Notice of meeting")))
    by constructor.
  assert (Htext : Str.nonempty (Str.strip (document_text notice_pdf)) = true)
    by (vm_compute; reflexivity).
  split; [auto |].
  destruct (without_marked_table_answer_decides null_answer
              (text_page "Notice of meeting") [] Hun Htext)
    as (Hcalls & Hobjects & _).
  split; [exact Hcalls |].
  exact (Hobjects cq_items ad_items eq_refl eq_refl).
Defined.

Lemma without_fallback_local_values_returned_witness :
  ∃ fd0,
    (Str.nonempty (Str.strip (document_text statement_pdf)) = true ∧
     local_parse statement_pdf = Ok fd0 ∧
     any_values (current_quarter fd0) = true) ∧
    llm_calls (extract_fin_data no_answer statement_pdf) = [] ∧
    ∃ fd,
      returned (extract_fin_data no_answer statement_pdf) =
        Ok (Financials
              (VStr (extract_company_name (document_text statement_pdf))) fd) ∧
      ∀ m, current_quarter fd !! key_of m = current_quarter fd0 !! key_of m ∧
           annual_data fd !! key_of m = annual_data fd0 !! key_of m.
Proof.
  assert (Htext : Str.nonempty (Str.strip (document_text statement_pdf)) = true)
    by (vm_compute; reflexivity).
  assert (Hany : match local_parse statement_pdf with
                 | Ok fd0 => any_values (current_quarter fd0)
                 | Raise _ => false
                 end = true) by (vm_compute; reflexivity).
  destruct (local_parse statement_pdf) as [fd0 | e] eqn:Hlocal;
    [| discriminate Hany].
  exists fd0. split; [auto |].
  exact (without_fallback_local_values_returned no_answer statement_pdf fd0
           Htext Hlocal Hany).
Defined.

Lemma company_unknown_without_phrase_witness :
  (ascii_text "Notice of meeting" ∧
   Forall (λ p, ¬ ci_contained p "Notice of meeting") company_phrases) ∧
  extract_company_name "Notice of meeting" = "Unknown Company".
Proof.
  assert (Hascii : ascii_text "Notice of meeting") by reflexivity.
  assert (Hnone : Forall (λ p, ¬ ci_contained p "Notice of meeting")
                    company_phrases).
  { repeat (constructor;
            [intros Hc; apply ci_contained_contains in Hc;
             vm_compute in Hc; discriminate Hc |]).
    constructor. }
  split; [auto |].
  exact (company_unknown_without_phrase "Notice of meeting" Hascii Hnone).
Defined.

Lemma company_name_shape_witness :
  ascii_text "Financial Report of: Acme & Sons Ltd. (India)" ∧
  all_chars company_char
    (extract_company_name "Financial Report of: Acme & Sons Ltd. (India)")
    = true ∧
  padded (extract_company_name "Financial Report of: Acme & Sons Ltd. (India)")
    = false.
Proof.
  assert (Hascii : ascii_text "Financial Report of: Acme & Sons Ltd. (India)")
    by reflexivity.
  split; [exact Hascii |].
  exact (company_name_shape "Financial Report of: Acme & Sons Ltd. (India)"
           Hascii).
Defined.

Lemma matching_ignores_context_witness :
  (proper_terms OPT ∧ matched OPT "EBIT" = true) ∧
  matched OPT ("D" +:+ "EBIT" +:+ " balances written off") = true.
Proof.
  assert (Hproper : proper_terms OPT) by (repeat constructor).
  assert (Hm : matched OPT "EBIT" = true) by (vm_compute; reflexivity).
  split; [auto |].
  exact (matching_ignores_context OPT "EBIT" "D" " balances written off"
           Hproper Hm).
Defined.

Lemma period_label_well_formed_witness :
  ((extract_dates_from_text dated_text).1 = Some "Q1 2024" ∨
   (extract_dates_from_text dated_text).2 = Some "Q1 2024") ∧
  ∃ d, d ∈ parsed_dates dated_text ∧ valid_date d ∧
       "Q1 2024" = "Q" +:+ str_of_nat (quarter d) +:+ " " +:+ str_of_nat (year d) ∧
       (1 ≤ quarter d ≤ 4)%nat.
Proof.
  assert (Hlabel : (extract_dates_from_text dated_text).1 = Some "Q1 2024" ∨
                   (extract_dates_from_text dated_text).2 = Some "Q1 2024")
    by (left; vm_compute; reflexivity).
  split; [exact Hlabel |].
  exact (period_label_well_formed dated_text "Q1 2024" Hlabel).
Defined.

Lemma repeated_latest_date_witness :
  let d := {| year := 2024; month := 3; day := 31 |} in
  (parsed_dates dated_text =
     [] ++ d :: [] ++ d :: [ {| year := 2023; month := 12; day := 31 |} ] ∧
   Forall (λ e, date_leb e d = true) (parsed_dates dated_text)) ∧
  extract_dates_from_text dated_text
    = (Some (period_label d), Some (period_label d)).
Proof.
  intros d.
  assert (Hsplit : parsed_dates dated_text =
            [] ++ d :: [] ++ d :: [ {| year := 2023; month := 12; day := 31 |} ])
    by (vm_compute; reflexivity).
  assert (Hmax : Forall (λ e, date_leb e d = true) (parsed_dates dated_text))
    by (vm_compute; repeat constructor).
  split; [auto |].
  exact (repeated_latest_date dated_text d [] []
           [ {| year := 2023; month := 12; day := 31 |} ] Hsplit Hmax).
Defined.

Lemma chatbot_reads_first_2000_witness :
  (2000 ≤ String.length long_text)%nat ∧
  generate_chatbot_response plain_str echo "What is the revenue?"
    (VStr "Acme Ltd") acme_record (long_text +:+ " Notes to the accounts") =
  generate_chatbot_response plain_str echo "What is the revenue?"
    (VStr "Acme Ltd") acme_record long_text.
Proof.
  assert (Hlen : (2000 ≤ String.length long_text)%nat)
    by (apply Nat.leb_le; vm_compute; reflexivity).
  split; [exact Hlen |].
  exact (chatbot_reads_first_2000 plain_str echo "What is the revenue?"
           (VStr "Acme Ltd") acme_record long_text " Notes to the accounts" Hlen).
Defined.

Lemma stored_result_is_final_witness :
  let st := stored_session (Financials (VStr "Acme Ltd") acme_record) in
  let inputs :=
    [ (echo, None, "What is the revenue?");
      (unreachable, Some notice_pdf, "And the profit?") ] in
  financial_data st = Some (Financials (VStr "Acme Ltd") acme_record) ∧
  financial_data (runs plain_str always_renders inputs st)
    = Some (Financials (VStr "Acme Ltd") acme_record) ∧
  full_financial_text (runs plain_str always_renders inputs st)
    = full_financial_text st.
Proof.
  intros st inputs.
  assert (Hdata : financial_data st
                  = Some (Financials (VStr "Acme Ltd") acme_record))
    by reflexivity.
  split; [exact Hdata |].
  exact (stored_result_is_final plain_str always_renders inputs st _ Hdata).
Defined.

Lemma stored_error_is_final_witness :
  let st := stored_session no_data_error in
  let inputs :=
    [ (echo, None, "What is the revenue?");
      (echo, Some notice_pdf, "And the profit?") ] in
  (page_name st = "results" ∧ financial_data st = Some no_data_error) ∧
  runs plain_str always_renders inputs st = st ∧
  ∀ now uploaded user_query,
    main plain_str always_renders now uploaded user_query st = (st, Done).
Proof.
  intros st inputs.
  assert (Hpage : page_name st = "results") by reflexivity.
  assert (Hdata : financial_data st = Some no_data_error) by reflexivity.
  split; [auto |].
  exact (stored_error_is_final plain_str always_renders inputs st 404%Z
           "No financial data found in the document." Hpage Hdata).
Defined.

Lemma rerun_settles_witness :
  let st := stored_session (Financials (VStr "Acme Ltd") acme_record) in
  let run := main plain_str always_renders echo None "What is the revenue?" st in
  (page_name st = "results" ∧ run.2 = Rerun) ∧
  main plain_str always_renders unreachable None "What is the revenue?" run.1
    = (run.1, Done).
Proof.
  intros st run.
  assert (Hpage : page_name st = "results") by reflexivity.
  assert (Hrerun : run.2 = Rerun) by reflexivity.
  split; [auto |].
  exact (rerun_settles plain_str always_renders echo None
           "What is the revenue?" st unreachable None Hpage Hrerun).
Defined.

Lemma unanswered_question_repeats_witness :
  let st := stored_session (Financials (VStr "Acme Ltd") acme_record) in
  let q := "What is the revenue?" in
  (page_name st = "results" ∧ uploaded_file_path st = Some statement_pdf ∧
   financial_data st = Some (Financials (VStr "Acme Ltd") acme_record) ∧
   always_renders (VStr "Acme Ltd") acme_record = true ∧
   Str.nonempty q = true ∧ q ≠ last_handled_query st ∧
   generate_chatbot_response plain_str unreachable q (VStr "Acme Ltd")
     acme_record (full_financial_text st) = None) ∧
  chat_history (runs plain_str always_renders (repeat (unreachable, None, q) 3) st)
    = chat_history st ++ repeat {| role := "user"; content := q |} 3 ∧
  (main plain_str always_renders unreachable None q
     (runs plain_str always_renders (repeat (unreachable, None, q) 3) st)).2
    = Crashed.
Proof.
  intros st q.
  assert (Hnew : q ≠ last_handled_query st) by discriminate.
  split; [repeat split; exact Hnew |].
  exact (unanswered_question_repeats plain_str always_renders unreachable None
           q statement_pdf (VStr "Acme Ltd") acme_record st
           eq_refl eq_refl eq_refl eq_refl eq_refl Hnew eq_refl 3).
Defined.

Lemma answer_parsed_between_outer_braces_witness :
  chatty_response (Gemini.prompt "Statement of Acme Ltd")
    = Some "Here you are: {x} and {y}. Done" ∧
  (∀ pre body post,
     "Here you are: {x} and {y}. Done" = pre +:+ "{" +:+ body +:+ "}" +:+ post →
     Str.contains "{" pre = false → Str.contains "}" post = false →
     Gemini.use_gemini_extraction chatty_response no_json "Statement of Acme Ltd"
       = Some (no_json ("{" +:+ body +:+ "}"))) ∧
  (∀ pre post,
     "Here you are: {x} and {y}. Done" = pre +:+ post →
     Str.contains "{" pre = false → Str.contains "}" post = false →
     Gemini.use_gemini_extraction chatty_response no_json "Statement of Acme Ltd"
       = Some None).
Proof.
  assert (Hresp : chatty_response (Gemini.prompt "Statement of Acme Ltd")
                  = Some "Here you are: {x} and {y}. Done") by reflexivity.
  split; [exact Hresp |].
  exact (answer_parsed_between_outer_braces chatty_response no_json
           "Statement of Acme Ltd" "Here you are: {x} and {y}. Done" Hresp).
Defined.

End FurtherClosed.
